(** * serial-server.py: an RFC 2217 serial-to-TCP redirector

    A shallow embedding of [src/serial-server.py] and the properties of its
    connection supervisor (the main loop) and of the per-connection
    [Redirector].

    The Python code talks to three outside objects: the serial port
    ([serial.Serial]), the sockets ([socket.socket]) and the RFC 2217 port
    manager ([serial.rfc2217.PortManager]).  Every call into one of them is a
    primitive of the model: it is recorded in the list of events of the run
    and, where it can fail or return data, its result is read from a script
    of replies that stands for the environment.  The port manager is handed
    the Redirector as its connection: what it sends to the client it sends
    by calling [Redirector.write] from inside the call that was made to it,
    and the script says when it does.  The code of the repository itself
    (loops, [try]/[except]/[finally], the liveness flag, the lock) is written
    out in a small state-and-exception monad. *)

From Stdlib Require Import List String Ascii ZArith Bool Arith Lia.
From Stdlib Require Import Permutation.
From Stdlib Require Import Strings.Byte.
From Stdlib Require Import DecimalString.
Import ListNotations.
Open Scope string_scope.
Open Scope Z_scope.

Set Implicit Arguments.

(* ------------------------------------------------------------------ *)
(** ** Exceptions *)

(** The exception classes the code names or can meet, with Python 3's class
    hierarchy: [socket.error] is an alias of [OSError]; [BlockingIOError] and
    [socket.timeout] derive from [OSError]; pyserial declares
    [class SerialException(IOError)] ([IOError] is [OSError] too) and
    [class SerialTimeoutException(SerialException)]; [KeyboardInterrupt]
    derives from [BaseException] only. *)
Inductive pyclass :=
| BaseException
| Exception
| KeyboardInterrupt
| OSError
| BlockingIOError
| socket_timeout
| SerialException
| SerialTimeoutException
| AttributeError
| ValueError
| TypeError.

Definition pyclass_eqb (c d : pyclass) : bool :=
  match c, d with
  | BaseException, BaseException | Exception, Exception
  | KeyboardInterrupt, KeyboardInterrupt | OSError, OSError
  | BlockingIOError, BlockingIOError | socket_timeout, socket_timeout
  | SerialException, SerialException
  | SerialTimeoutException, SerialTimeoutException
  | AttributeError, AttributeError | ValueError, ValueError
  | TypeError, TypeError => true
  | _, _ => false
  end.

(** The direct base class. *)
Definition base (c : pyclass) : option pyclass :=
  match c with
  | BaseException => None
  | Exception | KeyboardInterrupt => Some BaseException
  | OSError | AttributeError | ValueError | TypeError => Some Exception
  | BlockingIOError | socket_timeout | SerialException => Some OSError
  | SerialTimeoutException => Some SerialException
  end.

Fixpoint issubclass_upto (depth : nat) (c d : pyclass) : bool :=
  pyclass_eqb c d ||
  match depth with
  | O => false
  | S k => match base c with
           | Some b => issubclass_upto k b d
           | None => false
           end
  end.

(** [isinstance e c]: an exception of class [e] is caught by [except c].
    No class is more than four steps below [BaseException]. *)
Definition isinstance (e c : pyclass) : bool := issubclass_upto 4 e c.

(** [socket.error], as the [except] clauses of the source spell it. *)
Definition socket_error : pyclass := OSError.

(* ------------------------------------------------------------------ *)
(** ** Settings (lines 33-41) *)

Definition bytes := list byte.

(** Seconds; the source writes the floating-point literal [1.0]. *)
Definition SERIAL_WAIT : Z := 1.
Definition SERIAL_TIMEOUT : Z := 1.
Definition SERVER_WAIT : Z := 1.
Definition SERVER_TIMEOUT : Z := 1.

Definition IP_WHITELIST : list string :=
  [ "localhost"; "0.0.0.0"; "127.0.0.1" ].

(** Python's [x in xs] on a list of [str]: equality of strings, element by
    element. *)
Definition str_in_list (x : string) (xs : list string) : bool :=
  existsb (String.eqb x) xs.

(** Python's [sub in s] on [str]: substring test. *)
Definition str_contains (sub s : string) : bool :=
  match String.index 0 sub s with
  | Some _ => true
  | None => false
  end.

Definition str_of_Z (z : Z) : string := NilZero.string_of_int (Z.to_int z).

(* ------------------------------------------------------------------ *)
(** ** Logging (lines 198-209) *)

Module Logging.

Definition NOTSET : Z := 0.
Definition DEBUG : Z := 10.
Definition INFO : Z := 20.
Definition WARNING : Z := 30.
Definition ERROR : Z := 40.

Definition levels : list Z := [ NOTSET; WARNING; INFO; DEBUG ].

(** Python's [t[i]] on a tuple: negative indices count from the end, an
    index out of range raises [IndexError] ([None] here). *)
Definition py_index (t : list Z) (i : Z) : option Z :=
  let n := Z.of_nat (List.length t) in
  if i <? - n then None
  else if i <? 0 then nth_error t (Z.to_nat (n + i))
  else nth_error t (Z.to_nat i).

(** Lines 199-200. *)
Definition clamp_verbosity (verbosity : Z) : Z :=
  if verbosity >? 3 then 3 else verbosity.

(** The level handed to [setLevel] on lines 208 and 209. *)
Definition configured_level (verbosity : Z) : option Z :=
  py_index levels (clamp_verbosity verbosity).

(** The three loggers of the program and the root logger; line 207 gives
    the root logger the level [INFO]. *)
Record config := mkConfig {
  root_level : Z;
  rfc2217_level : Z;       (* logging.getLogger("rfc2217") *)
  redirector_level : Z     (* logging.getLogger("redirector") *)
}.

(** Lines 199-209 as a whole; [None] when line 208 raises. *)
Definition configure (verbosity : Z) : option config :=
  match configured_level verbosity with
  | Some l => Some (mkConfig INFO l l)
  | None => None
  end.

(** [Logger.getEffectiveLevel] for a logger directly below the root: its
    own level unless that is [NOTSET], then the root's. *)
Definition effective_level (root own : Z) : Z :=
  if own =? NOTSET then root else own.

(** [Logger.isEnabledFor]. *)
Definition enabled_for (root own msg_level : Z) : bool :=
  effective_level root own <=? msg_level.

(** The collaborator gets a logger only when line 294 passes [True]. *)
Definition collaborator_debug (verbosity : Z) : bool :=
  clamp_verbosity verbosity >? 0.

End Logging.

(* ------------------------------------------------------------------ *)
(** ** The objects the program works on *)

(** The dictionary [ser.get_settings()] returns and [ser.apply_settings]
    takes: port parameters by attribute name. *)
Definition settings := list (string * Z).

(** The [serial.Serial] object bound to [ser] (line 212). *)
Record serial_port := mkSerial {
  ser_name : string;
  is_open : bool;
  dtr : bool;
  rts : bool;
  cfg : settings;
  wire : bytes            (* everything written to the device so far *)
}.

(** A connected client socket: [rx] holds the bytes the peer has sent that
    no [recv] has returned yet. *)
Record socket := mkSocket {
  rx : bytes;
  sock_closed : bool;
  nodelay : bool;
  blocking : bool;
  tx : bytes
}.

Inductive thread_state := Running | Terminated.

Inductive thread_id := thread_read_id | thread_poll_id.

(** A [Redirector] object.  [alive], [thread_read] and [thread_poll] are
    attributes that [__init__] does not create: they are [None] until
    [shortcircuit] assigns them.  [write_lock] is [true] while
    [_write_lock] is held. *)
Record redirector := mkRedirector {
  alive : option bool;
  write_lock : bool;
  thread_read : option thread_state;
  thread_poll : option thread_state;
  rfc_debug : bool
}.

(** What the environment answers to a call.  [Cleared] is not an answer but
    an interference: another activity of the same Redirector has assigned
    [self.alive = False] since this one last looked.  [Answer a r] is a
    call of the RFC 2217 collaborator in the course of which it sends [a]
    to the client through its connection, which is the Redirector (lines
    55-58), and then comes to [r]. *)
Inductive reply :=
| Cleared
| Done
| Num (n : nat)
| Data (d : bytes)
| Reconf (c : settings) (d : bytes)
| Conn (host : string) (port : Z)
| Raise (e : pyclass) (msg : string)
| Answer (a : bytes) (r : reply).

(** The objects reachable from the main thread, and the script. *)
Record world := mkWorld {
  ser : serial_port;
  client : option socket;         (* the local [client] *)
  addr : option (string * Z);     (* the local [addr] *)
  rd : redirector;                (* the object bound to [r] / [self] *)
  script : list reply
}.

Inductive call :=
| srv_accept
| sock_recv (n : nat)
| sock_sendall (d : bytes)
| sock_close
| sock_setsockopt_nodelay
| sock_setblocking (b : bool)
| ser_open
| ser_close
| ser_in_waiting
| ser_read (n : nat)
| ser_write (d : bytes)
| ser_set_dtr (b : bool)
| ser_set_rts (b : bool)
| ser_get_settings
| ser_apply_settings (s : settings)
| rfc_PortManager (debug : bool)
| rfc_escape (d : bytes)
| rfc_filter (d : bytes)
| rfc_check_modem_lines
| time_sleep (seconds : Z).

Inductive event :=
| Call (c : call)
| Log (logger : string) (level : Z) (msg : string)
| SetAlive (b : bool)
| NewRedirector
| ThreadStart (t : thread_id)
| ThreadJoin (t : thread_id)
| LockAcquire
| LockRelease.

Definition set_ser (s : serial_port) (w : world) : world :=
  mkWorld s (client w) (addr w) (rd w) (script w).
Definition set_client (c : option socket) (w : world) : world :=
  mkWorld (ser w) c (addr w) (rd w) (script w).
Definition set_addr (a : option (string * Z)) (w : world) : world :=
  mkWorld (ser w) (client w) a (rd w) (script w).
Definition set_rd (r : redirector) (w : world) : world :=
  mkWorld (ser w) (client w) (addr w) r (script w).
Definition set_script (sc : list reply) (w : world) : world :=
  mkWorld (ser w) (client w) (addr w) (rd w) sc.

Definition with_alive (b : option bool) (r : redirector) : redirector :=
  mkRedirector b (write_lock r) (thread_read r) (thread_poll r) (rfc_debug r).
Definition with_lock (b : bool) (r : redirector) : redirector :=
  mkRedirector (alive r) b (thread_read r) (thread_poll r) (rfc_debug r).
Definition with_thread (t : thread_id) (s : option thread_state)
    (r : redirector) : redirector :=
  match t with
  | thread_read_id =>
      mkRedirector (alive r) (write_lock r) s (thread_poll r) (rfc_debug r)
  | thread_poll_id =>
      mkRedirector (alive r) (write_lock r) (thread_read r) s (rfc_debug r)
  end.
Definition thread_of (t : thread_id) (r : redirector) : option thread_state :=
  match t with
  | thread_read_id => thread_read r
  | thread_poll_id => thread_poll r
  end.

(* ------------------------------------------------------------------ *)
(** ** The monad: state, exceptions, events *)

(** How a piece of code ends: it returns, it raises (class and message), or
    it is still running when the script or the fuel of a loop is used up. *)
Inductive outcome (A : Type) :=
| Ret (a : A)
| Exc (e : pyclass) (msg : string)
| Blocked.
Arguments Exc {A} e msg.
Arguments Blocked {A}.

Record result (A : Type) := mkRes {
  out : outcome A;
  fin : world;
  evs : list event
}.

Definition M (A : Type) := world -> result A.

Definition ret {A} (a : A) : M A := fun w => mkRes (Ret a) w [].
Definition raise {A} (e : pyclass) (msg : string) : M A :=
  fun w => mkRes (Exc e msg) w [].
Definition blocked {A} : M A := fun w => mkRes Blocked w [].

Definition bind {A B} (m : M A) (k : A -> M B) : M B := fun w =>
  match m w with
  | mkRes (Ret a) w1 e1 =>
      match k a w1 with
      | mkRes o w2 e2 => mkRes o w2 (e1 ++ e2)
      end
  | mkRes (Exc e msg) w1 e1 => mkRes (Exc e msg) w1 e1
  | mkRes Blocked w1 e1 => mkRes Blocked w1 e1
  end.

Notation "x <- m ;; k" := (bind m (fun x => k))
  (at level 61, m at next level, right associativity).
Notation "m ;; k" := (bind m (fun _ => k))
  (at level 61, right associativity).

(** [try: m except ...: h]: [h e msg] is [None] when no clause matches. *)
Definition try_except {A} (m : M A)
    (h : pyclass -> string -> option (M A)) : M A := fun w =>
  match m w with
  | mkRes (Exc e msg) w1 e1 =>
      match h e msg with
      | Some k =>
          match k w1 with
          | mkRes o w2 e2 => mkRes o w2 (e1 ++ e2)
          end
      | None => mkRes (Exc e msg) w1 e1
      end
  | r => r
  end.

(** [try: m finally: f].  The [finally] block runs however [m] ends; an
    exception of [m] is re-raised after it unless [f] raises itself. *)
Definition try_finally {A} (m : M A) (f : M unit) : M A := fun w =>
  match m w with
  | mkRes Blocked w1 e1 => mkRes Blocked w1 e1
  | mkRes o w1 e1 =>
      match f w1 with
      | mkRes (Ret _) w2 e2 => mkRes o w2 (e1 ++ e2)
      | mkRes (Exc e msg) w2 e2 => mkRes (Exc e msg) w2 (e1 ++ e2)
      | mkRes Blocked w2 e2 => mkRes Blocked w2 (e1 ++ e2)
      end
  end.

Definition get : M world := fun w => mkRes (Ret w) w [].
Definition modify (f : world -> world) : M unit :=
  fun w => mkRes (Ret tt) (f w) [].
Definition emit (ev : event) : M unit := fun w => mkRes (Ret tt) w [ev].

Inductive loop_ctl := Continue | Break.

(* ------------------------------------------------------------------ *)
(** ** Primitives *)

Fixpoint drop_cleared (sc : list reply) : list reply :=
  match sc with
  | Cleared :: t => drop_cleared t
  | _ => sc
  end.

Definition starts_cleared (sc : list reply) : bool :=
  match sc with
  | Cleared :: _ => true
  | _ => false
  end.

(** Take note of what the other activities did in the meantime. *)
Definition absorb : M unit :=
  modify (fun w =>
    set_script (drop_cleared (script w))
      (if starts_cleared (script w)
       then set_rd (with_alive (Some false) (rd w)) w
       else w)).

(** The next answer of the environment; a [Raise] is raised here. *)
Definition ask : M reply :=
  absorb ;;
  fun w =>
    match script w with
    | [] => mkRes Blocked w []
    | Raise e msg :: t => mkRes (Exc e msg) (set_script t w) []
    | r :: t => mkRes (Ret r) (set_script t w) []
    end.

Definition do_call (c : call) : M reply := emit (Call c) ;; ask.

(** A call that returns nothing. *)
Definition call_unit (c : call) : M unit :=
  r <- do_call c ;;
  match r with
  | Done => ret tt
  | _ => blocked
  end.

(** A call that returns a byte string. *)
Definition call_bytes (c : call) : M bytes :=
  r <- do_call c ;;
  match r with
  | Data d => ret d
  | _ => blocked
  end.

Definition log (logger : string) (level : Z) (msg : string) : M unit :=
  emit (Log logger level msg).

Definition sleep (seconds : Z) : M unit := call_unit (time_sleep seconds).

(** *** The serial port *)

Definition with_is_open (b : bool) (s : serial_port) : serial_port :=
  mkSerial (ser_name s) b (dtr s) (rts s) (cfg s) (wire s).
Definition with_dtr (b : bool) (s : serial_port) : serial_port :=
  mkSerial (ser_name s) (is_open s) b (rts s) (cfg s) (wire s).
Definition with_rts (b : bool) (s : serial_port) : serial_port :=
  mkSerial (ser_name s) (is_open s) (dtr s) b (cfg s) (wire s).
Definition with_cfg (c : settings) (s : serial_port) : serial_port :=
  mkSerial (ser_name s) (is_open s) (dtr s) (rts s) c (wire s).
Definition with_wire (d : bytes) (s : serial_port) : serial_port :=
  mkSerial (ser_name s) (is_open s) (dtr s) (rts s) (cfg s) d.

Definition on_ser (f : serial_port -> serial_port) : M unit :=
  modify (fun w => set_ser (f (ser w)) w).

Definition serial_open : M unit :=
  call_unit ser_open ;; on_ser (with_is_open true).
Definition serial_close : M unit :=
  call_unit ser_close ;; on_ser (with_is_open false).
Definition serial_set_dtr (b : bool) : M unit :=
  call_unit (ser_set_dtr b) ;; on_ser (with_dtr b).
Definition serial_set_rts (b : bool) : M unit :=
  call_unit (ser_set_rts b) ;; on_ser (with_rts b).
Definition serial_get_settings : M settings :=
  emit (Call ser_get_settings) ;; w <- get ;; ret (cfg (ser w)).
Definition serial_apply_settings (s : settings) : M unit :=
  call_unit (ser_apply_settings s) ;; on_ser (with_cfg s).
Definition serial_in_waiting : M nat :=
  r <- do_call ser_in_waiting ;;
  match r with
  | Num n => ret n
  | _ => blocked
  end.
(** [read(size)] returns at most [size] bytes. *)
Definition serial_read (size : nat) : M bytes :=
  d <- call_bytes (ser_read size) ;; ret (firstn size d).
Definition serial_write (d : bytes) : M unit :=
  call_unit (ser_write d) ;; on_ser (fun s => with_wire (wire s ++ d)%list s).

(** *** The client socket *)

Definition with_rx (d : bytes) (s : socket) : socket :=
  mkSocket d (sock_closed s) (nodelay s) (blocking s) (tx s).
Definition with_closed (b : bool) (s : socket) : socket :=
  mkSocket (rx s) b (nodelay s) (blocking s) (tx s).
Definition with_nodelay (b : bool) (s : socket) : socket :=
  mkSocket (rx s) (sock_closed s) b (blocking s) (tx s).
Definition with_blocking (b : bool) (s : socket) : socket :=
  mkSocket (rx s) (sock_closed s) (nodelay s) b (tx s).
Definition with_tx (d : bytes) (s : socket) : socket :=
  mkSocket (rx s) (sock_closed s) (nodelay s) (blocking s) d.

(** The socket object behind [client] / [self.socket]; a method call on
    [None] raises [AttributeError]. *)
Definition the_socket : M socket :=
  w <- get ;;
  match client w with
  | Some s => ret s
  | None => raise AttributeError "'NoneType' object has no attribute"
  end.

Definition on_socket (f : socket -> socket) : M unit :=
  modify (fun w => set_client (option_map f (client w)) w).

(** [sock.recv(n)]: at most [n] of the bytes the peer has sent.  When none
    is buffered the environment says what arrives: [Data d] with [d]
    non-empty is new data, [Data []] is the peer's end of stream, [Raise]
    an error ([BlockingIOError] when the socket is non-blocking and nothing
    is there). *)
Definition socket_recv (n : nat) : M bytes :=
  emit (Call (sock_recv n)) ;;
  s <- the_socket ;;
  if sock_closed s then raise OSError "[Errno 9] Bad file descriptor"
  else
    match rx s with
    | _ :: _ =>
        on_socket (with_rx (skipn n (rx s))) ;; ret (firstn n (rx s))
    | [] =>
        r <- ask ;;
        match r with
        | Data d => on_socket (with_rx (skipn n d)) ;; ret (firstn n d)
        | _ => blocked
        end
    end.

Definition socket_sendall (d : bytes) : M unit :=
  the_socket ;; call_unit (sock_sendall d) ;;
  on_socket (fun s => with_tx (tx s ++ d)%list s).
Definition socket_close : M unit :=
  the_socket ;; call_unit sock_close ;; on_socket (with_closed true).
Definition socket_setsockopt_nodelay : M unit :=
  the_socket ;; call_unit sock_setsockopt_nodelay ;;
  on_socket (with_nodelay true).
Definition socket_setblocking (b : bool) : M unit :=
  the_socket ;; call_unit (sock_setblocking b) ;;
  on_socket (with_blocking b).

(** [client, addr = srv.accept()]: a fresh socket object, in blocking mode
    as Python creates it. *)
Definition server_accept : M unit :=
  r <- do_call srv_accept ;;
  match r with
  | Conn host port =>
      modify (fun w =>
        set_addr (Some (host, port))
          (set_client (Some (mkSocket [] false false true [])) w))
  | _ => blocked
  end.

(** *** The RFC 2217 collaborator *)

(** [b''.join(self.rfc2217.escape(data))]. *)
Definition rfc2217_escape (d : bytes) : M bytes := call_bytes (rfc_escape d).

(** The collaborator was constructed with the Redirector as its
    connection: what it has to say to the client it sends with
    [self.connection.write], which is [Redirector.write], from inside the
    call and so in the thread that made the call.  [answers conn_write r]
    makes the sends of [r] and gives what the call then comes to. *)
Fixpoint answers (conn_write : bytes -> M unit) (r : reply) : M reply :=
  match r with
  | Answer a r' => conn_write a ;; answers conn_write r'
  | Raise e msg => raise e msg
  | _ => ret r
  end.

(** [serial.rfc2217.PortManager(self.serial, self, logger=...)]: the
    constructor sends the opening negotiation. *)
Definition rfc2217_PortManager (conn_write : bytes -> M unit) (debug : bool)
    : M unit :=
  r <- do_call (rfc_PortManager debug) ;;
  r' <- answers conn_write r ;;
  match r' with
  | Done => ret tt
  | _ => blocked
  end.

(** [b''.join(self.rfc2217.filter(data))]: the payload that is left once the
    control sequences are taken out; a control sequence may be answered
    ([Answer]) and may set port parameters on the way ([Reconf]). *)
Definition rfc2217_filter (conn_write : bytes -> M unit) (d : bytes)
    : M bytes :=
  r <- do_call (rfc_filter d) ;;
  r' <- answers conn_write r ;;
  match r' with
  | Data p => ret p
  | Reconf c p => on_ser (with_cfg c) ;; ret p
  | _ => blocked
  end.

(** [self.rfc2217.check_modem_lines()]: a change of the modem lines is
    notified to the client ([Answer]). *)
Definition rfc2217_check_modem_lines (conn_write : bytes -> M unit)
    : M unit :=
  r <- do_call rfc_check_modem_lines ;;
  r' <- answers conn_write r ;;
  match r' with
  | Done => ret tt
  | _ => blocked
  end.

(** *** Threads and the flag *)

Definition on_rd (f : redirector -> redirector) : M unit :=
  modify (fun w => set_rd (f (rd w)) w).

(** Reading [self.alive]: the flag is shared, so first see what the others
    did to it. *)
Definition read_alive : M bool :=
  absorb ;;
  w <- get ;;
  match alive (rd w) with
  | Some b => ret b
  | None => raise AttributeError "'Redirector' object has no attribute 'alive'"
  end.

Definition set_alive (b : bool) : M unit :=
  emit (SetAlive b) ;; on_rd (with_alive (Some b)).

(** Lines 76-79 and 80-83: create the [Thread], name it, start it. *)
Definition thread_start (t : thread_id) : M unit :=
  emit (ThreadStart t) ;; on_rd (with_thread t (Some Running)).

(** [Thread.join()]: returns once the thread has terminated. *)
Definition thread_join (t : thread_id) : M unit :=
  emit (ThreadJoin t) ;;
  w <- get ;;
  match thread_of t (rd w) with
  | Some _ => on_rd (with_thread t (Some Terminated))
  | None => raise AttributeError "'Redirector' object has no attribute"
  end.

Definition lock_acquire : M unit :=
  w <- get ;;
  if write_lock (rd w) then blocked
  else emit LockAcquire ;; on_rd (with_lock true).

Definition lock_release : M unit :=
  emit LockRelease ;; on_rd (with_lock false).

(* ------------------------------------------------------------------ *)
(** ** class Redirector (lines 46-144) *)

Module Redirector.

(** Lines 106-111: [with self._write_lock: self.socket.sendall(data)]. *)
Definition write (data : bytes) : M unit :=
  lock_acquire ;;
  try_finally (socket_sendall data) lock_release.

(** Lines 51-59.  The [PortManager] constructor is handed [self] as its
    connection and may already send through it. *)
Definition __init__ (debug : bool) : M unit :=
  modify (set_rd (mkRedirector None false None None debug)) ;;
  emit NewRedirector ;;
  rfc2217_PortManager write debug.

(** Lines 61-69. *)
Fixpoint statusline_poller_loop (fuel : nat) : M unit :=
  match fuel with
  | O => blocked
  | S fuel' =>
      a <- read_alive ;;
      if a then
        sleep 1 ;;
        try_except (rfc2217_check_modem_lines write)
          (fun e msg =>
             if isinstance e SerialException
             then Some (log "redirector" Logging.ERROR
                          ("Error polling modem lines: " ++ msg))
             else None) ;;
        statusline_poller_loop fuel'
      else ret tt
  end.

Definition statusline_poller (fuel : nat) : M unit :=
  log "redirector" Logging.DEBUG "Status line poll thread started" ;;
  statusline_poller_loop fuel ;;
  log "redirector" Logging.DEBUG "Status line poll thread terminated".

(** Lines 86-104. *)
Fixpoint reader_loop (fuel : nat) : M unit :=
  match fuel with
  | O => blocked
  | S fuel' =>
      a <- read_alive ;;
      if a then
        c <- try_except
               (n <- serial_in_waiting ;;
                data <- serial_read (if Nat.eqb n 0 then 1 else n) ;;
                match data with
                | [] => ret Continue
                | _ :: _ =>
                    esc <- rfc2217_escape data ;;
                    write esc ;;
                    ret Continue
                end)
               (fun e msg =>
                  if isinstance e socket_error
                  then Some (log "redirector" Logging.ERROR msg ;;
                             ret Break)
                  else None) ;;
        match c with
        | Continue => reader_loop fuel'
        | Break => ret tt
        end
      else ret tt
  end.

Definition reader (fuel : nat) : M unit :=
  log "redirector" Logging.DEBUG "Reader thread started" ;;
  reader_loop fuel ;;
  set_alive false ;;
  log "redirector" Logging.DEBUG "Reader thread terminated".

(** Lines 136-144. *)
Definition stop : M unit :=
  log "redirector" Logging.DEBUG "Stopping" ;;
  a <- read_alive ;;
  if a then
    set_alive false ;;
    thread_join thread_read_id ;;
    thread_join thread_poll_id
  else ret tt.

(** Lines 113-134. *)
Fixpoint writer_loop (fuel : nat) : M unit :=
  match fuel with
  | O => blocked
  | S fuel' =>
      a <- read_alive ;;
      if a then
        c <- try_except
               (data <- socket_recv 1024 ;;
                match data with
                | [] => ret Break
                | _ :: _ =>
                    p <- rfc2217_filter write data ;;
                    serial_write p ;;
                    ret Continue
                end)
               (fun e msg =>
                  if isinstance e BlockingIOError
                  then Some (ret Continue)
                  else if isinstance e socket_error
                  then Some (log "redirector" Logging.ERROR msg ;;
                             ret Break)
                  else None) ;;
        match c with
        | Continue => writer_loop fuel'
        | Break => ret tt
        end
      else ret tt
  end.

Definition writer (fuel : nat) : M unit :=
  writer_loop fuel ;;
  log "redirector" Logging.DEBUG "Writer thread terminated" ;;
  stop.

(** Lines 71-84. *)
Definition shortcircuit (fuel : nat) : M unit :=
  set_alive true ;;
  thread_start thread_read_id ;;
  thread_start thread_poll_id ;;
  writer fuel.

End Redirector.

(* ------------------------------------------------------------------ *)
(** ** is_socket_connected (lines 149-161) *)

(** The argument [sock] is the local [client] of the main loop. *)
Definition is_socket_connected : M bool :=
  w <- get ;;
  match client w with
  | None => ret false
  | Some _ =>
      try_except
        (data <- socket_recv 1 ;;
         match data with
         | [] => ret false
         | _ :: _ => ret true
         end)
        (fun e msg =>
           if isinstance e socket_error then Some (ret true) else None)
  end.

(* ------------------------------------------------------------------ *)
(** ** Main (lines 211-322) *)

Definition assign (k : string) (v : Z) (s : settings) : settings :=
  (k, v) :: filter (fun kv => negb (String.eqb (fst kv) k)) s.

(** Lines 211-216: the port object, not opened, with its defaults. *)
Definition create_serial (SERIALPORT : string) (defaults : settings)
    : serial_port :=
  mkSerial SERIALPORT false false false
    (assign "write_timeout" SERIAL_TIMEOUT
       (assign "timeout" SERIAL_TIMEOUT defaults)) [].

(** The state in which the main loop is entered, given what the environment
    will answer. *)
Definition startup (SERIALPORT : string) (defaults : settings)
    (sc : list reply) : world :=
  mkWorld (create_serial SERIALPORT defaults) None None
    (mkRedirector None false None None false) sc.

Definition the_addr : M (string * Z) :=
  w <- get ;;
  match addr w with
  | Some a => ret a
  | None => raise Exception "name 'addr' is not defined"
  end.

Definition the_ser : M serial_port := w <- get ;; ret (ser w).

(** Lines 234-244. *)
Fixpoint wait_client (fuel : nat) : M unit :=
  match fuel with
  | O => blocked
  | S fuel' =>
      connected <- is_socket_connected ;;
      if connected then ret tt
      else
        try_except
          (server_accept ;;
           a <- the_addr ;;
           log "root" Logging.INFO
             ("Connection request from " ++ fst a ++ ":" ++ str_of_Z (snd a)))
          (fun e msg =>
             if isinstance e socket_timeout
             then Some (log "root" Logging.INFO
                          "Waiting for client connection..." ;;
                        sleep SERVER_WAIT)
             else None) ;;
        wait_client fuel'
  end.

(** Lines 258-278. *)
Fixpoint wait_serial (fuel : nat) : M unit :=
  match fuel with
  | O => blocked
  | S fuel' =>
      s <- the_ser ;;
      if is_open s then ret tt
      else
        try_except serial_open
          (fun e msg =>
             if isinstance e SerialException
             then Some
               ((if str_contains "Port is already open" msg
                 then serial_close
                 else if str_contains "PermissionError" msg
                 then log "root" Logging.ERROR
                        ("Port " ++ ser_name s ++ " is already in use")
                 else log "root" Logging.INFO
                        ("Waiting for serial connection on "
                           ++ ser_name s ++ "...")) ;;
                sleep SERIAL_WAIT)
             else None) ;;
        wait_serial fuel'
  end.

(** Lines 302-313, the [finally] block. *)
Definition teardown (saved : settings) : M unit :=
  log "root" Logging.INFO "Disconnected" ;;
  Redirector.stop ;;
  socket_close ;;
  serial_set_dtr false ;;
  serial_set_rts false ;;
  serial_apply_settings saved ;;
  serial_close.

(** Lines 280-295: take the snapshot, assert DTR and RTS, create the
    Redirector; the value is the snapshot. *)
Definition connect (verbosity : Z) : M settings :=
  s <- the_ser ;;
  log "root" Logging.INFO ("Connected to " ++ ser_name s) ;;
  saved <- serial_get_settings ;;
  serial_set_dtr true ;;
  serial_set_rts true ;;
  Redirector.__init__ (verbosity >? 0) ;;
  ret saved.

(** Lines 280-313: the session of one permitted client. *)
Definition session (verbosity : Z) (fuel : nat) : M unit :=
  saved <- connect verbosity ;;
  try_finally (Redirector.shortcircuit fuel) (teardown saved).

(** Lines 248-250: the peer is not on the list. *)
Definition deny (host : string) : M loop_ctl :=
  log "root" Logging.WARNING
    ("Connection request from " ++ host ++ " denied") ;;
  socket_close ;;
  ret Continue.

(** Lines 252-313: the peer is on the list. *)
Definition serve (verbosity : Z) (fuel : nat) : M loop_ctl :=
  socket_setsockopt_nodelay ;;
  socket_setblocking false ;;
  wait_serial fuel ;;
  session verbosity fuel ;;
  ret Continue.

(** Lines 233-313: the body of the outer [try]. *)
Definition main_body (verbosity : Z) (fuel : nat) : M loop_ctl :=
  modify (set_client None) ;;
  wait_client fuel ;;
  a <- the_addr ;;
  if negb (str_in_list (fst a) IP_WHITELIST) then deny (fst a)
  else serve verbosity fuel.

(** Lines 231-322: one turn of [while True]. *)
Definition main_iteration (verbosity : Z) (fuel : nat) : M loop_ctl :=
  try_except (main_body verbosity fuel)
    (fun e msg =>
       if isinstance e KeyboardInterrupt
       then Some (log "root" Logging.INFO "Exiting..." ;; ret Break)
       else if isinstance e socket_error
       then Some (log "root" Logging.ERROR ("Socket error: " ++ msg) ;;
                  ret Continue)
       else None).

(** Line 230; [turns] bounds the number of turns of [while True], [fuel]
    those of each inner loop. *)
Fixpoint main_loop (verbosity : Z) (fuel turns : nat) : M unit :=
  match turns with
  | O => blocked
  | S turns' =>
      c <- main_iteration verbosity fuel ;;
      match c with
      | Continue => main_loop verbosity fuel turns'
      | Break => ret tt
      end
  end.

(* ------------------------------------------------------------------ *)
(** ** The write lock under concurrency (lines 106-111) *)

(** Several threads call [Redirector.write] on one Redirector: the reader
    thread (line 97), and the threads in which the collaborator answers
    through its connection (the status poller and the writer).  Here the
    threads run interleaved, one step at a time, in an order a scheduler
    chooses; [sendall] puts its bytes on the wire one by one, so that a
    thread can be preempted anywhere inside it. *)
Module WriteGuard.

Local Open Scope list_scope.

(** Where one thread is with respect to [write]: outside of it, with the
    byte strings it will still write, or inside the [with] block, in
    [sendall], with the bytes already sent and those to go. *)
Inductive activity :=
| Outside (todo : list bytes)
| Sending (sent rest : bytes) (todo : list bytes).

Record state := mkState {
  threads : list activity;
  holder : option nat;        (* the thread that holds [_write_lock] *)
  stream : bytes              (* the bytes on the socket, in order *)
}.

Fixpoint set_nth (t : nat) (a : activity) (ts : list activity)
    : list activity :=
  match ts, t with
  | [], _ => []
  | _ :: r, O => a :: r
  | x :: r, S t' => x :: set_nth t' a r
  end.

(** What the scheduler picks: thread [t] takes its next step, or the
    [sendall] thread [t] is in raises. *)
Inductive move :=
| Step (t : nat)
| Fail (t : nat).

Definition step (m : move) (st : state) : state :=
  match m with
  | Step t =>
      match nth_error (threads st) t with
      | Some (Outside (d :: todo)) =>
          (* [with self._write_lock:] waits until the lock is free *)
          match holder st with
          | None => mkState (set_nth t (Sending [] d todo) (threads st))
                      (Some t) (stream st)
          | Some _ => st
          end
      | Some (Sending sent (b :: rest) todo) =>
          mkState (set_nth t (Sending (sent ++ [b]) rest todo) (threads st))
            (holder st) (stream st ++ [b])
      | Some (Sending sent [] todo) =>
          (* leaving the [with] block releases the lock *)
          mkState (set_nth t (Outside todo) (threads st)) None (stream st)
      | _ => st
      end
  | Fail t =>
      match nth_error (threads st) t with
      | Some (Sending sent rest todo) =>
          (* the exception leaves the [with] block: the lock is released *)
          mkState (set_nth t (Outside todo) (threads st)) None (stream st)
      | _ => st
      end
  end.

Definition run (ms : list move) (st : state) : state :=
  fold_left (fun s m => step m s) ms st.

Definition init (todos : list (list bytes)) : state :=
  mkState (map Outside todos) None [].

Definition is_sending (a : activity) : bool :=
  match a with
  | Sending _ _ _ => true
  | Outside _ => false
  end.

(** The byte strings a thread has yet to start writing. *)
Definition pending (a : activity) : list bytes :=
  match a with
  | Outside todo => todo
  | Sending _ _ todo => todo
  end.

(** [p] is an initial piece of [d]. *)
Definition initial_piece (p d : bytes) : Prop := exists r, d = p ++ r.

(** [p] is what one call of [write] put on the wire: an initial piece
    (all of it, unless [sendall] failed or is still under way) of one of
    the byte strings in [all]. *)
Definition written_by_one_call (all : list bytes) (p : bytes) : Prop :=
  exists d, In d all /\ initial_piece p d.

(** What the reachable states have in common, [all] being every byte
    string any thread was to write. *)
Definition guarded (all : list bytes) (st : state) : Prop :=
  (forall t a, nth_error (threads st) t = Some a ->
               Forall (fun d => In d all) (pending a)) /\
  exists segs cur,
    stream st = List.concat segs ++ cur /\
    Forall (written_by_one_call all) segs /\
    match holder st with
    | None =>
        cur = [] /\
        forall t a, nth_error (threads st) t = Some a -> is_sending a = false
    | Some t =>
        (exists rest todo,
           nth_error (threads st) t = Some (Sending cur rest todo) /\
           In (cur ++ rest) all) /\
        forall t' a, t' <> t -> nth_error (threads st) t' = Some a ->
                     is_sending a = false
    end.

End WriteGuard.

(* ------------------------------------------------------------------ *)
(** ** Reading a list of events *)

Definition is_call (c : call) (ev : event) : bool :=
  match ev, c with
  | Call srv_accept, srv_accept => true
  | Call ser_open, ser_open => true
  | Call ser_close, ser_close => true
  | Call sock_close, sock_close => true
  | _, _ => false
  end.

(** A call on the serial device. *)
Definition is_serial_call (ev : event) : bool :=
  match ev with
  | Call ser_open | Call ser_close | Call ser_in_waiting
  | Call (ser_read _) | Call (ser_write _)
  | Call (ser_set_dtr _) | Call (ser_set_rts _)
  | Call ser_get_settings | Call (ser_apply_settings _) => true
  | _ => false
  end.

Definition is_apply_settings (ev : event) : bool :=
  match ev with
  | Call (ser_apply_settings _) => true
  | _ => false
  end.

Definition is_new_redirector (ev : event) : bool :=
  match ev with
  | NewRedirector => true
  | _ => false
  end.

Definition is_set_alive (b : bool) (ev : event) : bool :=
  match ev with
  | SetAlive b' => Bool.eqb b b'
  | _ => false
  end.

Definition is_stopping (ev : event) : bool :=
  match ev with
  | Log "redirector" 10 "Stopping" => true
  | _ => false
  end.

Definition count (p : event -> bool) (l : list event) : nat :=
  List.length (filter p l).

(** The position of the first event that satisfies [p]. *)
Fixpoint first_index (p : event -> bool) (l : list event) : option nat :=
  match l with
  | [] => None
  | ev :: r => if p ev then Some O
               else option_map S (first_index p r)
  end.

(** [p] happens in [l], and before any [q] does. *)
Definition happens_first (p q : event -> bool) (l : list event) : bool :=
  match first_index p l, first_index q l with
  | Some i, Some j => Nat.ltb i j
  | Some _, None => true
  | None, _ => false
  end.

(* ------------------------------------------------------------------ *)
(** ** Properties of a piece of code *)

(** Every event [m] emits satisfies [P], from any state and however [m]
    ends. *)
Definition emits (P : event -> Prop) {A} (m : M A) : Prop :=
  forall w, Forall P (evs (m w)).

(** [I], once true, is true in the state [m] ends in, however it ends. *)
Definition preserves (I : world -> Prop) {A} (m : M A) : Prop :=
  forall w, I w -> I (fin (m w)).

(** Only exceptions of a class in [Q] leave [m]. *)
Definition escapes (Q : pyclass -> Prop) {A} (m : M A) : Prop :=
  forall w e msg, out (m w) = Exc e msg -> Q e.

(* ------------------------------------------------------------------ *)
(** ** Properties of events, classes and states *)

Definition not_socket_error (e : pyclass) : Prop :=
  isinstance e socket_error = false.

Definition never_sets_alive_true (ev : event) : Prop :=
  is_set_alive true ev = false.

Definition not_stopping (ev : event) : Prop := is_stopping ev = false.

Definition no_serial_call (ev : event) : Prop := is_serial_call ev = false.

Definition no_new_redirector (ev : event) : Prop :=
  is_new_redirector ev = false.

Definition no_apply_settings (ev : event) : Prop :=
  is_apply_settings ev = false.

(** Every [recv] asks for at most [n] bytes. *)
Definition recv_chunk_is (n : nat) (ev : event) : Prop :=
  match ev with
  | Call (sock_recv k) => k = n
  | _ => True
  end.

Definition flag_false (w : world) : Prop := alive (rd w) = Some false.

(** The session is under way: the flag and both threads exist. *)
Definition started (w : world) : Prop :=
  alive (rd w) <> None /\ thread_read (rd w) <> None /\
  thread_poll (rd w) <> None.

Definition has_client (w : world) : Prop := client w <> None.

(** The operations of a Redirector other than [shortcircuit], each with the
    fuel of its loop. *)
Inductive operation :=
| op_statusline_poller (fuel : nat)
| op_reader (fuel : nat)
| op_write (data : bytes)
| op_writer (fuel : nat)
| op_stop.

Definition run_operation (o : operation) : M unit :=
  match o with
  | op_statusline_poller fuel => Redirector.statusline_poller fuel
  | op_reader fuel => Redirector.reader fuel
  | op_write data => Redirector.write data
  | op_writer fuel => Redirector.writer fuel
  | op_stop => Redirector.stop
  end.

(** Operations one after the other on the same Redirector, each against
    its own answers of the environment. *)
Fixpoint run_operations (ops : list (operation * list reply)) (w : world)
    : world :=
  match ops with
  | [] => w
  | (o, sc) :: rest =>
      run_operations rest (fin (run_operation o (set_script sc w)))
  end.

(* ------------------------------------------------------------------ *)
(** ** Sample states *)

(** A Redirector whose session has ended, and one in mid-session. *)
Definition stopped : redirector :=
  mkRedirector (Some false) false (Some Terminated) (Some Running) false.
Definition running : redirector :=
  mkRedirector (Some true) false (Some Running) (Some Running) false.

(** A state in mid-session: port open, DTR and RTS asserted, a client
    connected; [sc] is what the environment will answer. *)
Definition world_of (r : redirector) (sc : list reply) : world :=
  mkWorld (mkSerial "/dev/ttyUSB0" true true true [("baudrate", 9600)] [])
    (Some (mkSocket [] false true false [])) (Some ("127.0.0.1", 50000))
    r sc.

(** The reader's collaborator call raises an exception that is not a
    [socket.error]. *)
Definition escape_fails : list reply :=
  [ Num 2; Data ["a"%byte; "b"%byte]; Raise ValueError "protocol failure" ].

(** The same in the writer. *)
Definition filter_fails : list reply :=
  [ Data ["a"%byte; "b"%byte]; Raise ValueError "protocol failure" ].

(** The operator presses Ctrl-C while the writer is in [serial.write]. *)
Definition interrupted_write : list reply :=
  [ Data ["a"%byte]; Data ["a"%byte]; Raise KeyboardInterrupt EmptyString ].

(** The serial device goes away under the reader. *)
Definition device_lost : list reply :=
  [ Num 0; Raise SerialException "device reports readiness to read but returned no data" ].

(** Two clients in a row, both on the list; the first accept times out
    once, the device is not there at the first attempt to open it. *)
Definition two_sessions : list reply :=
  [ Raise socket_timeout "timed out"; Done;
    Conn "127.0.0.1" 50000; Data ["a"%byte; "b"%byte; "c"%byte];
    Done; Done;
    Raise SerialException "could not open port"; Done; Done;
    Done; Done; Done;
    Data ["b"%byte; "c"%byte]; Done;
    Data [];
    Done; Done; Done; Done; Done;
    Conn "localhost" 50001; Data ["x"%byte];
    Done; Done;
    Done;
    Done; Done; Done;
    Data [];
    Done; Done; Done; Done; Done ].

(** The events after the first one that satisfies [p]. *)
Fixpoint after_first (p : event -> bool) (l : list event) : list event :=
  match l with
  | [] => []
  | ev :: r => if p ev then r else after_first p r
  end.


(** The program started on [/dev/ttyUSB0]. *)
Definition started_on_usb0 (sc : list reply) : world :=
  startup "/dev/ttyUSB0" [("baudrate", 9600)] sc.

Definition two_sessions_run : result unit :=
  main_loop 0 3 3 (started_on_usb0 two_sessions).

(** A permitted client connects and sends a byte; the serial device is not
    there at first; by the time it is, the client has gone, and the first
    thing sent to it, the collaborator's opening negotiation, fails. *)
Definition client_gone : list reply :=
  [ Conn "127.0.0.1" 50000; Data ["a"%byte];
    Done; Done;
    Raise SerialException "could not open port"; Done; Done;
    Done; Done;
    Raise OSError "[Errno 32] Broken pipe" ].

Definition client_gone_run : result unit :=
  main_loop 0 3 2 (started_on_usb0 client_gone).

(** A session in which the client has the baud rate changed, sends a byte
    and closes; every call of the teardown returns. *)
Definition reconfigured_session : list reply :=
  [ Done; Done; Done;
    Data ["a"%byte]; Reconf [("baudrate", 115200)] ["a"%byte]; Done;
    Data [];
    Done; Done; Done; Done; Done ].

(* ------------------------------------------------------------------ *)
(** ** More on events and scripts *)

Definition is_sleep (seconds : Z) (ev : event) : bool :=
  match ev with
  | Call (time_sleep s) => s =? seconds
  | _ => false
  end.

(** The same answers [n] times over. *)
Fixpoint times (n : nat) (r : list reply) : list reply :=
  match n with
  | O => []
  | S k => (r ++ times k r)%list
  end.

(** An attempt to open the port fails and the pause after it passes. *)
Definition open_fails (msg : string) : list reply :=
  [ Raise SerialException msg; Done ].

(** [accept] times out and the pause after it passes. *)
Definition accept_times_out (msg : string) : list reply :=
  [ Raise socket_timeout msg; Done ].

(** The events the code of the reader itself can emit. *)
Definition reader_event (ev : event) : bool :=
  match ev with
  | Log "redirector" _ _ => true
  | SetAlive false => true
  | Call ser_in_waiting | Call (ser_read _) | Call (rfc_escape _)
  | Call (sock_sendall _) => true
  | LockAcquire | LockRelease => true
  | _ => false
  end.

(** Those of the writer, [stop()] and the sends the collaborator makes
    through [write] from inside [filter] included. *)
Definition writer_event (ev : event) : bool :=
  match ev with
  | Log "redirector" _ _ => true
  | SetAlive false => true
  | Call (sock_recv 1024) | Call (rfc_filter _) | Call (ser_write _) => true
  | LockAcquire | Call (sock_sendall _) | LockRelease => true
  | ThreadJoin _ => true
  | _ => false
  end.

(** Those of the status poller, the sends the collaborator makes through
    [write] from inside [check_modem_lines] included. *)
Definition poller_event (ev : event) : bool :=
  match ev with
  | Log "redirector" _ _ => true
  | Call (time_sleep 1) | Call rfc_check_modem_lines => true
  | LockAcquire | Call (sock_sendall _) | LockRelease => true
  | _ => false
  end.

(** Those of the wait for a client. *)
Definition wait_client_event (ev : event) : bool :=
  match ev with
  | Log "root" 20 _ => true
  | Call srv_accept | Call (sock_recv 1) | Call (time_sleep 1) => true
  | _ => false
  end.

(** The socket of a session: Nagle's algorithm off, non-blocking. *)
Definition session_socket (w : world) : Prop :=
  exists s, client w = Some s /\ nodelay s = true /\ blocking s = false.


(** One turn of the reader's loop as the environment sees it: [n] bytes
    are waiting and the device delivers [d]; when [d] is empty (the read
    timed out) that is all, otherwise the collaborator escapes what was
    read to [e] and [sendall] returns. *)
Definition reader_turn (c : nat * bytes * bytes) : list reply :=
  match snd (fst c) with
  | [] => [ Num (fst (fst c)); Data [] ]
  | _ :: _ => [ Num (fst (fst c)); Data (snd (fst c)); Data (snd c); Done ]
  end.

(** What the reader does in such a turn. *)
Definition reader_turn_events (c : nat * bytes * bytes) : list event :=
  match snd (fst c) with
  | [] =>
      [ Call ser_in_waiting;
        Call (ser_read
                (if Nat.eqb (fst (fst c)) 0 then 1%nat else fst (fst c))) ]
  | _ :: _ =>
      [ Call ser_in_waiting;
        Call (ser_read
                (if Nat.eqb (fst (fst c)) 0 then 1%nat else fst (fst c)));
        Call (rfc_escape
                (firstn
                   (if Nat.eqb (fst (fst c)) 0 then 1%nat else fst (fst c))
                   (snd (fst c))));
        LockAcquire; Call (sock_sendall (snd c)); LockRelease ]
  end.

(** What it puts on the socket. *)
Definition reader_turn_sent (c : nat * bytes * bytes) : bytes :=
  match snd (fst c) with
  | [] => []
  | _ :: _ => snd c
  end.

(** Where in a turn of the reader's loop a call raises: in [in_waiting],
    in [read] ([n] bytes were waiting), in the collaborator's [escape] (of
    what was read of the bytes [b :: d] the device had), or in the
    [sendall] of [write] (of the escaped bytes [esc]). *)
Inductive reader_point :=
| in_in_waiting
| in_read (n : nat)
| in_escape (n : nat) (b : byte) (d : bytes)
| in_sendall (n : nat) (b : byte) (d : bytes) (esc : bytes).

(** What the environment has answered in that turn before the call that
    raises. *)
Definition reader_before (p : reader_point) : list reply :=
  match p with
  | in_in_waiting => []
  | in_read n => [ Num n ]
  | in_escape n b d => [ Num n; Data (b :: d) ]
  | in_sendall n b d esc => [ Num n; Data (b :: d); Data esc ]
  end.

(** What the reader has done in that turn when the exception reaches its
    [except] clause. *)
Definition reader_before_events (p : reader_point) : list event :=
  match p with
  | in_in_waiting => [ Call ser_in_waiting ]
  | in_read n =>
      [ Call ser_in_waiting;
        Call (ser_read (if Nat.eqb n 0 then 1%nat else n)) ]
  | in_escape n b d =>
      [ Call ser_in_waiting;
        Call (ser_read (if Nat.eqb n 0 then 1%nat else n));
        Call (rfc_escape
                (firstn (if Nat.eqb n 0 then 1%nat else n) (b :: d))) ]
  | in_sendall n b d esc =>
      [ Call ser_in_waiting;
        Call (ser_read (if Nat.eqb n 0 then 1%nat else n));
        Call (rfc_escape
                (firstn (if Nat.eqb n 0 then 1%nat else n) (b :: d)));
        LockAcquire; Call (sock_sendall esc); LockRelease ]
  end.

(** The point is inside [write]: the lock and the socket are needed. *)
Definition reader_sends (p : reader_point) : bool :=
  match p with
  | in_sendall _ _ _ _ => true
  | _ => false
  end.

(** The same for the writer: the call that raises is [recv], the
    collaborator's [filter] (of what was received of the bytes [b :: d] the
    client sent), the [sendall] of an answer [a] the collaborator sends
    from inside [filter], or the [write] of the payload [p] to the serial
    port. *)
Inductive writer_point :=
| in_recv
| in_filter (b : byte) (d : bytes)
| in_answer (b : byte) (d : bytes) (a : bytes) (r : reply)
| in_serial_write (b : byte) (d : bytes) (p : bytes).

Definition writer_before (p : writer_point) : list reply :=
  match p with
  | in_recv => []
  | in_filter b d => [ Data (b :: d) ]
  | in_answer b d a r => [ Data (b :: d); Answer a r ]
  | in_serial_write b d p => [ Data (b :: d); Data p ]
  end.

Definition writer_before_events (p : writer_point) : list event :=
  match p with
  | in_recv => [ Call (sock_recv 1024) ]
  | in_filter b d =>
      [ Call (sock_recv 1024); Call (rfc_filter (firstn 1024 (b :: d))) ]
  | in_answer b d a r =>
      [ Call (sock_recv 1024); Call (rfc_filter (firstn 1024 (b :: d)));
        LockAcquire; Call (sock_sendall a); LockRelease ]
  | in_serial_write b d p =>
      [ Call (sock_recv 1024); Call (rfc_filter (firstn 1024 (b :: d)));
        Call (ser_write p) ]
  end.

Definition writer_sends (p : writer_point) : bool :=
  match p with
  | in_answer _ _ _ _ => true
  | _ => false
  end.

(** The client socket at that point: what [recv] did not return stays
    buffered. *)
Definition writer_socket_at (p : writer_point) (s : socket) : socket :=
  match p with
  | in_recv => s
  | in_filter b d | in_answer b d _ _ | in_serial_write b d _ =>
      with_rx (skipn 1024 (b :: d)) s
  end.

(** What one check of the modem lines comes to: they have not changed;
    they have, and the collaborator notifies the client, sending [a]
    through the Redirector; or the check fails with a [SerialException]. *)
Inductive poll :=
| Quiet
| Notified (a : bytes)
| Failed (msg : string).

(** One poll of the status poller as the environment sees it: the pause
    passes, then the check; the [sendall] of a notification returns. *)
Definition poll_turn (o : poll) : list reply :=
  match o with
  | Quiet => [ Done; Done ]
  | Notified a => [ Done; Answer a Done; Done ]
  | Failed msg => [ Done; Raise SerialException msg ]
  end.

(** What the poller, and the collaborator in its thread, do in such a
    poll. *)
Definition poll_turn_events (o : poll) : list event :=
  match o with
  | Quiet => [ Call (time_sleep 1); Call rfc_check_modem_lines ]
  | Notified a =>
      [ Call (time_sleep 1); Call rfc_check_modem_lines;
        LockAcquire; Call (sock_sendall a); LockRelease ]
  | Failed msg =>
      [ Call (time_sleep 1); Call rfc_check_modem_lines;
        Log "redirector" Logging.ERROR ("Error polling modem lines: " ++ msg) ]
  end.

(** What is put on the socket in it. *)
Definition poll_turn_sent (o : poll) : bytes :=
  match o with
  | Notified a => a
  | _ => []
  end.

Definition is_join (ev : event) : bool :=
  match ev with
  | ThreadJoin _ => true
  | _ => false
  end.

(* ------------------------------------------------------------------ *)
(** ** More on the write lock *)

(** The byte strings a thread has not finished writing, the one under way
    included. *)
Definition unfinished (a : WriteGuard.activity) : list bytes :=
  match a with
  | WriteGuard.Outside todo => todo
  | WriteGuard.Sending sent rest todo => (sent ++ rest)%list :: todo
  end.

(** What the holder of the lock has put on the wire in the [sendall] it is
    in. *)
Definition sent_so_far (st : WriteGuard.state) : bytes :=
  match WriteGuard.holder st with
  | Some t =>
      match nth_error (WriteGuard.threads st) t with
      | Some (WriteGuard.Sending sent _ _) => sent
      | _ => []
      end
  | None => []
  end.

(** No [sendall] fails. *)
Definition is_step (m : WriteGuard.move) : bool :=
  match m with
  | WriteGuard.Step _ => true
  | WriteGuard.Fail _ => false
  end.

(** Every thread has written all it had to. *)
Definition all_done (st : WriteGuard.state) : bool :=
  forallb (fun a => match a with
                    | WriteGuard.Outside [] => true
                    | _ => false
                    end) (WriteGuard.threads st).

(** The lock along a run of events: [Some held] says whether it is held
    after them, [None] that its discipline was broken, by a [sendall]
    without the lock, by taking the lock when it is held or by releasing it
    when it is free. *)
Fixpoint lock_after (held : bool) (l : list event) : option bool :=
  match l with
  | [] => Some held
  | LockAcquire :: r => if held then None else lock_after true r
  | LockRelease :: r => if held then lock_after false r else None
  | Call (sock_sendall _) :: r => if held then lock_after true r else None
  | _ :: r => lock_after held r
  end.

(** An event that neither sends nor touches the lock. *)
Definition lock_neutral (ev : event) : Prop :=
  match ev with
  | LockAcquire | LockRelease | Call (sock_sendall _) => False
  | _ => True
  end.

(** Every [sendall] of [m] is made holding the lock, and [m] has given the
    lock back when it is over, whether it returned or raised. *)
Definition sends_under_lock {A} (m : M A) : Prop :=
  forall w, exists h,
    lock_after false (evs (m w)) = Some h /\
    (out (m w) <> Blocked -> h = false).

(** The writes that are complete, in the order they went out, and those
    that are not, are together the writes that were asked for. *)
Definition conserved (all : list bytes) (st : WriteGuard.state) : Prop :=
  exists segs,
    Permutation (segs ++ flat_map unfinished (WriteGuard.threads st))%list all
    /\ WriteGuard.stream st = (List.concat segs ++ sent_so_far st)%list.

(* ================================================================== *)
(** * Properties *)

(* ------------------------------------------------------------------ *)
(** ** The verbosity flag *)

Module LoggingFacts.
Import Logging.

(** C9, as the specification words it, fails at count 0: the level both
    loggers get is [NOTSET], not [WARNING], so they fall back on the root
    logger's [INFO] and let informational messages through. *)
Lemma verbosity_zero_is_not_warnings_only :
  configure 0 = Some (mkConfig INFO NOTSET NOTSET) /\
  configured_level 0 <> Some WARNING /\
  enabled_for INFO NOTSET INFO = true.
Proof.
  repeat split. discriminate.
Qed.

(** C9 (amended): a count of 0 leaves both loggers at [NOTSET] (they then
    inherit the root logger's [INFO]), 1 gives [WARNING], 2 gives [INFO], 3
    or more gives [DEBUG], a count above 3 behaving as 3; the "rfc2217" and
    the "redirector" logger always get the same level, and the
    collaborator is handed a logger exactly for a count above 0. *)
Theorem verbosity_levels (v : Z) (Hv : 0 <= v) :
  configure v =
    Some (mkConfig INFO
            (if v =? 0 then NOTSET else if v =? 1 then WARNING
             else if v =? 2 then INFO else DEBUG)
            (if v =? 0 then NOTSET else if v =? 1 then WARNING
             else if v =? 2 then INFO else DEBUG)) /\
  configure v = configure (Z.min v 3) /\
  collaborator_debug v = (0 <? v) /\
  (v = 0 -> effective_level INFO NOTSET = INFO).
Proof.
  assert (Hcases : v = 0 \/ v = 1 \/ v = 2 \/ v = 3 \/ 3 < v) by lia.
  destruct Hcases as [-> | [-> | [-> | [-> | Hbig]]]];
    try (repeat split; reflexivity).
  assert (Hclamp : clamp_verbosity v = 3).
  { unfold clamp_verbosity. destruct (v >? 3) eqn:E; [reflexivity | lia]. }
  assert (Hmin : Z.min v 3 = 3) by lia.
  unfold configure, configured_level, collaborator_debug.
  rewrite Hmin, Hclamp.
  destruct (v =? 0) eqn:E0; [lia |].
  destruct (v =? 1) eqn:E1; [lia |].
  destruct (v =? 2) eqn:E2; [lia |].
  repeat split.
  symmetry. apply Z.ltb_lt. lia.
Qed.

Lemma verbosity_levels_witness :
  0 <= 5 /\ configure 5 = Some (mkConfig INFO DEBUG DEBUG).
Proof.
  split; [lia |].
  exact (proj1 (verbosity_levels (v := 5) ltac:(lia))).
Defined.

End LoggingFacts.

(* ------------------------------------------------------------------ *)
(** ** Facts about the primitives *)

Lemma absorb_spec (w : world) :
  absorb w = mkRes (Ret tt)
    (set_script (drop_cleared (script w))
      (if starts_cleared (script w)
       then set_rd (with_alive (Some false) (rd w)) w else w)) [].
Proof. reflexivity. Qed.

Lemma drop_cleared_idem (sc : list reply) :
  drop_cleared (drop_cleared sc) = drop_cleared sc.
Proof. induction sc as [|[] t IH]; simpl; auto. Qed.

Lemma starts_cleared_drop (sc : list reply) :
  starts_cleared (drop_cleared sc) = false.
Proof. induction sc as [|[] t IH]; simpl; auto. Qed.

Lemma drop_cleared_id (sc : list reply) :
  starts_cleared sc = false -> drop_cleared sc = sc.
Proof. destruct sc as [|[] t]; simpl; congruence. Qed.

Lemma read_alive_quiet w b :
  starts_cleared (script w) = false -> alive (rd w) = Some b ->
  read_alive w = mkRes (Ret b) w [].
Proof.
  destruct w as [sr cl a [al lk tr tp dbg] sc]. cbn [script alive rd].
  intros Hsc ->. unfold read_alive, bind. rewrite absorb_spec.
  cbn [script]. rewrite Hsc, (drop_cleared_id _ Hsc). reflexivity.
Qed.

(* ------------------------------------------------------------------ *)
(** ** stop *)

Module StopFacts.
Import Redirector.

(** C6: [stop()] on a Redirector whose flag is false returns at once: no
    join, no exception, no object changed (all it does is log the debug
    line "Stopping").  On a Redirector whose flag is true it sets the flag
    false and joins the reader thread and the poller thread, which have
    terminated when it returns.  Hence a second [stop()] right after a
    first one changes nothing: [stop(); stop()] ends in the state and with
    the outcome [stop()] ends in. *)
Theorem stop_idempotent (w : world) :
  (alive (rd w) = Some false ->
     out (stop w) = Ret tt /\
     evs (stop w) = [Log "redirector" Logging.DEBUG "Stopping"] /\
     rd (fin (stop w)) = rd w /\ ser (fin (stop w)) = ser w /\
     client (fin (stop w)) = client w /\ addr (fin (stop w)) = addr w) /\
  (alive (rd w) = Some true -> starts_cleared (script w) = false ->
   thread_read (rd w) <> None -> thread_poll (rd w) <> None ->
     out (stop w) = Ret tt /\
     evs (stop w) = [Log "redirector" Logging.DEBUG "Stopping";
                     SetAlive false;
                     ThreadJoin thread_read_id; ThreadJoin thread_poll_id] /\
     alive (rd (fin (stop w))) = Some false /\
     thread_read (rd (fin (stop w))) = Some Terminated /\
     thread_poll (rd (fin (stop w))) = Some Terminated /\
     ser (fin (stop w)) = ser w /\ client (fin (stop w)) = client w) /\
  (fin ((stop ;; stop) w) = fin (stop w) /\
   out ((stop ;; stop) w) = out (stop w)).
Proof.
  split; [| split].
  - destruct w as [s c a [al lk tr tp dbg] sc]. simpl. intros ->.
    unfold stop, read_alive, log, bind, emit, get. rewrite absorb_spec.
    cbn. destruct (starts_cleared sc); cbn; repeat split.
  - destruct w as [s c a [al lk tr tp dbg] sc]. simpl. intros -> Hsc Hr Hp.
    destruct tr as [tr|]; [| congruence].
    destruct tp as [tp|]; [| congruence].
    unfold stop, read_alive, log, bind, emit, get. rewrite absorb_spec.
    cbn. rewrite Hsc. cbn. repeat split.
  - assert (Hfix : out (stop w) = Ret tt ->
              fin (stop (fin (stop w))) = fin (stop w) /\
              out (stop (fin (stop w))) = Ret tt).
    { destruct w as [s c a [al lk tr tp dbg] sc].
      unfold stop, read_alive, log, bind, emit, get. rewrite !absorb_spec.
      cbn. destruct (starts_cleared sc) eqn:Hsc; cbn.
      - rewrite starts_cleared_drop, drop_cleared_idem. cbn. auto.
      - destruct al as [[|]|]; cbn.
        + destruct tr; cbn; [| discriminate].
          destruct tp; cbn; [| discriminate].
          rewrite starts_cleared_drop, drop_cleared_idem. cbn. auto.
        + rewrite starts_cleared_drop, drop_cleared_idem. cbn. auto.
        + discriminate. }
    unfold bind.
    destruct (stop w) as [[[] | e msg |] w1 e1]; cbn [out fin] in *; auto.
    destruct (Hfix eq_refl) as [Hf Ho].
    destruct (stop w1) as [o2 w2 e2]. cbn [out fin] in *. subst. auto.
Qed.

Lemma stop_idempotent_witness :
  alive (rd (world_of stopped [])) = Some false /\
  out (stop (world_of stopped [])) = Ret tt /\
  rd (fin (stop (world_of stopped []))) = stopped /\
  alive (rd (world_of running [])) = Some true /\
  alive (rd (fin (stop (world_of running [])))) = Some false /\
  thread_read (rd (fin (stop (world_of running [])))) = Some Terminated.
Proof.
  destruct (stop_idempotent (world_of stopped [])) as [H1 _].
  destruct (stop_idempotent (world_of running [])) as [_ [H2 _]].
  specialize (H1 eq_refl).
  specialize (H2 eq_refl eq_refl ltac:(discriminate) ltac:(discriminate)).
  repeat split; solve [ apply H1 | apply H2 ].
Defined.

End StopFacts.

(* ------------------------------------------------------------------ *)
(** ** Reasoning about monadic code *)

Local Open Scope list_scope.

Lemma bind_ret_eq {A B} (m : M A) (k : A -> M B) w a w1 e1 :
  m w = mkRes (Ret a) w1 e1 ->
  bind m k w = mkRes (out (k a w1)) (fin (k a w1)) (e1 ++ evs (k a w1)).
Proof. unfold bind. intros ->. destruct (k a w1); reflexivity. Qed.

Lemma bind_exc_eq {A B} (m : M A) (k : A -> M B) w e msg w1 e1 :
  m w = mkRes (Exc e msg) w1 e1 ->
  bind m k w = mkRes (Exc e msg) w1 e1.
Proof. unfold bind. intros ->. reflexivity. Qed.

Lemma bind_blocked_eq {A B} (m : M A) (k : A -> M B) w w1 e1 :
  m w = mkRes Blocked w1 e1 ->
  bind m k w = mkRes Blocked w1 e1.
Proof. unfold bind. intros ->. reflexivity. Qed.

Lemma result_eta {A} (r : result A) : r = mkRes (out r) (fin r) (evs r).
Proof. destruct r; reflexivity. Qed.

(** If [m ;; k] returns, [m] returned and [k] returned after it. *)
Lemma bind_ret_inv {A B} (m : M A) (k : A -> M B) w b :
  out (bind m k w) = Ret b ->
  exists a, out (m w) = Ret a /\
            out (k a (fin (m w))) = Ret b /\
            fin (bind m k w) = fin (k a (fin (m w))) /\
            evs (bind m k w) = evs (m w) ++ evs (k a (fin (m w))).
Proof.
  unfold bind. destruct (m w) as [[a | e msg |] w1 e1]; cbn; try discriminate.
  destruct (k a w1) as [o w2 e2] eqn:Hk; cbn. intros ->.
  exists a. rewrite Hk. cbn. auto.
Qed.

(** If [m ;; k] raises, either [m] raised, or [m] returned and [k] raised. *)
Lemma bind_exc_inv {A B} (m : M A) (k : A -> M B) w e msg :
  out (bind m k w) = Exc e msg ->
  (out (m w) = Exc e msg /\ fin (bind m k w) = fin (m w) /\
   evs (bind m k w) = evs (m w)) \/
  (exists a, out (m w) = Ret a /\
             out (k a (fin (m w))) = Exc e msg /\
             fin (bind m k w) = fin (k a (fin (m w))) /\
             evs (bind m k w) = evs (m w) ++ evs (k a (fin (m w)))).
Proof.
  unfold bind. destruct (m w) as [[a | e' msg' |] w1 e1]; cbn;
    try discriminate.
  - destruct (k a w1) as [o w2 e2] eqn:Hk; cbn. intros ->.
    right. exists a. rewrite Hk. cbn. auto.
  - intros H. inversion H. subst. left. auto.
Qed.

(** *** What a piece of code emits *)

Section Emits.
Variable P : event -> Prop.

Lemma emits_ret {A} (a : A) : emits P (ret a).
Proof. intro w. constructor. Qed.
Lemma emits_raise {A} e msg : emits P (@raise A e msg).
Proof. intro w. constructor. Qed.
Lemma emits_blocked {A} : emits P (@blocked A).
Proof. intro w. constructor. Qed.
Lemma emits_get : emits P get.
Proof. intro w. constructor. Qed.
Lemma emits_modify f : emits P (modify f).
Proof. intro w. constructor. Qed.
Lemma emits_emit ev : P ev -> emits P (emit ev).
Proof. intros H w. cbn. auto. Qed.

Lemma emits_bind {A B} (m : M A) (k : A -> M B) :
  emits P m -> (forall a, emits P (k a)) -> emits P (bind m k).
Proof.
  intros Hm Hk w. unfold bind. specialize (Hm w).
  destruct (m w) as [[a | e msg |] w1 e1]; cbn in *; auto.
  specialize (Hk a w1). destruct (k a w1) as [o w2 e2]; cbn in *.
  apply Forall_app; auto.
Qed.

Lemma emits_try_except {A} (m : M A) h :
  emits P m -> (forall e msg k, h e msg = Some k -> emits P k) ->
  emits P (try_except m h).
Proof.
  intros Hm Hh w. unfold try_except. specialize (Hm w).
  destruct (m w) as [[a | e msg |] w1 e1]; cbn in *; auto.
  destruct (h e msg) as [k |] eqn:Hk; cbn; auto.
  specialize (Hh e msg k Hk w1). destruct (k w1) as [o w2 e2]; cbn in *.
  apply Forall_app; auto.
Qed.

Lemma emits_try_finally {A} (m : M A) f :
  emits P m -> emits P f -> emits P (try_finally m f).
Proof.
  intros Hm Hf w. unfold try_finally. specialize (Hm w).
  destruct (m w) as [[a | e msg |] w1 e1]; cbn in *; auto;
    specialize (Hf w1); destruct (f w1) as [[[] | e' msg' |] w2 e2];
    cbn in *; apply Forall_app; auto.
Qed.

Lemma emits_absorb : emits P absorb.
Proof. intro w. constructor. Qed.

Lemma emits_ask : emits P ask.
Proof.
  intro w. unfold ask, bind. rewrite absorb_spec.
  match goal with |- context [script ?x] => destruct (script x) as [|[] t] end;
    constructor.
Qed.

Lemma emits_answers conn_write r :
  (forall a, emits P (conn_write a)) -> emits P (answers conn_write r).
Proof.
  intros H. induction r; cbn [answers];
    try apply emits_ret; try apply emits_raise.
  apply emits_bind; [apply H | intros _; exact IHr].
Qed.

End Emits.

(** *** What a piece of code leaves true *)

Section Preserves.
Variable I : world -> Prop.

Lemma preserves_ret {A} (a : A) : preserves I (ret a).
Proof. intros w H. exact H. Qed.
Lemma preserves_raise {A} e msg : preserves I (@raise A e msg).
Proof. intros w H. exact H. Qed.
Lemma preserves_blocked {A} : preserves I (@blocked A).
Proof. intros w H. exact H. Qed.
Lemma preserves_get : preserves I get.
Proof. intros w H. exact H. Qed.
Lemma preserves_emit ev : preserves I (emit ev).
Proof. intros w H. exact H. Qed.
Lemma preserves_modify f : (forall w, I w -> I (f w)) -> preserves I (modify f).
Proof. intros Hf w H. cbn. auto. Qed.

Lemma preserves_bind {A B} (m : M A) (k : A -> M B) :
  preserves I m -> (forall a, preserves I (k a)) -> preserves I (bind m k).
Proof.
  intros Hm Hk w H. unfold bind. specialize (Hm w H).
  destruct (m w) as [[a | e msg |] w1 e1]; cbn in *; auto.
  specialize (Hk a w1 Hm). destruct (k a w1) as [o w2 e2]; cbn in *. auto.
Qed.

Lemma preserves_try_except {A} (m : M A) h :
  preserves I m -> (forall e msg k, h e msg = Some k -> preserves I k) ->
  preserves I (try_except m h).
Proof.
  intros Hm Hh w H. unfold try_except. specialize (Hm w H).
  destruct (m w) as [[a | e msg |] w1 e1]; cbn in *; auto.
  destruct (h e msg) as [k |] eqn:Hk; cbn; auto.
  specialize (Hh e msg k Hk w1 Hm). destruct (k w1) as [o w2 e2]; cbn in *.
  auto.
Qed.

Lemma preserves_try_finally {A} (m : M A) f :
  preserves I m -> preserves I f -> preserves I (try_finally m f).
Proof.
  intros Hm Hf w H. unfold try_finally. specialize (Hm w H).
  destruct (m w) as [[a | e msg |] w1 e1]; cbn in *; auto;
    specialize (Hf w1 Hm); destruct (f w1) as [[[] | e' msg' |] w2 e2];
    cbn in *; auto.
Qed.

Lemma preserves_absorb :
  (forall w sc, I w -> I (set_script sc w)) ->
  (forall w, I w -> I (set_rd (with_alive (Some false) (rd w)) w)) ->
  preserves I absorb.
Proof.
  intros Hs Ha w H. rewrite absorb_spec. cbn.
  apply Hs. destruct (starts_cleared (script w)); auto.
Qed.

Lemma preserves_ask :
  (forall w sc, I w -> I (set_script sc w)) ->
  (forall w, I w -> I (set_rd (with_alive (Some false) (rd w)) w)) ->
  preserves I ask.
Proof.
  intros Hs Ha w H. unfold ask, bind.
  pose proof (preserves_absorb Hs Ha H) as H1.
  destruct (absorb w) as [[[] | e msg |] w1 e1] eqn:Hab;
    rewrite absorb_spec in Hab; inversion Hab; subst; clear Hab.
  cbn [fin] in H1.
  match goal with |- context [script ?x] =>
    destruct (script x) as [|[] t] end; cbn; auto.
Qed.

Lemma preserves_answers conn_write r :
  (forall a, preserves I (conn_write a)) ->
  preserves I (answers conn_write r).
Proof.
  intros H. induction r; cbn [answers];
    try apply preserves_ret; try apply preserves_raise.
  apply preserves_bind; [apply H | intros _; exact IHr].
Qed.

End Preserves.

(** *** What a piece of code lets escape *)

Section Escapes.
Variable Q : pyclass -> Prop.

Lemma escapes_ret {A} (a : A) : escapes Q (ret a).
Proof. intros w e msg H. discriminate. Qed.
Lemma escapes_blocked {A} : escapes Q (@blocked A).
Proof. intros w e msg H. discriminate. Qed.
Lemma escapes_get : escapes Q get.
Proof. intros w e msg H. discriminate. Qed.
Lemma escapes_emit ev : escapes Q (emit ev).
Proof. intros w e msg H. discriminate. Qed.
Lemma escapes_modify f : escapes Q (modify f).
Proof. intros w e msg H. discriminate. Qed.
Lemma escapes_absorb : escapes Q absorb.
Proof. intros w e msg H. discriminate. Qed.
Lemma escapes_raise {A} e msg : Q e -> escapes Q (@raise A e msg).
Proof. intros H w e' msg' H'. inversion H'. subst. exact H. Qed.

Lemma escapes_bind {A B} (m : M A) (k : A -> M B) :
  escapes Q m -> (forall a, escapes Q (k a)) -> escapes Q (bind m k).
Proof.
  intros Hm Hk w e msg H. apply bind_exc_inv in H.
  destruct H as [[H _] | [a [_ [H _]]]].
  - exact (Hm _ _ _ H).
  - exact (Hk _ _ _ _ H).
Qed.

(** An [except] clause that catches everything outside [Q] lets nothing
    else out, whatever the [try] block does. *)
Lemma escapes_try_except {A} (m : M A) h :
  (forall e msg, h e msg = None -> Q e) ->
  (forall e msg k, h e msg = Some k -> escapes Q k) ->
  escapes Q (try_except m h).
Proof.
  intros Hn Hs w e msg. unfold try_except.
  destruct (m w) as [[a | e' msg' |] w1 e1]; cbn; try discriminate.
  destruct (h e' msg') as [k |] eqn:Hk; cbn.
  - specialize (Hs _ _ _ Hk w1). destruct (k w1) as [o w2 e2]; cbn in *.
    intros ->. eapply Hs. reflexivity.
  - intros H. inversion H. subst. eapply Hn. exact Hk.
Qed.

Lemma escapes_try_finally {A} (m : M A) f :
  escapes Q m -> escapes Q f -> escapes Q (try_finally m f).
Proof.
  intros Hm Hf w e msg. unfold try_finally. specialize (Hm w).
  destruct (m w) as [[a | e' msg' |] w1 e1]; cbn in *; try discriminate;
    specialize (Hf w1); destruct (f w1) as [[[] | e2 msg2 |] w2 ev2];
    cbn in *; try discriminate; intros H; inversion H; subst; eauto.
Qed.

End Escapes.

(** *** Events of composed code *)

Lemma bind_evs {A B} (m : M A) (k : A -> M B) w :
  evs (bind m k w) =
    evs (m w) ++ match out (m w) with
                 | Ret a => evs (k a (fin (m w)))
                 | _ => []
                 end.
Proof.
  unfold bind. destruct (m w) as [[a | e msg |] w1 e1]; cbn;
    try (rewrite app_nil_r; reflexivity).
  destruct (k a w1); reflexivity.
Qed.

Lemma try_finally_evs {A} (m : M A) f w :
  evs (try_finally m f w) =
    evs (m w) ++ match out (m w) with
                 | Blocked => []
                 | _ => evs (f (fin (m w)))
                 end.
Proof.
  unfold try_finally. destruct (m w) as [[a | e msg |] w1 e1]; cbn;
    try (rewrite app_nil_r; reflexivity);
    destruct (f w1) as [[[] | e' msg' |] w2 e2]; reflexivity.
Qed.

Lemma count_app p (l1 l2 : list event) :
  count p (l1 ++ l2) = (count p l1 + count p l2)%nat.
Proof. unfold count. rewrite filter_app, length_app. reflexivity. Qed.

Lemma count_none p (l : list event) :
  Forall (fun ev => p ev = false) l -> count p l = 0%nat.
Proof.
  unfold count. induction 1 as [| ev l Hev _ IH]; cbn; [reflexivity |].
  rewrite Hev. exact IH.
Qed.

(** *** The first events of composed code *)

Lemma bind_prefix {A B} (m : M A) (k : A -> M B) w a w1 e1 l :
  m w = mkRes (Ret a) w1 e1 ->
  firstn (List.length e1) l = e1 ->
  (exists tail, evs (k a w1) = skipn (List.length e1) l ++ tail) ->
  exists tail, evs (bind m k w) = l ++ tail.
Proof.
  intros Hm Hl [tail Hk]. erewrite bind_ret_eq by exact Hm. cbn [evs].
  rewrite Hk. exists tail. rewrite app_assoc. f_equal.
  rewrite <- Hl at 1. apply firstn_skipn.
Qed.

Lemma bind_prefix_left {A B} (m : M A) (k : A -> M B) w l :
  (exists tail, evs (m w) = l ++ tail) ->
  exists tail, evs (bind m k w) = l ++ tail.
Proof.
  intros [tail H]. rewrite bind_evs, H, <- app_assoc. eexists. reflexivity.
Qed.

Lemma try_except_prefix {A} (m : M A) h w l :
  (exists tail, evs (m w) = l ++ tail) ->
  exists tail, evs (try_except m h w) = l ++ tail.
Proof.
  intros [tail H]. unfold try_except.
  destruct (m w) as [[a | e msg |] w1 e1]; cbn in *; subst;
    try (eexists; reflexivity).
  destruct (h e msg) as [k |]; [| eexists; reflexivity].
  destruct (k w1). cbn. rewrite <- app_assoc. eexists. reflexivity.
Qed.

Lemma try_finally_prefix {A} (m : M A) f w l :
  (exists tail, evs (m w) = l ++ tail) ->
  exists tail, evs (try_finally m f w) = l ++ tail.
Proof.
  intros [tail H]. rewrite try_finally_evs, H, <- app_assoc.
  eexists. reflexivity.
Qed.

(** *** Walking through the code *)

Create HintDb crawl.

Ltac unfold_prims :=
  unfold call_unit, call_bytes, do_call, log, sleep,
    serial_open, serial_close, serial_set_dtr, serial_set_rts,
    serial_get_settings, serial_apply_settings, serial_in_waiting,
    serial_read, serial_write, on_ser,
    the_socket, on_socket, socket_recv, socket_sendall, socket_close,
    socket_setsockopt_nodelay, socket_setblocking, server_accept,
    rfc2217_escape, rfc2217_filter, rfc2217_check_modem_lines,
    rfc2217_PortManager, Redirector.write,
    on_rd, read_alive, set_alive, thread_start, thread_join,
    lock_acquire, lock_release, the_addr, the_ser.

(** Take apart the equation that says which [except] clause applies. *)
Ltac handler_cases H :=
  cbv beta in H;
  repeat match type of H with
         | (if ?c then _ else _) = Some _ => destruct c
         end;
  first [ discriminate H | inversion H; subst; clear H ].

Ltac emits_step :=
  match goal with
  | |- emits _ _ => solve [auto with crawl nocore]
  | |- emits _ (bind _ _) => apply emits_bind; [| intro]
  | |- emits _ (try_except _ _) =>
      let H := fresh "Hh" in
      apply emits_try_except; [| intros ? ? ? H; handler_cases H]
  | |- emits _ (try_finally _ _) => apply emits_try_finally
  | |- emits _ (ret _) => apply emits_ret
  | |- emits _ (raise _ _) => apply emits_raise
  | |- emits _ blocked => apply emits_blocked
  | |- emits _ get => apply emits_get
  | |- emits _ (modify _) => apply emits_modify
  | |- emits _ absorb => apply emits_absorb
  | |- emits _ ask => apply emits_ask
  | |- emits _ (answers _ _) => apply emits_answers; intro
  | |- emits _ (emit _) => apply emits_emit; first [reflexivity | exact I]
  | |- emits _ (match ?x with _ => _ end) => destruct x
  | |- emits _ _ => progress unfold_prims
  end.
Ltac emits_crawl := repeat emits_step.

Ltac preserves_step side :=
  match goal with
  | |- preserves _ _ => solve [auto with crawl nocore]
  | |- preserves _ (bind _ _) => apply preserves_bind; [| intro]
  | |- preserves _ (try_except _ _) =>
      let H := fresh "Hh" in
      apply preserves_try_except; [| intros ? ? ? H; handler_cases H]
  | |- preserves _ (try_finally _ _) => apply preserves_try_finally
  | |- preserves _ (ret _) => apply preserves_ret
  | |- preserves _ (raise _ _) => apply preserves_raise
  | |- preserves _ blocked => apply preserves_blocked
  | |- preserves _ get => apply preserves_get
  | |- preserves _ (emit _) => apply preserves_emit
  | |- preserves _ (modify _) => apply preserves_modify; solve [side]
  | |- preserves _ absorb => apply preserves_absorb; solve [side]
  | |- preserves _ ask => apply preserves_ask; solve [side]
  | |- preserves _ (answers _ _) => apply preserves_answers; intro
  | |- preserves _ (match ?x with _ => _ end) => destruct x
  | |- preserves _ _ => progress unfold_prims
  end.
Ltac preserves_crawl side := repeat (preserves_step side).

Ltac escapes_step :=
  match goal with
  | |- escapes _ _ => solve [auto with crawl nocore]
  | |- escapes _ (bind _ _) => apply escapes_bind; [| intro]
  | |- escapes _ (try_except _ _) =>
      let H := fresh "Hh" in
      apply escapes_try_except;
        [ intros ? ? H; cbv beta in H;
          repeat match type of H with
                 | (if ?c then _ else _) = None => destruct c eqn:?
                 end; try discriminate H
        | intros ? ? ? H; handler_cases H ]
  | |- escapes _ (try_finally _ _) => apply escapes_try_finally
  | |- escapes _ (ret _) => apply escapes_ret
  | |- escapes _ blocked => apply escapes_blocked
  | |- escapes _ get => apply escapes_get
  | |- escapes _ (emit _) => apply escapes_emit
  | |- escapes _ (modify _) => apply escapes_modify
  | |- escapes _ absorb => apply escapes_absorb
  | |- escapes _ (raise _ _) => apply escapes_raise; reflexivity
  | |- escapes _ (match ?x with _ => _ end) => destruct x
  | |- escapes _ _ => progress unfold_prims
  end.
Ltac escapes_crawl := repeat escapes_step.

(** One statement that returns, in a run whose first events are known. *)
Ltac step_with tac :=
  eapply bind_prefix;
    [ tac; reflexivity | reflexivity | cbn [skipn List.length] ].

(** Run the code as far as the state at hand determines it. *)
Ltac run :=
  cbv beta iota zeta delta
    [bind try_except try_finally ret raise blocked get modify emit ask absorb
     do_call call_unit call_bytes log sleep
     serial_open serial_close serial_set_dtr serial_set_rts
     serial_get_settings serial_apply_settings serial_in_waiting
     serial_read serial_write on_ser
     the_socket on_socket socket_recv socket_sendall socket_close
     socket_setsockopt_nodelay socket_setblocking server_accept
     rfc2217_escape rfc2217_filter rfc2217_check_modem_lines
     rfc2217_PortManager answers Redirector.write
     on_rd read_alive set_alive thread_start thread_join
     lock_acquire lock_release the_addr the_ser
     set_ser set_client set_addr set_rd set_script
     with_alive with_lock with_thread thread_of
     with_is_open with_dtr with_rts with_cfg with_wire
     with_rx with_closed with_nodelay with_blocking with_tx
     ser client addr rd script out fin evs
     alive write_lock thread_read thread_poll rfc_debug
     ser_name is_open dtr rts cfg wire rx sock_closed nodelay blocking tx
     drop_cleared starts_cleared option_map app].

(* ------------------------------------------------------------------ *)
(** ** The activities of a Redirector *)

Module RedirectorFacts.
Import Redirector.

(** *** No [socket.error] leaves the reader or the writer *)

Lemma stop_escapes : escapes not_socket_error stop.
Proof. unfold stop. escapes_crawl. Qed.

Lemma reader_loop_escapes fuel : escapes not_socket_error (reader_loop fuel).
Proof.
  induction fuel as [|fuel IH]; cbn [reader_loop]; escapes_crawl; assumption.
Qed.

Lemma reader_escapes fuel : escapes not_socket_error (reader fuel).
Proof.
  pose proof (reader_loop_escapes fuel). unfold reader. escapes_crawl.
Qed.

Lemma writer_loop_escapes fuel : escapes not_socket_error (writer_loop fuel).
Proof.
  induction fuel as [|fuel IH]; cbn [writer_loop]; escapes_crawl; assumption.
Qed.

Lemma writer_escapes fuel : escapes not_socket_error (writer fuel).
Proof.
  pose proof (writer_loop_escapes fuel). pose proof stop_escapes.
  unfold writer. escapes_crawl.
Qed.

(** *** Only [shortcircuit] sets the flag true *)

Lemma stop_never_sets_true : emits never_sets_alive_true stop.
Proof. unfold stop. emits_crawl. Qed.

Lemma write_never_sets_true d : emits never_sets_alive_true (write d).
Proof. unfold write. emits_crawl. Qed.

Lemma reader_never_sets_true fuel : emits never_sets_alive_true (reader fuel).
Proof.
  assert (H : emits never_sets_alive_true (reader_loop fuel)).
  { pose proof write_never_sets_true.
    induction fuel as [|fuel IH]; cbn [reader_loop]; emits_crawl. }
  unfold reader. emits_crawl.
Qed.

Lemma writer_loop_never_sets_true fuel :
  emits never_sets_alive_true (writer_loop fuel).
Proof. induction fuel as [|fuel IH]; cbn [writer_loop]; emits_crawl. Qed.

Lemma writer_never_sets_true fuel : emits never_sets_alive_true (writer fuel).
Proof.
  pose proof (writer_loop_never_sets_true fuel).
  pose proof stop_never_sets_true.
  unfold writer. emits_crawl.
Qed.

Lemma statusline_poller_never_sets_true fuel :
  emits never_sets_alive_true (statusline_poller fuel).
Proof.
  assert (H : emits never_sets_alive_true (statusline_poller_loop fuel)).
  { induction fuel as [|fuel IH]; cbn [statusline_poller_loop]; emits_crawl. }
  unfold statusline_poller. emits_crawl.
Qed.

Ltac flag_side := unfold flag_false; intros; cbn; auto.

Lemma stop_keeps_false : preserves flag_false stop.
Proof. unfold stop. preserves_crawl flag_side. Qed.

Lemma write_keeps_false d : preserves flag_false (write d).
Proof. unfold write. preserves_crawl flag_side. Qed.

Lemma reader_keeps_false fuel : preserves flag_false (reader fuel).
Proof.
  assert (H : preserves flag_false (reader_loop fuel)).
  { pose proof write_keeps_false.
    induction fuel as [|fuel IH]; cbn [reader_loop];
      preserves_crawl flag_side. }
  unfold reader. preserves_crawl flag_side.
Qed.

Lemma writer_loop_keeps_false fuel : preserves flag_false (writer_loop fuel).
Proof.
  induction fuel as [|fuel IH]; cbn [writer_loop]; preserves_crawl flag_side.
Qed.

Lemma writer_keeps_false fuel : preserves flag_false (writer fuel).
Proof.
  pose proof (writer_loop_keeps_false fuel). pose proof stop_keeps_false.
  unfold writer. preserves_crawl flag_side.
Qed.

Lemma statusline_poller_keeps_false fuel :
  preserves flag_false (statusline_poller fuel).
Proof.
  assert (H : preserves flag_false (statusline_poller_loop fuel)).
  { induction fuel as [|fuel IH]; cbn [statusline_poller_loop];
      preserves_crawl flag_side. }
  unfold statusline_poller. preserves_crawl flag_side.
Qed.

(** *** How [stop], the reader and the writer end *)

Lemma stop_returns_false w :
  out (stop w) = Ret tt -> alive (rd (fin (stop w))) = Some false.
Proof.
  destruct w as [s c a [al lk tr tp dbg] sc]. unfold stop. run.
  destruct sc as [|[] t]; destruct al as [[|]|]; destruct tr; destruct tp;
    cbn; intros; congruence.
Qed.

Lemma reader_returns_false fuel w :
  out (reader fuel w) = Ret tt -> alive (rd (fin (reader fuel w))) = Some false.
Proof.
  unfold reader. run.
  destruct (reader_loop fuel w) as [[[] | e msg |] w1 e1]; cbn;
    intros; congruence.
Qed.

Lemma writer_returns_false fuel w :
  out (writer fuel w) = Ret tt -> alive (rd (fin (writer fuel w))) = Some false.
Proof.
  unfold writer. intros H.
  apply bind_ret_inv in H. destruct H as [[] [_ [H1 [Hf _]]]].
  apply bind_ret_inv in H1. destruct H1 as [[] [_ [H2 [Hf2 _]]]].
  rewrite Hf, Hf2. apply stop_returns_false. exact H2.
Qed.

(** C4, as the specification words it, fails: an exception that is not a
    [socket.error], here one raised by the collaborator's transform, leaves
    the reader (whose flag then stays true) and leaves the writer, and with
    it [shortcircuit], for the supervisor to deal with. *)
Lemma failure_leaves_the_activity :
  out (reader 3 (world_of running escape_fails))
    = Exc ValueError "protocol failure" /\
  alive (rd (fin (reader 3 (world_of running escape_fails)))) = Some true /\
  out (writer 3 (world_of running filter_fails))
    = Exc ValueError "protocol failure" /\
  out (shortcircuit 3 (world_of running filter_fails))
    = Exc ValueError "protocol failure".
Proof. vm_compute. repeat split. Qed.

(** *** An exception in the loop of the reader or of the writer *)

Lemma blocking_is_socket_error e :
  isinstance e BlockingIOError = true -> isinstance e socket_error = true.
Proof. destruct e; cbn; congruence. Qed.

(** [stop()] once the session is under way. *)
Lemma stop_ends w :
  alive (rd w) <> None -> thread_read (rd w) <> None ->
  thread_poll (rd w) <> None ->
  out (stop w) = Ret tt /\ alive (rd (fin (stop w))) = Some false.
Proof.
  destruct w as [s c a [al lk tr tp dbg] sc].
  cbn [alive thread_read thread_poll rd]. intros Ha Hr Hp.
  destruct al as [b |]; [| congruence].
  destruct tr; [| congruence]. destruct tp; [| congruence].
  unfold stop, read_alive, log, bind, emit, get. rewrite absorb_spec.
  cbn. destruct (starts_cleared sc); destruct b; cbn; split; reflexivity.
Qed.

Lemma writer_after_loop fuel w w1 e1 :
  writer_loop fuel w = mkRes (Ret tt) w1 e1 ->
  writer fuel w =
    mkRes (out (stop w1)) (fin (stop w1))
      (e1 ++ Log "redirector" Logging.DEBUG "Writer thread terminated"
          :: evs (stop w1)).
Proof.
  intros H. unfold writer. erewrite bind_ret_eq by exact H. run.
  destruct (stop w1); reflexivity.
Qed.

(** A turn of the reader's loop in which a call raises. *)
Lemma reader_loop_fails fuel sr c a lk tr tp dbg p e msg sc :
  (reader_sends p = true -> lk = false /\ c <> None) ->
  reader_loop (S fuel)
    (mkWorld sr c a (mkRedirector (Some true) lk tr tp dbg)
       (reader_before p ++ Raise e msg :: sc)) =
    if isinstance e socket_error
    then mkRes (Ret tt)
           (mkWorld sr c a (mkRedirector (Some true) lk tr tp dbg) sc)
           (reader_before_events p ++ [Log "redirector" Logging.ERROR msg])
    else mkRes (Exc e msg)
           (mkWorld sr c a (mkRedirector (Some true) lk tr tp dbg) sc)
           (reader_before_events p).
Proof.
  intros Hs.
  destruct p as [| n | n b d | n b d esc];
    cbn [reader_loop reader_before reader_before_events app];
    try (destruct (Hs eq_refl) as [-> Hc];
         destruct c as [[rx0 cl nd bl tx0] |]; [| congruence]);
    try (destruct n as [| k]); run;
    try change (firstn (if Nat.eqb 0 0 then 1%nat else 0%nat) (b :: d))
      with [b];
    try change (firstn (if Nat.eqb (S k) 0 then 1%nat else S k) (b :: d))
      with (b :: firstn k d);
    cbv beta iota; run;
    destruct (isinstance e socket_error); reflexivity.
Qed.

(** A turn of the writer's loop in which a call raises. *)
Lemma writer_loop_fails fuel sr nd bl tx0 a lk tr tp dbg p e msg sc :
  (writer_sends p = true -> lk = false) ->
  writer_loop (S fuel)
    (mkWorld sr (Some (mkSocket [] false nd bl tx0)) a
       (mkRedirector (Some true) lk tr tp dbg)
       (writer_before p ++ Raise e msg :: sc)) =
    if isinstance e BlockingIOError
    then mkRes
           (out (writer_loop fuel
                   (mkWorld sr
                      (Some (writer_socket_at p (mkSocket [] false nd bl tx0)))
                      a (mkRedirector (Some true) lk tr tp dbg) sc)))
           (fin (writer_loop fuel
                   (mkWorld sr
                      (Some (writer_socket_at p (mkSocket [] false nd bl tx0)))
                      a (mkRedirector (Some true) lk tr tp dbg) sc)))
           (writer_before_events p ++
            evs (writer_loop fuel
                   (mkWorld sr
                      (Some (writer_socket_at p (mkSocket [] false nd bl tx0)))
                      a (mkRedirector (Some true) lk tr tp dbg) sc)))
    else if isinstance e socket_error
    then mkRes (Ret tt)
           (mkWorld sr
              (Some (writer_socket_at p (mkSocket [] false nd bl tx0)))
              a (mkRedirector (Some true) lk tr tp dbg) sc)
           (writer_before_events p ++ [Log "redirector" Logging.ERROR msg])
    else mkRes (Exc e msg)
           (mkWorld sr
              (Some (writer_socket_at p (mkSocket [] false nd bl tx0)))
              a (mkRedirector (Some true) lk tr tp dbg) sc)
           (writer_before_events p).
Proof.
  intros Hs.
  destruct p as [| b d | b d n r | b d q];
    cbn [writer_loop writer_before writer_before_events writer_socket_at app];
    try rewrite (Hs eq_refl);
    run;
    try change (firstn 1024 (b :: d)) with (b :: firstn 1023 d);
    cbv beta iota; run;
    destruct (isinstance e BlockingIOError);
    [ destruct (writer_loop fuel _) as [o w2 e2]; reflexivity
    | destruct (isinstance e socket_error); reflexivity
    | destruct (writer_loop fuel _) as [o w2 e2]; reflexivity
    | destruct (isinstance e socket_error); reflexivity
    | destruct (writer_loop fuel _) as [o w2 e2]; reflexivity
    | destruct (isinstance e socket_error); reflexivity
    | destruct (writer_loop fuel _) as [o w2 e2]; reflexivity
    | destruct (isinstance e socket_error); reflexivity ].
Qed.

(** C4 (amended): a failure whose class derives from [OSError], which is
    what [socket.error] names and which includes [BlockingIOError] and
    pyserial's [SerialException], never leaves the reader or the writer:
    only exceptions outside that class do.  When the reader or the writer
    returns, the flag is false.  Wherever in a turn of its loop a call
    raises (in the reader [in_waiting], [read], [escape] or the [sendall]
    of [write]; in the writer [recv], [filter], the [sendall] of an answer
    of the collaborator or the serial [write]): an exception in
    [socket.error] is logged and ends the loop, the reader then clearing
    the flag on its way out and the writer going on to [stop()], except
    that in the writer a would-block is skipped and the loop goes on; an
    exception outside [socket.error] is not caught at all: it leaves the
    activity at once, with the flag still true and nothing logged, and the
    writer does not reach [stop()]. *)
Theorem socket_errors_are_handled_inside (fuel : nat) (w : world) :
  isinstance SerialException socket_error = true /\
  isinstance BlockingIOError socket_error = true /\
  (forall e msg, out (reader fuel w) = Exc e msg ->
     isinstance e socket_error = false) /\
  (forall e msg, out (writer fuel w) = Exc e msg ->
     isinstance e socket_error = false) /\
  (out (reader fuel w) = Ret tt ->
     alive (rd (fin (reader fuel w))) = Some false) /\
  (out (writer fuel w) = Ret tt ->
     alive (rd (fin (writer fuel w))) = Some false) /\
  (forall p e msg sc,
     alive (rd w) = Some true ->
     (reader_sends p = true ->
      write_lock (rd w) = false /\ client w <> None) ->
     script w = reader_before p ++ Raise e msg :: sc ->
     (isinstance e socket_error = true ->
      reader (S fuel) w =
        mkRes (Ret tt)
          (set_rd (with_alive (Some false) (rd w)) (set_script sc w))
          ([ Log "redirector" Logging.DEBUG "Reader thread started" ] ++
           reader_before_events p ++
           [ Log "redirector" Logging.ERROR msg;
             SetAlive false;
             Log "redirector" Logging.DEBUG "Reader thread terminated" ])) /\
     (isinstance e socket_error = false ->
      reader (S fuel) w =
        mkRes (Exc e msg) (set_script sc w)
          ([ Log "redirector" Logging.DEBUG "Reader thread started" ] ++
           reader_before_events p))) /\
  (forall p s e msg sc,
     alive (rd w) = Some true ->
     (writer_sends p = true -> write_lock (rd w) = false) ->
     thread_read (rd w) <> None -> thread_poll (rd w) <> None ->
     client w = Some s -> sock_closed s = false -> rx s = [] ->
     script w = writer_before p ++ Raise e msg :: sc ->
     (isinstance e BlockingIOError = true ->
      writer_loop (S fuel) w =
        mkRes
          (out (writer_loop fuel
                  (set_script sc
                     (set_client (Some (writer_socket_at p s)) w))))
          (fin (writer_loop fuel
                  (set_script sc
                     (set_client (Some (writer_socket_at p s)) w))))
          (writer_before_events p ++
           evs (writer_loop fuel
                  (set_script sc
                     (set_client (Some (writer_socket_at p s)) w))))) /\
     (isinstance e BlockingIOError = false ->
      isinstance e socket_error = true ->
      writer (S fuel) w =
        mkRes (Ret tt)
          (fin (stop (set_script sc
                        (set_client (Some (writer_socket_at p s)) w))))
          (writer_before_events p ++
           [ Log "redirector" Logging.ERROR msg;
             Log "redirector" Logging.DEBUG "Writer thread terminated" ] ++
           evs (stop (set_script sc
                        (set_client (Some (writer_socket_at p s)) w)))) /\
      alive (rd (fin (writer (S fuel) w))) = Some false) /\
     (isinstance e socket_error = false ->
      writer (S fuel) w =
        mkRes (Exc e msg)
          (set_script sc (set_client (Some (writer_socket_at p s)) w))
          (writer_before_events p))).
Proof.
  split; [reflexivity |]. split; [reflexivity |].
  split; [intros e msg H; eapply reader_escapes; eassumption |].
  split; [intros e msg H; eapply writer_escapes; eassumption |].
  split; [apply reader_returns_false |].
  split; [apply writer_returns_false |].
  split.
  - intros p e msg sc.
    destruct w as [sr c a [al lk tr tp dbg] scr].
    cbn [alive write_lock rd client script]. intros -> Hs ->.
    pose proof (@reader_loop_fails fuel sr c a lk tr tp dbg p e msg sc Hs)
      as Hl.
    split; intros He; rewrite He in Hl; unfold reader;
      (erewrite bind_ret_eq by reflexivity); cbn [out fin evs].
    + erewrite bind_ret_eq by exact Hl. cbn [out fin evs].
      assert (Ht : forall x,
                (set_alive false ;;
                 log "redirector" Logging.DEBUG "Reader thread terminated") x
                = mkRes (Ret tt) (set_rd (with_alive (Some false) (rd x)) x)
                    [ SetAlive false;
                      Log "redirector" Logging.DEBUG
                        "Reader thread terminated" ]) by reflexivity.
      rewrite Ht. cbn [out fin evs]. rewrite <- app_assoc. reflexivity.
    + erewrite bind_exc_eq by exact Hl. reflexivity.
  - intros p [rx0 cl nd bl tx0] e msg sc.
    destruct w as [sr c a [al lk tr tp dbg] scr].
    cbn [alive write_lock thread_read thread_poll rd client sock_closed rx
         script].
    intros -> Hs Hr Hp -> -> -> ->.
    pose proof (@writer_loop_fails fuel sr nd bl tx0 a lk tr tp dbg p e msg
                  sc Hs) as Hl.
    change (set_script sc
              (set_client
                 (Some (writer_socket_at p (mkSocket [] false nd bl tx0)))
                 (mkWorld sr (Some (mkSocket [] false nd bl tx0)) a
                    (mkRedirector (Some true) lk tr tp dbg)
                    (writer_before p ++ Raise e msg :: sc))))
      with (mkWorld sr
              (Some (writer_socket_at p (mkSocket [] false nd bl tx0))) a
              (mkRedirector (Some true) lk tr tp dbg) sc).
    split; [| split].
    + intros Hb. rewrite Hb in Hl. exact Hl.
    + intros Hb He. rewrite Hb, He in Hl.
      rewrite (writer_after_loop _ _ Hl).
      match goal with |- context [stop ?x] =>
        destruct (@stop_ends x ltac:(discriminate) Hr Hp) as [Ho Ha]
      end.
      rewrite Ho. cbn [fin]. split; [| exact Ha].
      rewrite <- app_assoc. reflexivity.
    + intros He.
      assert (Hb : isinstance e BlockingIOError = false).
      { destruct (isinstance e BlockingIOError) eqn:Hb; [| reflexivity].
        apply blocking_is_socket_error in Hb. congruence. }
      rewrite Hb, He in Hl. unfold writer.
      erewrite bind_exc_eq by exact Hl. reflexivity.
Qed.

Lemma socket_errors_are_handled_inside_witness :
  alive (rd (world_of running device_lost)) = Some true /\
  out (reader 1 (world_of running device_lost)) = Ret tt /\
  alive (rd (fin (reader 1 (world_of running device_lost)))) = Some false /\
  out (reader 1 (world_of running escape_fails))
    = Exc ValueError "protocol failure" /\
  alive (rd (fin (reader 1 (world_of running escape_fails)))) = Some true /\
  out (writer 1 (world_of running filter_fails))
    = Exc ValueError "protocol failure" /\
  alive (rd (fin (writer 1 (world_of running filter_fails)))) = Some true.
Proof.
  destruct (socket_errors_are_handled_inside 0 (world_of running device_lost))
    as (_ & _ & _ & _ & _ & _ & H1 & _).
  destruct (H1 (in_read 0) SerialException
              "device reports readiness to read but returned no data"%string
              [] eq_refl ltac:(discriminate) eq_refl) as (H1a & _).
  destruct (socket_errors_are_handled_inside 0 (world_of running escape_fails))
    as (_ & _ & _ & _ & _ & _ & H2 & _).
  destruct (H2 (in_escape 2 "a"%byte ["b"%byte])
              ValueError "protocol failure"%string
              [] eq_refl ltac:(discriminate) eq_refl) as (_ & H2b).
  destruct (socket_errors_are_handled_inside 0 (world_of running filter_fails))
    as (_ & _ & _ & _ & _ & _ & _ & H3).
  destruct (H3 (in_filter "a"%byte ["b"%byte])
              (mkSocket [] false true false [])
              ValueError "protocol failure"%string
              [] eq_refl ltac:(discriminate) ltac:(discriminate)
              ltac:(discriminate)
              eq_refl eq_refl eq_refl eq_refl) as (_ & _ & H3c).
  split; [reflexivity |].
  rewrite (H1a eq_refl), (H2b eq_refl), (H3c eq_refl).
  repeat split.
Defined.

(** *** The writer *)

Lemma writer_recv_1024 fuel : emits (recv_chunk_is 1024) (writer fuel).
Proof.
  assert (H : emits (recv_chunk_is 1024) (writer_loop fuel)).
  { induction fuel as [|fuel IH]; cbn [writer_loop]; emits_crawl. }
  unfold writer, stop. emits_crawl.
Qed.

Lemma writer_loop_not_stopping fuel : emits not_stopping (writer_loop fuel).
Proof. induction fuel as [|fuel IH]; cbn [writer_loop]; emits_crawl. Qed.

Lemma stop_logs_once w : count is_stopping (evs (stop w)) = 1%nat.
Proof.
  destruct w as [s c a [al lk tr tp dbg] sc]. unfold stop. run.
  destruct sc as [|[] t]; destruct al as [[|]|]; destruct tr; destruct tp;
    reflexivity.
Qed.

(** C5, as the specification words it, fails: an exception that no
    [except] clause of the writer catches, here the operator's interrupt
    arriving during the serial write, leaves [writer] before [stop()] is
    reached; the flag is still true and no thread has been joined. *)
Lemma writer_leaves_without_stop :
  out (writer 3 (world_of running interrupted_write))
    = Exc KeyboardInterrupt EmptyString /\
  count is_stopping (evs (writer 3 (world_of running interrupted_write)))
    = 0%nat /\
  alive (rd (fin (writer 3 (world_of running interrupted_write))))
    = Some true /\
  thread_read (rd (fin (writer 3 (world_of running interrupted_write))))
    = Some Running.
Proof. vm_compute. repeat split. Qed.

Ltac started_side :=
  unfold started; intros; cbn;
  match goal with
  | H : _ /\ _ /\ _ |- _ => destruct H as [? [? ?]]
  end;
  repeat split; solve [assumption | discriminate].

Lemma stop_keeps_started : preserves started stop.
Proof. unfold stop. preserves_crawl started_side. Qed.

Lemma writer_keeps_started fuel : preserves started (writer fuel).
Proof.
  assert (H : preserves started (writer_loop fuel)).
  { induction fuel as [|fuel IH]; cbn [writer_loop];
      preserves_crawl started_side. }
  pose proof stop_keeps_started.
  unfold writer. preserves_crawl started_side.
Qed.

(** However [shortcircuit] ends, the flag and both threads exist. *)
Lemma shortcircuit_started fuel w : started (fin (shortcircuit fuel w)).
Proof.
  unfold shortcircuit.
  do 3 (erewrite bind_ret_eq by (run; reflexivity); cbn [fin]).
  apply writer_keeps_started. destruct w as [sr c a [al lk tr tp dbg] sc].
  unfold started. cbn. repeat split; discriminate.
Qed.

(** The [finally] block of the supervisor begins with [stop()]. *)
Lemma teardown_stops saved w :
  out (stop w) = Ret tt ->
  exists rest,
    evs (teardown saved w) =
      Log "root" Logging.INFO "Disconnected" :: evs (stop w) ++ rest.
Proof.
  intros Ho. unfold teardown. rewrite bind_evs. cbn [log emit evs out fin].
  rewrite bind_evs, Ho. eexists. reflexivity.
Qed.

(** C5 (amended): the writer loops while the flag is true and asks [recv]
    for at most 1024 bytes each time.  A chunk that was received is
    filtered by the collaborator, whose answers go to the client through
    [write], and the payload is written to the serial port; then the loop
    goes on.  An empty receive ends the loop.  Wherever in a turn a call
    raises ([recv], [filter], the [sendall] of an answer, the serial
    [write]): a would-block is skipped and the loop goes on; any other
    [socket.error], which includes a [SerialException] of the serial
    write, is logged and ends the loop; an exception outside
    [socket.error] is not caught and leaves the writer at once, without
    [stop()] having been invoked by it.  Whenever the loop ends without
    an exception, the writer invokes [stop()], once, which joins the
    other two threads if it finds the flag true, and the flag is false
    when the writer returns.  When [shortcircuit] is left by an exception,
    the [finally] block of the supervisor invokes [stop()], which then
    returns with the flag false. *)
Theorem writer_loop_and_exits (fuel : nat) (w : world) :
  Forall (recv_chunk_is 1024) (evs (writer fuel w)) /\
  (alive (rd w) = Some false ->
     out (writer_loop (S fuel) w) = Ret tt /\
     evs (writer_loop (S fuel) w) = []) /\
  (forall s, alive (rd w) = Some true ->
     client w = Some s -> sock_closed s = false -> rx s = [] ->
     (forall sc, script w = Data [] :: sc ->
        writer_loop (S fuel) w =
          mkRes (Ret tt) (set_script sc w) [Call (sock_recv 1024)]) /\
     (forall b d p sc, script w = Data (b :: d) :: Data p :: Done :: sc ->
        writer_loop (S fuel) w =
          mkRes
            (out (writer_loop fuel
                    (set_script sc
                       (set_ser (with_wire (wire (ser w) ++ p) (ser w))
                          (set_client
                             (Some (with_rx (skipn 1024 (b :: d)) s)) w)))))
            (fin (writer_loop fuel
                    (set_script sc
                       (set_ser (with_wire (wire (ser w) ++ p) (ser w))
                          (set_client
                             (Some (with_rx (skipn 1024 (b :: d)) s)) w)))))
            ([ Call (sock_recv 1024);
               Call (rfc_filter (firstn 1024 (b :: d)));
               Call (ser_write p) ] ++
             evs (writer_loop fuel
                    (set_script sc
                       (set_ser (with_wire (wire (ser w) ++ p) (ser w))
                          (set_client
                             (Some (with_rx (skipn 1024 (b :: d)) s))
                             w)))))) /\
     (forall b d a p sc,
        write_lock (rd w) = false ->
        script w = Data (b :: d) :: Answer a (Data p) :: Done :: Done :: sc ->
        writer_loop (S fuel) w =
          mkRes
            (out (writer_loop fuel
                    (set_script sc
                       (set_ser (with_wire (wire (ser w) ++ p) (ser w))
                          (set_client
                             (Some (with_tx (tx s ++ a)
                                      (with_rx (skipn 1024 (b :: d)) s)))
                             w)))))
            (fin (writer_loop fuel
                    (set_script sc
                       (set_ser (with_wire (wire (ser w) ++ p) (ser w))
                          (set_client
                             (Some (with_tx (tx s ++ a)
                                      (with_rx (skipn 1024 (b :: d)) s)))
                             w)))))
            ([ Call (sock_recv 1024);
               Call (rfc_filter (firstn 1024 (b :: d)));
               LockAcquire; Call (sock_sendall a); LockRelease;
               Call (ser_write p) ] ++
             evs (writer_loop fuel
                    (set_script sc
                       (set_ser (with_wire (wire (ser w) ++ p) (ser w))
                          (set_client
                             (Some (with_tx (tx s ++ a)
                                      (with_rx (skipn 1024 (b :: d)) s)))
                             w)))))) /\
     (forall p e msg sc,
        (writer_sends p = true -> write_lock (rd w) = false) ->
        script w = writer_before p ++ Raise e msg :: sc ->
        (isinstance e BlockingIOError = true ->
         writer_loop (S fuel) w =
           mkRes
             (out (writer_loop fuel
                     (set_script sc
                        (set_client (Some (writer_socket_at p s)) w))))
             (fin (writer_loop fuel
                     (set_script sc
                        (set_client (Some (writer_socket_at p s)) w))))
             (writer_before_events p ++
              evs (writer_loop fuel
                     (set_script sc
                        (set_client (Some (writer_socket_at p s)) w))))) /\
        (isinstance e BlockingIOError = false ->
         isinstance e socket_error = true ->
         writer_loop (S fuel) w =
           mkRes (Ret tt)
             (set_script sc (set_client (Some (writer_socket_at p s)) w))
             (writer_before_events p
                ++ [Log "redirector" Logging.ERROR msg])) /\
        (isinstance e socket_error = false ->
         writer_loop (S fuel) w =
           mkRes (Exc e msg)
             (set_script sc (set_client (Some (writer_socket_at p s)) w))
             (writer_before_events p) /\
         writer (S fuel) w =
           mkRes (Exc e msg)
             (set_script sc (set_client (Some (writer_socket_at p s)) w))
             (writer_before_events p)))) /\
  (forall w1 e1, writer_loop fuel w = mkRes (Ret tt) w1 e1 ->
     writer fuel w =
       mkRes (out (stop w1)) (fin (stop w1))
         (e1 ++ Log "redirector" Logging.DEBUG "Writer thread terminated"
             :: evs (stop w1)) /\
     count is_stopping (evs (writer fuel w)) = 1%nat /\
     (thread_read (rd w1) <> None -> thread_poll (rd w1) <> None ->
      (alive (rd w1) = Some true -> starts_cleared (script w1) = false ->
       stop w1 =
         mkRes (Ret tt)
           (set_rd
              (with_thread thread_poll_id (Some Terminated)
                 (with_thread thread_read_id (Some Terminated)
                    (with_alive (Some false) (rd w1)))) w1)
           [ Log "redirector" Logging.DEBUG "Stopping";
             SetAlive false;
             ThreadJoin thread_read_id; ThreadJoin thread_poll_id ]) /\
      (alive (rd w1) <> None ->
       out (writer fuel w) = Ret tt /\
       alive (rd (fin (writer fuel w))) = Some false))) /\
  (out (writer fuel w) = Ret tt ->
     alive (rd (fin (writer fuel w))) = Some false) /\
  (forall e msg, out (writer_loop fuel w) = Exc e msg ->
     isinstance e socket_error = false /\
     out (writer fuel w) = Exc e msg /\
     fin (writer fuel w) = fin (writer_loop fuel w) /\
     count is_stopping (evs (writer fuel w)) = 0%nat) /\
  (forall saved e msg, out (shortcircuit fuel w) = Exc e msg ->
     out (stop (fin (shortcircuit fuel w))) = Ret tt /\
     alive (rd (fin (stop (fin (shortcircuit fuel w))))) = Some false /\
     exists rest,
       evs (try_finally (shortcircuit fuel) (teardown saved) w) =
         evs (shortcircuit fuel w) ++
         Log "root" Logging.INFO "Disconnected"
           :: evs (stop (fin (shortcircuit fuel w))) ++ rest).
Proof.
  split; [apply writer_recv_1024 |].
  split.
  { destruct w as [sr c a [al lk tr tp dbg] scr]. cbn [alive rd].
    intros ->. cbn [writer_loop]. run.
    destruct scr as [|[] t]; split; reflexivity. }
  split.
  { intros [rx0 cl nd bl tx0].
    destruct w as [sr c a [al lk tr tp dbg] scr].
    destruct sr as [nm op dt rt cf wi].
    cbn [alive write_lock rd client sock_closed rx script].
    intros -> -> -> ->.
    split; [| split; [| split]].
    - intros sc ->. cbn [writer_loop]. run. reflexivity.
    - intros b d p sc ->. cbn [writer_loop]. run.
      change (firstn 1024 (b :: d)) with (b :: firstn 1023 d).
      cbv beta iota. run.
      destruct (writer_loop fuel _) as [o w2 e2]. reflexivity.
    - intros b d n p sc -> ->. cbn [writer_loop]. run.
      change (firstn 1024 (b :: d)) with (b :: firstn 1023 d).
      cbv beta iota. run.
      destruct (writer_loop fuel _) as [o w2 e2]. reflexivity.
    - intros p e msg sc Hs ->.
      pose proof (@writer_loop_fails fuel (mkSerial nm op dt rt cf wi)
                    nd bl tx0 a lk tr tp dbg p e msg sc Hs) as Hl.
      change (set_script sc
                (set_client
                   (Some (writer_socket_at p (mkSocket [] false nd bl tx0)))
                   (mkWorld (mkSerial nm op dt rt cf wi)
                      (Some (mkSocket [] false nd bl tx0)) a
                      (mkRedirector (Some true) lk tr tp dbg)
                      (writer_before p ++ Raise e msg :: sc))))
        with (mkWorld (mkSerial nm op dt rt cf wi)
                (Some (writer_socket_at p (mkSocket [] false nd bl tx0))) a
                (mkRedirector (Some true) lk tr tp dbg) sc).
      split; [| split].
      + intros Hb. rewrite Hb in Hl. exact Hl.
      + intros Hb He. rewrite Hb, He in Hl. exact Hl.
      + intros He.
        assert (Hb : isinstance e BlockingIOError = false).
        { destruct (isinstance e BlockingIOError) eqn:Hb; [| reflexivity].
          apply blocking_is_socket_error in Hb. congruence. }
        rewrite Hb, He in Hl. split; [exact Hl |].
        unfold writer. erewrite bind_exc_eq by exact Hl. reflexivity. }
  split.
  { intros w1 e1 Hl. rewrite (writer_after_loop _ _ Hl).
    split; [reflexivity |]. split.
    - cbn [evs].
      pose proof (writer_loop_not_stopping fuel w) as Hn. rewrite Hl in Hn.
      cbn [evs] in Hn.
      rewrite count_app. rewrite (count_none is_stopping Hn).
      change (Log "redirector" Logging.DEBUG "Writer thread terminated"
                :: evs (stop w1))
        with ([Log "redirector" Logging.DEBUG "Writer thread terminated"]
                ++ evs (stop w1)).
      rewrite count_app, stop_logs_once. reflexivity.
    - intros Hr Hp. split.
      + destruct w1 as [sr c a [al lk tr tp dbg] scr].
        cbn [alive thread_read thread_poll rd script] in *.
        intros -> Hsc.
        destruct tr; [| congruence]. destruct tp; [| congruence].
        unfold stop, read_alive, log, bind, emit, get. rewrite absorb_spec.
        cbn. rewrite Hsc. cbn.
        destruct scr as [| [] scr']; try discriminate Hsc; reflexivity.
      + intros Ha. destruct (stop_ends w1 Ha Hr Hp) as [Ho Hf].
        cbn [out fin]. auto. }
  split; [apply writer_returns_false |].
  split.
  { intros e msg H. destruct (writer_loop fuel w) as [o w1 e1] eqn:Hl.
    cbn [out fin] in *. subst o.
    split.
    { eapply writer_loop_escapes. rewrite Hl. reflexivity. }
    unfold writer. erewrite bind_exc_eq by exact Hl. cbn [out fin evs].
    repeat split.
    pose proof (writer_loop_not_stopping fuel w) as Hn. rewrite Hl in Hn.
    cbn [evs] in Hn. apply count_none. exact Hn. }
  intros saved e msg H.
  destruct (shortcircuit_started fuel w) as (Ha & Hr & Hp).
  destruct (stop_ends _ Ha Hr Hp) as [Ho Hf].
  split; [exact Ho |]. split; [exact Hf |].
  rewrite try_finally_evs, H.
  destruct (teardown_stops saved _ Ho) as [rest Hrest].
  exists rest. rewrite Hrest. reflexivity.
Qed.

Lemma writer_loop_and_exits_witness :
  alive (rd (world_of stopped [])) = Some false /\
  out (writer_loop 1 (world_of stopped [])) = Ret tt /\
  writer 3 (world_of running interrupted_write) =
    mkRes (Exc KeyboardInterrupt EmptyString)
      (world_of running [])
      [ Call (sock_recv 1024); Call (rfc_filter ["a"%byte]);
        Call (ser_write ["a"%byte]) ] /\
  out (writer 1 (world_of running
                   [Data ["a"%byte]; Data ["a"%byte];
                    Raise SerialException "write failed"]))
    = Ret tt /\
  alive (rd (fin (writer 1 (world_of running
                   [Data ["a"%byte]; Data ["a"%byte];
                    Raise SerialException "write failed"]))))
    = Some false.
Proof.
  destruct (writer_loop_and_exits 0 (world_of stopped []))
    as (_ & H1 & _).
  destruct (writer_loop_and_exits 2 (world_of running interrupted_write))
    as (_ & _ & H2 & _).
  destruct (H2 (mkSocket [] false true false [])
              eq_refl eq_refl eq_refl eq_refl)
    as (_ & _ & _ & H2d).
  destruct (H2d (in_serial_write "a"%byte [] ["a"%byte])
              KeyboardInterrupt EmptyString [] ltac:(discriminate) eq_refl)
    as (_ & _ & H2e).
  destruct (writer_loop_and_exits 0
              (world_of running
                 [Data ["a"%byte]; Data ["a"%byte];
                  Raise SerialException "write failed"]))
    as (_ & _ & H3 & _).
  destruct (writer_loop_and_exits 1
              (world_of running
                 [Data ["a"%byte]; Data ["a"%byte];
                  Raise SerialException "write failed"]))
    as (_ & _ & _ & H4 & _).
  destruct (H3 (mkSocket [] false true false [])
              eq_refl eq_refl eq_refl eq_refl)
    as (_ & _ & _ & H3d).
  destruct (H3d (in_serial_write "a"%byte [] ["a"%byte])
              SerialException "write failed"%string [] ltac:(discriminate)
              eq_refl)
    as (_ & H3e & _).
  destruct (H4 _ _ (H3e eq_refl eq_refl)) as (_ & _ & H4c).
  destruct (H4c ltac:(discriminate) ltac:(discriminate)) as (_ & H4d).
  destruct (H4d ltac:(discriminate)) as [H5 H6].
  split; [reflexivity |].
  split; [exact (proj1 (H1 eq_refl)) |].
  split; [exact (proj2 (H2e eq_refl)) |].
  split; [exact H5 | exact H6].
Defined.

End RedirectorFacts.

(* ------------------------------------------------------------------ *)
(** ** The supervisor: waiting for a client *)

Module SupervisorFacts.
Import Redirector.

Ltac client_side := unfold has_client; intros; cbn; auto;
  match goal with
  | H : client ?w <> None |- _ => destruct (client w); cbn; congruence
  end.

Lemma is_socket_connected_no_serial : emits no_serial_call is_socket_connected.
Proof. unfold is_socket_connected. emits_crawl. Qed.

Lemma wait_client_no_serial fuel : emits no_serial_call (wait_client fuel).
Proof.
  pose proof is_socket_connected_no_serial.
  induction fuel as [|fuel IH]; cbn [wait_client]; emits_crawl.
Qed.






Lemma bind_starts {A B} (m : M A) (k : A -> M B) ev w :
  (exists rest, evs (m w) = ev :: rest) ->
  exists rest, evs (bind m k w) = ev :: rest.
Proof.
  intros [rest H]. rewrite bind_evs, H. eexists. reflexivity.
Qed.

Lemma try_except_starts {A} (m : M A) h ev w :
  (exists rest, evs (m w) = ev :: rest) ->
  exists rest, evs (try_except m h w) = ev :: rest.
Proof.
  intros [rest H]. unfold try_except.
  destruct (m w) as [[a | e msg |] w1 e1]; cbn in *; subst;
    try (eexists; reflexivity).
  destruct (h e msg) as [k |]; [| eexists; reflexivity].
  destruct (k w1). eexists. reflexivity.
Qed.

Lemma do_call_starts c w : exists rest, evs (do_call c w) = Call c :: rest.
Proof. unfold do_call. apply bind_starts. eexists. reflexivity. Qed.

(** With no client at hand, waiting for one starts with [accept]. *)
Lemma wait_client_starts_with_accept fuel w :
  client w = None ->
  exists rest, evs (wait_client (S fuel) w) = Call srv_accept :: rest.
Proof.
  intros Hc. cbn [wait_client].
  assert (Hp : is_socket_connected w = mkRes (Ret false) w []).
  { destruct w as [sr c a r sc]. cbn [client] in Hc. subst c. reflexivity. }
  erewrite bind_ret_eq by exact Hp. cbn [app evs].
  apply bind_starts, try_except_starts, bind_starts.
  unfold server_accept. apply bind_starts, do_call_starts.
Qed.

(** *** The connectivity probe *)

(** C10: the probe says [False] of [None] without touching anything; on a
    socket it does one [recv(1)]: it says [False] exactly when that yields
    the empty string and [True] when it raises a [socket.error].  When the
    client has sent data, the probe takes the first byte off the stream and
    drops it.  The supervisor runs the probe right after [accept] and before
    the allowlist check; the first chunk the session then hands to the
    collaborator's filter, on its way to the serial port, starts at the
    client's second byte. *)
Theorem probe_consumes_first_byte (v : Z) (fuel : nat) (w : world) :
  (client w = None -> is_socket_connected w = mkRes (Ret false) w []) /\
  (forall s d sc,
     client w = Some s -> sock_closed s = false -> rx s = [] ->
     script w = Data d :: sc ->
     is_socket_connected w =
       mkRes (Ret (match d with [] => false | _ :: _ => true end))
         (set_script sc (set_client (Some (with_rx (skipn 1 d) s)) w))
         [Call (sock_recv 1)]) /\
  (forall s e msg sc,
     client w = Some s -> sock_closed s = false -> rx s = [] ->
     script w = Raise e msg :: sc -> isinstance e socket_error = true ->
     is_socket_connected w =
       mkRes (Ret true) (set_script sc w) [Call (sock_recv 1)]) /\
  (forall h p b c rest sc,
     is_open (ser w) = false -> str_in_list h IP_WHITELIST = true ->
     script w = Conn h p :: Data (b :: c :: rest) :: Done :: Done :: Done
                  :: Done :: Done :: Done :: sc ->
     starts_cleared sc = false ->
     exists tail,
       evs (main_body v (S (S fuel)) w) =
         [ Call srv_accept;
           Log "root" Logging.INFO
             ("Connection request from " ++ h ++ ":" ++ str_of_Z p);
           Call (sock_recv 1);
           Call sock_setsockopt_nodelay; Call (sock_setblocking false);
           Call ser_open;
           Log "root" Logging.INFO ("Connected to " ++ ser_name (ser w));
           Call ser_get_settings;
           Call (ser_set_dtr true); Call (ser_set_rts true);
           NewRedirector; Call (rfc_PortManager (v >? 0));
           SetAlive true;
           ThreadStart thread_read_id; ThreadStart thread_poll_id;
           Call (sock_recv 1024);
           Call (rfc_filter (firstn 1024 (c :: rest))) ] ++ tail).
Proof.
  split; [| split; [| split]].
  - destruct w as [sr cl a r scr]. cbn [client]. intros ->. reflexivity.
  - intros [rx0 cld nd bl tx0] d sc.
    destruct w as [sr cl a [al lk tr tp dbg] scr].
    cbn [client sock_closed rx script]. intros -> -> -> ->.
    unfold is_socket_connected. run. destruct d as [|b d]; reflexivity.
  - intros [rx0 cld nd bl tx0] e msg sc.
    destruct w as [sr cl a [al lk tr tp dbg] scr].
    cbn [client sock_closed rx script]. intros -> -> -> -> He.
    unfold is_socket_connected. run. rewrite He. reflexivity.
  - intros h p b c rest sc.
    destruct w as [[nm op dt rt cf wi] cl a r scr].
    cbn [is_open ser script ser_name]. intros -> Hh -> Hsc.
    unfold main_body.
    step_with run.
    step_with ltac:(cbn [wait_client]; unfold is_socket_connected; run).
    step_with run.
    cbn [fst]. rewrite Hh. cbn [negb]. unfold serve.
    step_with run. step_with run.
    step_with ltac:(cbn [wait_serial]; run).
    apply bind_prefix_left. unfold session.
    step_with ltac:(unfold connect, __init__; run).
    apply try_finally_prefix. unfold shortcircuit.
    step_with run. step_with run. step_with run.
    unfold writer. apply bind_prefix_left. cbn [writer_loop].
    eapply bind_prefix;
      [ apply read_alive_quiet; [exact Hsc | reflexivity]
      | reflexivity | cbn [skipn List.length] ].
    cbv beta iota. apply bind_prefix_left, try_except_prefix.
    step_with run.
    change (firstn 1024 (c :: rest)) with (c :: firstn 1023 rest).
    cbv beta iota. apply bind_prefix_left.
    unfold rfc2217_filter. apply bind_prefix_left.
    unfold do_call. apply bind_prefix_left.
    exists []. reflexivity.
Qed.

Lemma probe_consumes_first_byte_witness :
  client (world_of running [Data ["a"%byte; "b"%byte]]) <> None /\
  out (is_socket_connected (world_of running [Data ["a"%byte; "b"%byte]]))
    = Ret true /\
  option_map rx
    (client (fin (is_socket_connected
                    (world_of running [Data ["a"%byte; "b"%byte]]))))
    = Some ["b"%byte].
Proof.
  destruct (probe_consumes_first_byte 0 0
              (world_of running [Data ["a"%byte; "b"%byte]]))
    as (_ & H & _).
  specialize (H (mkSocket [] false true false []) ["a"%byte; "b"%byte] []
                eq_refl eq_refl eq_refl eq_refl).
  split; [discriminate |]. rewrite H. split; reflexivity.
Defined.

(** *** One turn of the main loop *)

Lemma ask_evs w : evs (ask w) = [].
Proof.
  pose proof (emits_ask (fun _ => False) w) as H.
  destruct (evs (ask w)); [reflexivity | inversion H; contradiction].
Qed.

Lemma call_unit_evs c w : evs (call_unit c w) = [Call c].
Proof.
  unfold call_unit, do_call. rewrite !bind_evs. cbn [emit evs out fin].
  rewrite ask_evs. cbn [app].
  destruct (out ((emit (Call c);; ask) w)) as [[] | |]; reflexivity.
Qed.

Lemma deny_no_serial h : emits no_serial_call (deny h).
Proof. unfold deny. emits_crawl. Qed.





Lemma the_addr_some w a : addr w = Some a -> the_addr w = mkRes (Ret a) w [].
Proof. destruct w as [sr c ad r sc]. cbn [addr]. intros ->. reflexivity. Qed.

Lemma the_addr_none w :
  addr w = None ->
  the_addr w = mkRes (Exc Exception "name 'addr' is not defined") w [].
Proof. destruct w as [sr c ad r sc]. cbn [addr]. intros ->. reflexivity. Qed.

(** What a turn does once a client has passed the probe. *)
Lemma main_body_after_accept v fuel w w1 e1 h p :
  wait_client fuel (set_client None w) = mkRes (Ret tt) w1 e1 ->
  addr w1 = Some (h, p) ->
  main_body v fuel w =
    mkRes
      (out ((if negb (str_in_list h IP_WHITELIST) then deny h
             else serve v fuel) w1))
      (fin ((if negb (str_in_list h IP_WHITELIST) then deny h
             else serve v fuel) w1))
      (e1 ++ evs ((if negb (str_in_list h IP_WHITELIST) then deny h
                   else serve v fuel) w1)).
Proof.
  intros Hw Ha. unfold main_body.
  erewrite bind_ret_eq by reflexivity. cbn [app].
  erewrite bind_ret_eq by exact Hw.
  erewrite bind_ret_eq by (apply the_addr_some; exact Ha).
  cbn [fst out fin evs app]. reflexivity.
Qed.

(** A turn in which no client passes the probe does nothing else. *)
Lemma main_body_no_client v fuel w :
  out (wait_client fuel (set_client None w)) <> Ret tt \/
  addr (fin (wait_client fuel (set_client None w))) = None ->
  evs (main_body v fuel w) = evs (wait_client fuel (set_client None w)).
Proof.
  intros H. unfold main_body. rewrite bind_evs. cbn [modify evs out fin app].
  rewrite bind_evs.
  destruct (wait_client fuel (set_client None w)) as [[[] | e msg |] w1 e1];
    cbn [out fin evs] in *; try (apply app_nil_r).
  destruct H as [H | H]; [congruence |].
  rewrite bind_evs. rewrite (the_addr_none _ H). cbn. apply app_nil_r.
Qed.


(** *** The allowlist *)



(** *** The order of client and serial port *)

Lemma prefix_without ev (e1 x pre post : list event) (P : event -> Prop) :
  e1 ++ x = pre ++ ev :: post -> Forall P e1 -> ~ P ev ->
  exists pre', pre = e1 ++ pre'.
Proof.
  revert pre. induction e1 as [| y e1 IH]; intros pre Heq Hall Hev.
  - exists pre. reflexivity.
  - inversion Hall as [| ? ? Hy Hall']; subst.
    destruct pre as [| z pre]; cbn in Heq; inversion Heq; subst.
    + contradiction.
    + destruct (IH pre H1 Hall' Hev) as [pre' ->].
      exists pre'. reflexivity.
Qed.

Lemma serial_close_closes w :
  out (serial_close w) = Ret tt -> is_open (ser (fin (serial_close w))) = false.
Proof.
  unfold serial_close. intros H.
  apply bind_ret_inv in H. destruct H as [[] [_ [_ [Hf _]]]].
  rewrite Hf. reflexivity.
Qed.

(** Once the [finally] block has run to its end, the port is closed. *)
Lemma teardown_closes saved w :
  out (teardown saved w) = Ret tt ->
  is_open (ser (fin (teardown saved w))) = false.
Proof.
  unfold teardown. intros H.
  do 6 (apply bind_ret_inv in H; destruct H as [[] [_ [H [Hf _]]]];
        rewrite Hf; clear Hf).
  apply serial_close_closes. exact H.
Qed.

(** C1, as the specification words it, fails: in a run of two sessions the
    first [accept] comes before the first attempt to open the serial port
    (the port is closed while the supervisor waits for a client), and what
    follows the [close] of the port at the end of the first session is the
    next [accept], not an attempt to reopen the port. *)
Lemma serial_is_opened_after_the_client_is_accepted :
  is_open (ser (started_on_usb0 two_sessions)) = false /\
  happens_first (is_call ser_open) (is_call srv_accept) (evs two_sessions_run)
    = false /\
  happens_first (is_call srv_accept) (is_call ser_open) (evs two_sessions_run)
    = true /\
  hd_error (after_first (is_call ser_close) (evs two_sessions_run))
    = Some (Call srv_accept).
Proof. vm_compute. repeat split. Qed.

(** *** A turn from its first event to its last *)

Lemma main_body_starts_with_accept v fuel w :
  exists rest, evs (main_body v (S fuel) w) = Call srv_accept :: rest.
Proof.
  unfold main_body. rewrite bind_evs. cbn [modify evs out fin app].
  apply bind_starts. apply wait_client_starts_with_accept. reflexivity.
Qed.

(** A call on the serial device in a turn comes after the [accept] of a
    peer that passed the probe and is on the list. *)
Lemma main_body_serial_after_accept v fuel w pre ev post :
  evs (main_body v fuel w) = pre ++ ev :: post ->
  is_serial_call ev = true ->
  In (Call srv_accept) pre /\
  out (wait_client fuel (set_client None w)) = Ret tt /\
  exists h p,
    addr (fin (wait_client fuel (set_client None w))) = Some (h, p) /\
    str_in_list h IP_WHITELIST = true.
Proof.
  intros Heq Hev.
  pose proof (wait_client_no_serial fuel (set_client None w)) as Hns.
  assert (Hnot : forall l, evs (main_body v fuel w) = l ->
                   Forall no_serial_call l -> False).
  { intros l Hl Hall. rewrite Heq in Hl. subst l.
    apply Forall_app in Hall. destruct Hall as [_ Hall].
    inversion Hall as [| ? ? Hx _]; subst.
    unfold no_serial_call in Hx. congruence. }
  destruct (wait_client fuel (set_client None w)) as [o w1 e1] eqn:Hw.
  cbn [out fin evs] in *.
  destruct o as [[] | e msg |];
    try (exfalso; eapply Hnot;
         [ apply main_body_no_client; rewrite Hw; left; discriminate
         | rewrite Hw; exact Hns ]).
  destruct (addr w1) as [[h p] |] eqn:Ha;
    [| exfalso; eapply Hnot;
       [ apply main_body_no_client; rewrite Hw; right; exact Ha
       | rewrite Hw; exact Hns ] ].
  destruct (str_in_list h IP_WHITELIST) eqn:Hin.
  - split; [| split; [reflexivity | exists h, p; split; [reflexivity | exact Hin]]].
    rewrite (@main_body_after_accept v fuel w w1 e1 h p Hw Ha) in Heq.
    cbn [evs] in Heq.
    destruct (@prefix_without ev e1 _ pre post no_serial_call Heq Hns)
      as [pre' ->].
    { unfold no_serial_call. congruence. }
    apply in_or_app. left.
    destruct fuel as [| fuel]; [cbn in Hw; discriminate |].
    destruct (@wait_client_starts_with_accept fuel (set_client None w)
                eq_refl) as [rest Hrest].
    rewrite Hw in Hrest. cbn [evs] in Hrest. subst e1. left. reflexivity.
  - exfalso. eapply Hnot.
    + rewrite (@main_body_after_accept v fuel w w1 e1 h p Hw Ha), Hin.
      cbn [negb evs]. reflexivity.
    + apply Forall_app. split; [exact Hns | apply deny_no_serial].
Qed.

Lemma try_finally_ret_inv {A} (m : M A) f w a :
  out (try_finally m f w) = Ret a ->
  out (m w) = Ret a /\ out (f (fin (m w))) = Ret tt /\
  fin (try_finally m f w) = fin (f (fin (m w))) /\
  evs (try_finally m f w) = evs (m w) ++ evs (f (fin (m w))).
Proof.
  unfold try_finally.
  destruct (m w) as [[x | e msg |] w1 e1]; cbn [out fin evs];
    try discriminate;
    destruct (f w1) as [[[] | e' msg' |] w2 e2]; cbn [out fin evs];
    try discriminate; intros H; inversion H; subst; auto.
Qed.

(** How a sequence that returns ends. *)
Lemma bind_ends {A B} (m : M A) (k : A -> M B) w b (ev : event) :
  out (bind m k w) = Ret b ->
  (forall a, out (k a (fin (m w))) = Ret b ->
             exists pre, evs (k a (fin (m w))) = pre ++ [ev]) ->
  exists pre, evs (bind m k w) = pre ++ [ev].
Proof.
  intros H Hk. apply bind_ret_inv in H.
  destruct H as [a [_ [H [_ He]]]]. destruct (Hk a H) as [pre Hpre].
  exists (evs (m w) ++ pre). rewrite He, Hpre, app_assoc. reflexivity.
Qed.

Lemma bind_ends_in {A B} (m : M A) (k : A -> M B) w b (P : world -> Prop) :
  out (bind m k w) = Ret b ->
  (forall a, out (k a (fin (m w))) = Ret b -> P (fin (k a (fin (m w))))) ->
  P (fin (bind m k w)).
Proof.
  intros H Hk. apply bind_ret_inv in H.
  destruct H as [a [_ [H [Hf _]]]]. rewrite Hf. exact (Hk a H).
Qed.

Lemma serial_close_evs w :
  out (serial_close w) = Ret tt -> evs (serial_close w) = [Call ser_close].
Proof.
  unfold serial_close. intros H. rewrite bind_evs, call_unit_evs.
  apply bind_ret_inv in H. destruct H as [[] [H _]]. rewrite H.
  reflexivity.
Qed.

(** The last thing the [finally] block does is to close the port. *)
Lemma teardown_ends_with_close saved w :
  out (teardown saved w) = Ret tt ->
  exists pre, evs (teardown saved w) = pre ++ [Call ser_close].
Proof.
  unfold teardown. intros H.
  do 6 (eapply bind_ends; [exact H | clear H; intros [] H]).
  exists []. apply serial_close_evs. exact H.
Qed.

(** A session that returns has been through its teardown: the port is
    closed, and closing it was the last thing done. *)
Lemma session_returns_closed v fuel w :
  out (session v fuel w) = Ret tt ->
  is_open (ser (fin (session v fuel w))) = false /\
  exists pre, evs (session v fuel w) = pre ++ [Call ser_close].
Proof.
  unfold session. intros H. split.
  - eapply bind_ends_in; [exact H | clear H; intros saved H].
    apply try_finally_ret_inv in H. destruct H as (_ & Htd & Hf & _).
    rewrite Hf. apply teardown_closes. exact Htd.
  - eapply bind_ends; [exact H | clear H; intros saved H].
    apply try_finally_ret_inv in H. destruct H as (_ & Htd & _ & He).
    destruct (teardown_ends_with_close _ _ Htd) as [pre Hpre].
    rewrite He, Hpre. eexists. apply app_assoc.
Qed.

Lemma serve_returns_closed v fuel w c :
  out (serve v fuel w) = Ret c ->
  is_open (ser (fin (serve v fuel w))) = false /\
  exists pre, evs (serve v fuel w) = pre ++ [Call ser_close].
Proof.
  unfold serve. intros H. split.
  - do 3 (eapply bind_ends_in; [exact H | clear H; intros [] H]).
    apply bind_ret_inv in H. destruct H as [[] [Hs [_ [Hf _]]]].
    rewrite Hf. exact (proj1 (session_returns_closed _ _ _ Hs)).
  - do 3 (eapply bind_ends; [exact H | clear H; intros [] H]).
    apply bind_ret_inv in H. destruct H as [[] [Hs [_ [_ He]]]].
    destruct (session_returns_closed _ _ _ Hs) as [_ [pre Hpre]].
    rewrite He, Hpre. exists pre. apply app_nil_r.
Qed.

(** A turn that touched the serial device and came to its end. *)
Lemma main_body_returns_closed v fuel w c :
  out (main_body v fuel w) = Ret c ->
  count is_serial_call (evs (main_body v fuel w)) <> 0%nat ->
  is_open (ser (fin (main_body v fuel w))) = false /\
  exists pre, evs (main_body v fuel w) = pre ++ [Call ser_close].
Proof.
  intros Ho Hc.
  pose proof (wait_client_no_serial fuel (set_client None w)) as Hns.
  destruct (wait_client fuel (set_client None w)) as [o w1 e1] eqn:Hw.
  cbn [evs] in Hns.
  assert (Hnone : evs (main_body v fuel w) = e1 -> False).
  { intros He. apply Hc. rewrite He. apply count_none. exact Hns. }
  destruct o as [[] | e msg |];
    try (exfalso; apply Hnone;
         rewrite main_body_no_client by (rewrite Hw; left; discriminate);
         rewrite Hw; reflexivity).
  destruct (addr w1) as [[h p] |] eqn:Ha;
    [| exfalso; apply Hnone;
       rewrite main_body_no_client by (rewrite Hw; right; exact Ha);
       rewrite Hw; reflexivity ].
  rewrite (@main_body_after_accept v fuel w w1 e1 h p Hw Ha) in *.
  destruct (str_in_list h IP_WHITELIST) eqn:Hin; cbn [negb out fin evs] in *.
  - destruct (@serve_returns_closed _ _ _ _ Ho) as [Hcl [pre Hpre]].
    split; [exact Hcl |]. rewrite Hpre. exists (e1 ++ pre).
    rewrite app_assoc. reflexivity.
  - exfalso. apply Hc. rewrite count_app, (count_none is_serial_call Hns).
    apply count_none. apply deny_no_serial.
Qed.

(** What a turn adds to the events of its body: at most the log line of
    an outer handler. *)
Lemma main_iteration_evs v fuel w :
  exists tail,
    evs (main_iteration v fuel w) = evs (main_body v fuel w) ++ tail /\
    Forall no_serial_call tail.
Proof.
  unfold main_iteration, try_except.
  destruct (main_body v fuel w) as [[c | e msg |] w1 e1]; cbn [evs];
    try (exists []; rewrite app_nil_r; split; [reflexivity | constructor]).
  destruct (isinstance e KeyboardInterrupt);
    [| destruct (isinstance e socket_error)]; cbn;
    try (exists []; rewrite app_nil_r; split; [reflexivity | constructor]);
    eexists; (split; [reflexivity |]); repeat constructor.
Qed.

Lemma main_iteration_starts_with_accept v fuel w :
  exists rest, evs (main_iteration v (S fuel) w) = Call srv_accept :: rest.
Proof.
  unfold main_iteration. apply try_except_starts.
  apply main_body_starts_with_accept.
Qed.

Lemma split_in_app (l1 l2 pre post : list event) ev :
  l1 ++ l2 = pre ++ ev :: post ->
  (exists post', l1 = pre ++ ev :: post') \/
  (exists pre', pre = l1 ++ pre' /\ l2 = pre' ++ ev :: post).
Proof.
  revert pre. induction l1 as [| x l1 IH]; intros pre H.
  - right. exists pre. split; [reflexivity | exact H].
  - destruct pre as [| y pre]; cbn [app] in H.
    + inversion H. subst. left. exists l1. reflexivity.
    + inversion H. subst.
      destruct (IH _ H2) as [[post' ->] | [pre' [-> ->]]].
      * left. exists post'. reflexivity.
      * right. exists pre'. split; reflexivity.
Qed.

Lemma main_iteration_serial_after_accept v fuel w pre ev post :
  evs (main_iteration v fuel w) = pre ++ ev :: post ->
  is_serial_call ev = true -> In (Call srv_accept) pre.
Proof.
  intros Heq Hev. destruct (main_iteration_evs v fuel w) as [tail [He Ht]].
  rewrite He in Heq.
  destruct (split_in_app _ _ _ _ _ Heq) as [[post' H] | [pre' [_ H]]].
  - exact (proj1 (main_body_serial_after_accept _ _ _ _ _ _ H Hev)).
  - exfalso. rewrite H in Ht. apply Forall_app in Ht. destruct Ht as [_ Ht].
    inversion Ht as [| ? ? Hx _]; subst. unfold no_serial_call in Hx.
    congruence.
Qed.

Lemma main_loop_serial_after_accept v fuel turns :
  forall w pre ev post,
  evs (main_loop v fuel turns w) = pre ++ ev :: post ->
  is_serial_call ev = true -> In (Call srv_accept) pre.
Proof.
  induction turns as [| turns IH]; intros w pre ev post Heq Hev.
  - cbn in Heq. destruct pre; discriminate.
  - cbn [main_loop] in Heq. rewrite bind_evs in Heq.
    destruct (split_in_app _ _ _ _ _ Heq) as [[post' H] | [pre' [-> H]]].
    + exact (main_iteration_serial_after_accept _ _ _ _ _ _ H Hev).
    + apply in_or_app. right.
      destruct (out (main_iteration v fuel w)) as [[|] | |];
        try (destruct pre'; discriminate).
      exact (IH _ _ _ _ H Hev).
Qed.

(** C1 (amended): every turn of the main loop starts by waiting for a
    client; while it waits it makes no call on the serial device.  A call
    on the serial device, the attempt to open it included, occurs in a turn
    only after an [accept], for a client that passed the probe and is on the
    allowlist, and in the whole run of the loop only after an [accept].
    When the teardown of a session has run to its end the port is closed
    and closing it was the last thing the teardown did; a turn that
    touched the serial device and came to its end has ended with that
    teardown: the port is closed and [ser.close()] was the turn's last
    event.  After a turn the loop does nothing before its next turn, which
    starts, again, with [accept]: the port is reopened only once the next
    client is accepted. *)
Theorem client_first_then_serial (v : Z) (fuel : nat) (w : world) :
  (exists rest, evs (main_body v (S fuel) w) = Call srv_accept :: rest) /\
  Forall no_serial_call (evs (wait_client fuel (set_client None w))) /\
  (forall pre ev post,
     evs (main_body v fuel w) = pre ++ ev :: post ->
     is_serial_call ev = true ->
     In (Call srv_accept) pre /\
     out (wait_client fuel (set_client None w)) = Ret tt /\
     exists h p,
       addr (fin (wait_client fuel (set_client None w))) = Some (h, p) /\
       str_in_list h IP_WHITELIST = true) /\
  (forall saved, out (teardown saved w) = Ret tt ->
     is_open (ser (fin (teardown saved w))) = false /\
     exists pre, evs (teardown saved w) = pre ++ [Call ser_close]) /\
  (forall c, out (main_body v fuel w) = Ret c ->
     count is_serial_call (evs (main_body v fuel w)) <> 0%nat ->
     main_iteration v fuel w = main_body v fuel w /\
     c = Continue /\
     is_open (ser (fin (main_body v fuel w))) = false /\
     exists pre, evs (main_body v fuel w) = pre ++ [Call ser_close]) /\
  (out (main_iteration v (S fuel) w) = Ret Continue ->
   forall turns, exists rest,
     evs (main_loop v (S fuel) (S (S turns)) w) =
       evs (main_iteration v (S fuel) w) ++ Call srv_accept :: rest) /\
  (forall turns pre ev post,
     evs (main_loop v fuel turns w) = pre ++ ev :: post ->
     is_serial_call ev = true -> In (Call srv_accept) pre).
Proof.
  split; [apply main_body_starts_with_accept |].
  split; [apply wait_client_no_serial |].
  split; [apply main_body_serial_after_accept |].
  split.
  { intros saved H. split; [apply teardown_closes; exact H |].
    apply teardown_ends_with_close. exact H. }
  split.
  { intros c Ho Hc.
    split.
    { unfold main_iteration, try_except.
      destruct (main_body v fuel w) as [[x | e msg |] w1 e1];
        cbn [out] in Ho; try discriminate. reflexivity. }
    split.
    { destruct c; [reflexivity | exfalso].
      unfold main_body in Ho.
      do 3 (apply bind_ret_inv in Ho; destruct Ho as [? [_ [Ho _]]]).
      destruct (negb _).
      - unfold deny in Ho.
        do 2 (apply bind_ret_inv in Ho; destruct Ho as [? [_ [Ho _]]]).
        discriminate Ho.
      - unfold serve in Ho.
        do 4 (apply bind_ret_inv in Ho; destruct Ho as [? [_ [Ho _]]]).
        discriminate Ho. }
    apply (@main_body_returns_closed _ _ _ _ Ho Hc). }
  split.
  { intros Ho turns. cbn [main_loop]. rewrite bind_evs, Ho.
    destruct (main_iteration_starts_with_accept v fuel
                (fin (main_iteration v (S fuel) w))) as [rest Hrest].
    rewrite bind_evs, Hrest. eexists. cbn [app]. reflexivity. }
  intros turns. apply main_loop_serial_after_accept.
Qed.

Lemma client_first_then_serial_witness :
  out (main_body 0 3 (started_on_usb0 two_sessions)) = Ret Continue /\
  is_open (ser (fin (main_body 0 3 (started_on_usb0 two_sessions))))
    = false /\
  (exists pre,
     evs (main_body 0 3 (started_on_usb0 two_sessions))
       = pre ++ [Call ser_close]) /\
  (exists rest,
     evs (main_loop 0 3 2 (started_on_usb0 two_sessions)) =
       evs (main_iteration 0 3 (started_on_usb0 two_sessions))
         ++ Call srv_accept :: rest).
Proof.
  destruct (client_first_then_serial 0 3 (started_on_usb0 two_sessions))
    as (_ & _ & _ & _ & H5 & _).
  destruct (client_first_then_serial 0 2 (started_on_usb0 two_sessions))
    as (_ & _ & _ & _ & _ & H6 & _).
  assert (Ho : out (main_body 0 3 (started_on_usb0 two_sessions))
               = Ret Continue) by (vm_compute; reflexivity).
  destruct (H5 Continue Ho ltac:(vm_compute; discriminate))
    as (_ & _ & Hcl & Hpre).
  split; [exact Ho |]. split; [exact Hcl |]. split; [exact Hpre |].
  exact (H6 ltac:(vm_compute; reflexivity) 0%nat).
Defined.

(** *** The session and its teardown *)

Lemma shortcircuit_keeps_client fuel : preserves has_client (shortcircuit fuel).
Proof.
  assert (H : preserves has_client (writer_loop fuel)).
  { induction fuel as [|fuel IH]; cbn [writer_loop];
      preserves_crawl client_side. }
  unfold shortcircuit, writer, stop. preserves_crawl client_side.
Qed.

Lemma shortcircuit_no_apply_settings fuel :
  emits no_apply_settings (shortcircuit fuel).
Proof.
  assert (H : emits no_apply_settings (writer_loop fuel)).
  { induction fuel as [|fuel IH]; cbn [writer_loop]; emits_crawl. }
  unfold shortcircuit, writer, stop. emits_crawl.
Qed.

Lemma connect_no_apply_settings v : emits no_apply_settings (connect v).
Proof. unfold connect, __init__. emits_crawl. Qed.

(** The [finally] block, when each of its calls returns. *)
Lemma teardown_runs saved w s sc :
  started w -> client w = Some s ->
  script w = Done :: Done :: Done :: Done :: Done :: sc ->
  out (teardown saved w) = Ret tt /\
  ser (fin (teardown saved w)) =
    mkSerial (ser_name (ser w)) false false false saved (wire (ser w)) /\
  client (fin (teardown saved w)) = Some (with_closed true s) /\
  alive (rd (fin (teardown saved w))) = Some false /\
  script (fin (teardown saved w)) = sc /\
  count is_apply_settings (evs (teardown saved w)) = 1%nat /\
  In (Call (ser_apply_settings saved)) (evs (teardown saved w)) /\
  In (Call sock_close) (evs (teardown saved w)) /\
  In (Call (ser_set_dtr false)) (evs (teardown saved w)) /\
  In (Call (ser_set_rts false)) (evs (teardown saved w)) /\
  In (Call ser_close) (evs (teardown saved w)).
Proof.
  destruct w as [[nm op dt rt cf wi] c a [al lk tr tp dbg] scr].
  unfold started. cbn [alive thread_read thread_poll rd client script].
  intros [Ha [Hr Hp]] -> ->.
  destruct al as [b |]; [| congruence].
  destruct tr; [| congruence]. destruct tp; [| congruence].
  unfold teardown, stop.
  destruct b; run; cbn;
    (repeat split; try reflexivity; auto 20).
Qed.

(** What [try]/[finally] of lines 298-313 guarantees.  Once the snapshot
    is taken, DTR and RTS are asserted and the Redirector is constructed,
    then however [shortcircuit] ends, by returning (peer closed, I/O error)
    or by raising, the [finally] block runs; its calls returning, the
    snapshot is reapplied, exactly once in the whole session, DTR and RTS
    are deasserted, the client socket and the serial port are closed, the
    flag is false, and the session ends the way [shortcircuit] ended. *)
Theorem teardown_always_runs (v : Z) (fuel : nat) (w : world)
    (sc0 sc : list reply) :
  client w <> None ->
  script w = Done :: Done :: Done :: sc0 ->
  out (shortcircuit fuel (fin (connect v w))) <> Blocked ->
  script (fin (shortcircuit fuel (fin (connect v w))))
    = Done :: Done :: Done :: Done :: Done :: sc ->
  out (connect v w) = Ret (cfg (ser w)) /\
  dtr (ser (fin (connect v w))) = true /\
  rts (ser (fin (connect v w))) = true /\
  out (session v fuel w) = out (shortcircuit fuel (fin (connect v w))) /\
  count is_apply_settings (evs (session v fuel w)) = 1%nat /\
  In (Call (ser_apply_settings (cfg (ser w)))) (evs (session v fuel w)) /\
  In (Call (ser_set_dtr false)) (evs (session v fuel w)) /\
  In (Call (ser_set_rts false)) (evs (session v fuel w)) /\
  In (Call sock_close) (evs (session v fuel w)) /\
  In (Call ser_close) (evs (session v fuel w)) /\
  cfg (ser (fin (session v fuel w))) = cfg (ser w) /\
  dtr (ser (fin (session v fuel w))) = false /\
  rts (ser (fin (session v fuel w))) = false /\
  is_open (ser (fin (session v fuel w))) = false /\
  option_map sock_closed (client (fin (session v fuel w))) = Some true /\
  alive (rd (fin (session v fuel w))) = Some false.
Proof.
  intros Hcl Hsc.
  assert (Hc : exists w0 e0,
            connect v w = mkRes (Ret (cfg (ser w))) w0 e0 /\
            dtr (ser w0) = true /\ rts (ser w0) = true /\
            client w0 = client w).
  { destruct w as [[nm op dt rt cf wi] c a r scr].
    cbn [script] in Hsc. subst scr.
    unfold connect, __init__. run. do 2 eexists. repeat split. }
  destruct Hc as (w0 & e0 & Hc & Hdtr & Hrts & Hcl0).
  rewrite Hc. cbn [out fin]. intros Hout Hsc1.
  pose proof (connect_no_apply_settings v w) as He0. rewrite Hc in He0.
  cbn [evs] in He0.
  pose proof (shortcircuit_no_apply_settings fuel w0) as He1.
  pose proof (RedirectorFacts.shortcircuit_started fuel w0) as Hst.
  assert (Hcl1 : client (fin (shortcircuit fuel w0)) <> None).
  { apply shortcircuit_keeps_client. unfold has_client. congruence. }
  unfold session. erewrite bind_ret_eq by exact Hc. cbn [out fin evs].
  unfold try_finally.
  destruct (shortcircuit fuel w0) as [o w1 e1]. cbn [out fin evs] in *.
  destruct (client w1) as [s |] eqn:Hs; [| congruence].
  destruct (@teardown_runs (cfg (ser w)) w1 s sc Hst Hs Hsc1)
    as (Ht & Hser & Hcs & Hal & _ & Hcnt & Hi1 & Hi2 & Hi3 & Hi4 & Hi5).
  destruct (teardown (cfg (ser w)) w1) as [o2 w2 e2].
  cbn [out fin evs] in *. subst o2.
  assert (Hcount : count is_apply_settings (e0 ++ e1 ++ e2) = 1%nat).
  { rewrite !count_app, (count_none is_apply_settings He0),
      (count_none is_apply_settings He1), Hcnt. reflexivity. }
  assert (Hin : forall ev, In ev e2 -> In ev (e0 ++ e1 ++ e2)).
  { intros ev H. apply in_or_app. right. apply in_or_app. right. exact H. }
  destruct o as [[] | e msg |]; [| | congruence]; cbn [out fin evs];
    rewrite Hser, Hcs, Hal; cbn; auto 20.
Qed.

Lemma teardown_always_runs_witness :
  out (session 0 2 (world_of stopped reconfigured_session)) = Ret tt /\
  cfg (ser (fin (Redirector.shortcircuit 2
                   (fin (connect 0 (world_of stopped reconfigured_session))))))
    = [("baudrate", 115200)] /\
  cfg (ser (fin (session 0 2 (world_of stopped reconfigured_session))))
    = [("baudrate", 9600)] /\
  is_open (ser (fin (session 0 2 (world_of stopped reconfigured_session))))
    = false.
Proof.
  pose proof (@teardown_always_runs 0 2
                (world_of stopped reconfigured_session)
                (skipn 3 reconfigured_session) []
                ltac:(discriminate) eq_refl ltac:(discriminate) eq_refl)
    as H.
  destruct H as (_ & _ & _ & H1 & _ & _ & _ & _ & _ & _ & H2 & _ & _ & H3 & _).
  split; [rewrite H1; reflexivity |].
  split; [reflexivity |]. split; [exact H2 | exact H3].
Defined.

(** C2 does not hold of the code: the [try] of line 298 starts after the
    snapshot (line 284), the assertion of DTR and RTS (lines 287-288) and
    the construction of the Redirector (line 291).  When one of these
    raises, here the constructor, whose collaborator sends its opening
    negotiation to a client that has gone, the [finally] block is not run:
    the snapshot has been taken and is never reapplied, DTR and RTS stay
    asserted, neither the client socket nor the serial port is closed; the
    outer handler logs the error and the supervisor goes back to waiting
    for a client. *)
Lemma exception_before_try_skips_teardown :
  In (Call ser_get_settings) (evs client_gone_run) /\
  In (Call (ser_set_dtr true)) (evs client_gone_run) /\
  In NewRedirector (evs client_gone_run) /\
  In (Log "root" Logging.ERROR "Socket error: [Errno 32] Broken pipe")
     (evs client_gone_run) /\
  count is_apply_settings (evs client_gone_run) = 0%nat /\
  count (is_call sock_close) (evs client_gone_run) = 0%nat /\
  count (is_call ser_close) (evs client_gone_run) = 0%nat /\
  count is_stopping (evs client_gone_run) = 0%nat /\
  dtr (ser (fin client_gone_run)) = true /\
  rts (ser (fin client_gone_run)) = true /\
  is_open (ser (fin client_gone_run)) = true /\
  last (evs client_gone_run) NewRedirector = Call srv_accept.
Proof. vm_compute. intuition. Qed.

(** *** The flag over the life of a Redirector *)

Lemma teardown_never_sets_true saved :
  emits never_sets_alive_true (teardown saved).
Proof. unfold teardown, stop. emits_crawl. Qed.

Lemma connect_never_sets_true v : emits never_sets_alive_true (connect v).
Proof. unfold connect, __init__. emits_crawl. Qed.

Lemma shortcircuit_sets_true_first fuel w :
  exists rest, evs (shortcircuit fuel w) = SetAlive true :: rest /\
               Forall never_sets_alive_true rest.
Proof.
  unfold shortcircuit. rewrite bind_evs.
  assert (H : emits never_sets_alive_true
                (thread_start thread_read_id ;;
                 thread_start thread_poll_id ;; writer fuel)).
  { pose proof (RedirectorFacts.writer_never_sets_true fuel). emits_crawl. }
  eexists. split; [reflexivity |].
  destruct (out (set_alive true w)); try constructor. apply H.
Qed.

Lemma run_operation_keeps_false o : preserves flag_false (run_operation o).
Proof.
  destruct o; cbn [run_operation].
  - apply RedirectorFacts.statusline_poller_keeps_false.
  - apply RedirectorFacts.reader_keeps_false.
  - apply RedirectorFacts.write_keeps_false.
  - apply RedirectorFacts.writer_keeps_false.
  - apply RedirectorFacts.stop_keeps_false.
Qed.

(** C7: none of the operations of a Redirector other than [shortcircuit]
    ever assigns [True] to the flag, and each of them leaves a false flag
    false, as does any sequence of them, run against whatever the
    environment answers.  [shortcircuit] assigns [True] once, as the first
    thing it does.  The supervisor calls [shortcircuit] once on the
    Redirector it constructs for a session: in a session the flag is set
    true at most once, and no other Redirector is constructed from then to
    the end of the teardown. *)
Theorem liveness_flag_is_a_latch (v : Z) (fuel : nat) (w : world)
    (o : operation) (ops : list (operation * list reply)) :
  Forall never_sets_alive_true (evs (run_operation o w)) /\
  (exists rest, evs (shortcircuit fuel w) = SetAlive true :: rest /\
                Forall never_sets_alive_true rest) /\
  (alive (rd w) = Some false ->
   alive (rd (fin (run_operation o w))) = Some false) /\
  (alive (rd w) = Some false ->
   alive (rd (run_operations ops w)) = Some false) /\
  (count (is_set_alive true) (evs (session v fuel w)) <= 1)%nat /\
  (forall saved,
     Forall no_new_redirector
       (evs (try_finally (shortcircuit fuel) (teardown saved) w))).
Proof.
  split.
  { destruct o; cbn [run_operation].
    - apply RedirectorFacts.statusline_poller_never_sets_true.
    - apply RedirectorFacts.reader_never_sets_true.
    - apply RedirectorFacts.write_never_sets_true.
    - apply RedirectorFacts.writer_never_sets_true.
    - apply RedirectorFacts.stop_never_sets_true. }
  split; [apply shortcircuit_sets_true_first |].
  split; [apply (run_operation_keeps_false o) |].
  split.
  { revert w. induction ops as [| [o' sc'] ops IH]; intros w' H.
    - exact H.
    - cbn [run_operations]. apply IH.
      apply (run_operation_keeps_false o'). exact H. }
  split.
  { unfold session. rewrite bind_evs, count_app.
    rewrite (count_none (is_set_alive true) (connect_never_sets_true v w)).
    destruct (out (connect v w)) as [saved | |]; cbn [plus]; try (cbn; lia).
    rewrite try_finally_evs, count_app.
    destruct (shortcircuit_sets_true_first fuel (fin (connect v w)))
      as [rest [Hrest Hall]].
    rewrite Hrest.
    change (SetAlive true :: rest) with ([SetAlive true] ++ rest).
    rewrite count_app, (count_none (is_set_alive true) Hall).
    destruct (out (shortcircuit fuel (fin (connect v w))));
      try rewrite (count_none (is_set_alive true)
                     (teardown_never_sets_true saved _));
      cbn; lia. }
  intros saved.
  assert (H : emits no_new_redirector
                (try_finally (shortcircuit fuel) (teardown saved))).
  { assert (Hl : emits no_new_redirector (writer_loop fuel)).
    { induction fuel as [|fuel IH]; cbn [writer_loop]; emits_crawl. }
    unfold shortcircuit, writer, teardown, stop. emits_crawl. }
  apply H.
Qed.

Lemma liveness_flag_is_a_latch_witness :
  alive (rd (world_of stopped [])) = Some false /\
  alive (rd (run_operations
               [ (op_reader 3, device_lost); (op_stop, []);
                 (op_writer 3, filter_fails);
                 (op_statusline_poller 2, [Done; Done]) ]
               (world_of stopped []))) = Some false.
Proof.
  destruct (liveness_flag_is_a_latch 0 0 (world_of stopped []) op_stop
              [ (op_reader 3, device_lost); (op_stop, []);
                (op_writer 3, filter_fails);
                (op_statusline_poller 2, [Done; Done]) ])
    as (_ & _ & _ & H & _).
  split; [reflexivity | exact (H eq_refl)].
Defined.

End SupervisorFacts.

(* ------------------------------------------------------------------ *)
(** ** The write lock *)

Module WriteGuardFacts.
Import WriteGuard.

Unset Implicit Arguments.

Lemma nth_error_set_nth t a ts t' :
  nth_error (set_nth t a ts) t' =
    if Nat.eqb t' t
    then match nth_error ts t with
         | Some _ => Some a
         | None => None
         end
    else nth_error ts t'.
Proof.
  revert t t'. induction ts as [| x ts IH]; intros [| t] [| t']; cbn;
    try reflexivity.
  - destruct (Nat.eqb t' t); destruct t'; reflexivity.
  - apply IH.
Qed.

Lemma guarded_init todos : guarded (List.concat todos) (init todos).
Proof.
  split.
  - intros t a H. unfold init in H. cbn [threads] in H.
    apply nth_error_In in H. apply in_map_iff in H.
    destruct H as [todo [<- Hin]]. cbn [pending].
    apply Forall_forall. intros d Hd. apply in_concat. eauto.
  - exists [], []. cbn. repeat split; auto.
    intros t a H. apply nth_error_In in H. apply in_map_iff in H.
    destruct H as [todo [<- _]]. reflexivity.
Qed.

Lemma set_nth_same t a ts x :
  nth_error ts t = Some x -> nth_error (set_nth t a ts) t = Some a.
Proof. intros H. rewrite nth_error_set_nth, Nat.eqb_refl, H. reflexivity. Qed.

Lemma set_nth_other t a ts t' :
  t' <> t -> nth_error (set_nth t a ts) t' = nth_error ts t'.
Proof.
  intros H. rewrite nth_error_set_nth.
  destruct (Nat.eqb_spec t' t); [contradiction | reflexivity].
Qed.

(** After thread [t] has changed its activity to [a], whose pending
    writes were already pending: the bookkeeping of pending writes. *)
Lemma pending_set_nth all st t a x :
  (forall t' a', nth_error (threads st) t' = Some a' ->
                 Forall (fun d => In d all) (pending a')) ->
  nth_error (threads st) t = Some x ->
  Forall (fun d => In d all) (pending a) ->
  forall t' a', nth_error (set_nth t a (threads st)) t' = Some a' ->
                Forall (fun d => In d all) (pending a').
Proof.
  intros Hpend Hx Ha t' a' H.
  destruct (Nat.eq_dec t' t) as [-> | Hne].
  - erewrite set_nth_same in H by exact Hx. inversion H. subst. exact Ha.
  - rewrite set_nth_other in H by exact Hne. eapply Hpend. exact H.
Qed.

(** A thread that is inside the [with] block holds the lock. *)
Lemma sender_holds all st t sent rest todo :
  guarded all st ->
  nth_error (threads st) t = Some (Sending sent rest todo) ->
  holder st = Some t /\
  In (sent ++ rest) all /\
  (forall t' a, t' <> t -> nth_error (threads st) t' = Some a ->
                is_sending a = false) /\
  exists segs, stream st = List.concat segs ++ sent /\
               Forall (written_by_one_call all) segs.
Proof.
  intros [_ (segs & cur & Hstream & Hsegs & Hlock)] Hn.
  destruct (holder st) as [t0 |].
  - destruct Hlock as [(rest0 & todo0 & Hn0 & Hin) Hothers].
    destruct (Nat.eq_dec t t0) as [-> | Hne].
    + rewrite Hn in Hn0. inversion Hn0. subst.
      repeat split; auto. exists segs. auto.
    + specialize (Hothers t _ Hne Hn). discriminate.
  - destruct Hlock as [_ Hnone]. specialize (Hnone t _ Hn). discriminate.
Qed.

(** Leaving the [with] block, by the end of [sendall] or by its failure. *)
Lemma guarded_release all st t sent rest todo :
  guarded all st ->
  nth_error (threads st) t = Some (Sending sent rest todo) ->
  guarded all
    (mkState (set_nth t (Outside todo) (threads st)) None (stream st)).
Proof.
  intros Hg Hn.
  destruct (sender_holds _ _ _ _ _ _ Hg Hn) as (Hh & Hin & Hothers & segs & Hs & Hsegs).
  destruct Hg as [Hpend _].
  split; cbn [threads holder stream].
  - eapply pending_set_nth; eauto. exact (Hpend _ _ Hn).
  - exists (segs ++ [sent]), []. split; [| split; [| split]].
    + rewrite concat_app. cbn. rewrite !app_nil_r. exact Hs.
    + apply Forall_app. split; [exact Hsegs |].
      constructor; [| constructor].
      exists (sent ++ rest). split; [exact Hin | exists rest; reflexivity].
    + reflexivity.
    + intros t' a H. destruct (Nat.eq_dec t' t) as [-> | Hne].
      * erewrite set_nth_same in H by exact Hn. inversion H. reflexivity.
      * rewrite set_nth_other in H by exact Hne. eapply Hothers; eauto.
Qed.

Lemma guarded_step all m st : guarded all st -> guarded all (step m st).
Proof.
  intros Hg. destruct m as [t | t]; cbn [step].
  - destruct (nth_error (threads st) t)
      as [[[| d todo] | sent [| b rest] todo] |] eqn:Hn; try exact Hg.
    + (* entering the [with] block *)
      destruct (holder st) as [t0 |] eqn:Hh; [exact Hg |].
      destruct Hg as [Hpend (segs & cur & Hs & Hsegs & Hlock)].
      rewrite Hh in Hlock. destruct Hlock as [-> Hnone].
      pose proof (Hpend _ _ Hn) as Hp. cbn [pending] in Hp.
      inversion Hp as [| ? ? Hd Htodo]; subst.
      split; cbn [threads holder stream].
      * eapply pending_set_nth; eauto.
      * exists segs, []. split; [exact Hs |]. split; [exact Hsegs |].
        split.
        -- exists d, todo. split; [eapply set_nth_same; eauto | exact Hd].
        -- intros t' a Hne H. rewrite set_nth_other in H by exact Hne.
           eapply Hnone; eauto.
    + (* the end of [sendall] *)
      eapply guarded_release; eauto.
    + (* one more byte *)
      destruct (sender_holds _ _ _ _ _ _ Hg Hn) as (Hh & Hin & Hothers & segs & Hs & Hsegs).
      destruct Hg as [Hpend _].
      split; cbn [threads holder stream].
      * eapply pending_set_nth; eauto. exact (Hpend _ _ Hn).
      * exists segs, (sent ++ [b]). split; [| split].
        -- rewrite Hs, app_assoc. reflexivity.
        -- exact Hsegs.
        -- rewrite Hh. split.
           ++ exists rest, todo. split; [eapply set_nth_same; eauto |].
              rewrite <- app_assoc. exact Hin.
           ++ intros t' a Hne H. rewrite set_nth_other in H by exact Hne.
              eapply Hothers; eauto.
  - destruct (nth_error (threads st) t) as [[todo | sent rest todo] |] eqn:Hn;
      try exact Hg.
    eapply guarded_release; eauto.
Qed.

Lemma guarded_run all ms st : guarded all st -> guarded all (run ms st).
Proof.
  revert st. induction ms as [| m ms IH]; intros st Hg; cbn.
  - exact Hg.
  - apply IH. apply guarded_step. exact Hg.
Qed.

Lemma sendall_evs d w :
  client w <> None -> evs (socket_sendall d w) = [Call (sock_sendall d)].
Proof.
  intros Hc. unfold socket_sendall. rewrite !bind_evs.
  assert (Hs : exists s, the_socket w = mkRes (Ret s) w []).
  { destruct w as [sr [c|] a r sc]; [| cbn in Hc; congruence].
    eexists. reflexivity. }
  destruct Hs as [s Hs]. rewrite Hs. cbn [evs out fin app].
  rewrite SupervisorFacts.call_unit_evs.
  repeat match goal with
         | |- context [match out ?x with _ => _ end] => destruct (out x)
         end; reflexivity.
Qed.

Lemma flat_map_set_nth_same t a x ts :
  nth_error ts t = Some x -> unfinished a = unfinished x ->
  flat_map unfinished (set_nth t a ts) = flat_map unfinished ts.
Proof.
  revert t. induction ts as [| y ts IH]; intros [| t] Hn Hu; cbn in *;
    try discriminate.
  - inversion Hn. subst. rewrite Hu. reflexivity.
  - rewrite (IH t Hn Hu). reflexivity.
Qed.

Lemma flat_map_set_nth_done t a x d ts :
  nth_error ts t = Some x -> unfinished x = d :: unfinished a ->
  Permutation (d :: flat_map unfinished (set_nth t a ts))
    (flat_map unfinished ts).
Proof.
  revert t. induction ts as [| y ts IH]; intros [| t] Hn Hu; cbn in *;
    try discriminate.
  - inversion Hn. subst. rewrite Hu. reflexivity.
  - etransitivity; [apply Permutation_middle |].
    apply Permutation_app_head. apply IH; assumption.
Qed.

Lemma conserved_init todos : conserved (List.concat todos) (init todos).
Proof.
  exists []. split; [| reflexivity].
  cbn [app init threads]. rewrite flat_map_concat_map, map_map. cbn [unfinished].
  rewrite map_id. reflexivity.
Qed.

Lemma conserved_step all t st :
  guarded all st -> conserved all st -> conserved all (step (Step t) st).
Proof.
  intros Hg (segs & Hp & Hs). cbn [step].
  destruct (nth_error (threads st) t)
    as [[[| d todo] | sent [| b rest] todo] |] eqn:Hn;
    try (exists segs; split; assumption).
  - (* entering the [with] block *)
    destruct (holder st) as [t0 |] eqn:Hh;
      [exists segs; split; assumption |].
    exists segs. split.
    + cbn [threads].
      erewrite flat_map_set_nth_same by (try exact Hn; reflexivity).
      exact Hp.
    + unfold sent_so_far in *. cbn [holder threads stream].
      rewrite Hh in Hs.
      erewrite set_nth_same by exact Hn. exact Hs.
  - (* the end of [sendall] *)
    destruct (sender_holds _ _ _ _ _ _ Hg Hn) as (Hh & _).
    exists (segs ++ [sent]). split.
    + cbn [threads]. rewrite <- app_assoc. cbn [app].
      etransitivity; [| exact Hp]. apply Permutation_app_head.
      apply (flat_map_set_nth_done t (Outside todo) (Sending sent [] todo));
        [exact Hn |].
      cbn [unfinished]. rewrite app_nil_r. reflexivity.
    + unfold sent_so_far in *. cbn [holder threads stream].
      rewrite Hh, Hn in Hs. rewrite Hs, concat_app. cbn [List.concat].
      rewrite !app_nil_r. reflexivity.
  - (* one more byte *)
    destruct (sender_holds _ _ _ _ _ _ Hg Hn) as (Hh & _).
    exists segs. split.
    + cbn [threads].
      erewrite flat_map_set_nth_same; [exact Hp | exact Hn |].
      cbn [unfinished]. rewrite <- app_assoc. reflexivity.
    + unfold sent_so_far in *. cbn [holder threads stream].
      rewrite Hh, Hn in Hs. rewrite Hh.
      erewrite set_nth_same by exact Hn.
      rewrite Hs, app_assoc. reflexivity.
Qed.

Lemma conserved_run all ms :
  forall st, forallb is_step ms = true ->
  guarded all st -> conserved all st -> conserved all (run ms st).
Proof.
  induction ms as [| m ms IH]; intros st Hm Hg Hc; [exact Hc |].
  cbn [forallb] in Hm. apply andb_true_iff in Hm. destruct Hm as [Hm1 Hm2].
  destruct m as [t | t]; [| discriminate Hm1].
  unfold run. cbn [fold_left]. apply IH; [exact Hm2 | |].
  - apply guarded_step. exact Hg.
  - apply conserved_step; assumption.
Qed.

Lemma all_done_nothing_left ts :
  forallb (fun a => match a with
                    | Outside [] => true
                    | _ => false
                    end) ts = true ->
  flat_map unfinished ts = [] /\
  forall t a, nth_error ts t = Some a -> a = Outside [].
Proof.
  induction ts as [| y ts IH]; cbn [forallb flat_map]; intros H.
  - split; [reflexivity |]. intros [| t] a Hn; discriminate.
  - apply andb_true_iff in H. destruct H as [Hy Hts].
    destruct y as [[| d todo] | sent rest todo]; try discriminate.
    destruct (IH Hts) as [H1 H2]. split; [exact H1 |].
    intros [| t] a Hn; cbn in Hn; [inversion Hn; reflexivity | eauto].
Qed.

(** *** The lock in the code of the activities *)

Lemma lock_after_app h l1 l2 :
  lock_after h (l1 ++ l2) =
    match lock_after h l1 with
    | Some h' => lock_after h' l2
    | None => None
    end.
Proof.
  revert h. induction l1 as [| ev l1 IH]; intros h; [reflexivity |].
  cbn [app lock_after].
  destruct ev as [[] | | | | | | |]; try apply IH; destruct h;
    try reflexivity; apply IH.
Qed.

Lemma lock_after_neutral h l :
  Forall lock_neutral l -> lock_after h l = Some h.
Proof.
  induction 1 as [| ev l Hev _ IH]; [reflexivity |].
  destruct ev as [[] | | | | | | |]; cbn in Hev; try contradiction;
    exact IH.
Qed.

Lemma sul_neutral {A} (m : M A) : emits lock_neutral m -> sends_under_lock m.
Proof.
  intros H w. exists false. split; [| reflexivity].
  apply lock_after_neutral, H.
Qed.

Lemma sul_bind {A B} (m : M A) (k : A -> M B) :
  sends_under_lock m -> (forall a, sends_under_lock (k a)) ->
  sends_under_lock (bind m k).
Proof.
  intros Hm Hk w. unfold bind. destruct (Hm w) as [h [H1 H2]].
  destruct (m w) as [[a | e msg |] w1 e1]; cbn [out fin evs] in *.
  - rewrite (H2 ltac:(discriminate)) in H1.
    destruct (Hk a w1) as [h' [H3 H4]].
    destruct (k a w1) as [o w2 e2]. cbn [out fin evs] in *.
    exists h'. rewrite lock_after_app, H1. auto.
  - exists h. split; [exact H1 | intros _; apply H2; discriminate].
  - exists h. split; [exact H1 | intros H; congruence].
Qed.

Lemma sul_try_except {A} (m : M A) h :
  sends_under_lock m ->
  (forall e msg k, h e msg = Some k -> sends_under_lock k) ->
  sends_under_lock (try_except m h).
Proof.
  intros Hm Hh w. unfold try_except. destruct (Hm w) as [b [H1 H2]].
  destruct (m w) as [[a | e msg |] w1 e1]; cbn [out fin evs] in *;
    try (exists b; auto; fail).
  destruct (h e msg) as [k |] eqn:Hk; cbn [out fin evs]; [| exists b; auto].
  rewrite (H2 ltac:(discriminate)) in H1.
  destruct (Hh e msg k Hk w1) as [b' [H3 H4]].
  destruct (k w1) as [o w2 e2]. cbn [out fin evs] in *.
  exists b'. rewrite lock_after_app, H1. auto.
Qed.

Lemma sul_try_finally {A} (m : M A) f :
  sends_under_lock m -> sends_under_lock f ->
  sends_under_lock (try_finally m f).
Proof.
  intros Hm Hf w. unfold try_finally. destruct (Hm w) as [b [H1 H2]].
  destruct (m w) as [[a | e msg |] w1 e1]; cbn [out fin evs] in *;
    try (exists b; auto; fail);
    rewrite (H2 ltac:(discriminate)) in H1;
    destruct (Hf w1) as [b' [H3 H4]];
    destruct (f w1) as [[[] | e' msg' |] w2 e2]; cbn [out fin evs] in *;
    exists b'; rewrite lock_after_app, H1;
    (split; [exact H3 |]); intros Hx;
    first [apply H4; discriminate | congruence].
Qed.

Lemma sul_answers conn_write r :
  (forall a, sends_under_lock (conn_write a)) ->
  sends_under_lock (answers conn_write r).
Proof.
  intros H. induction r; cbn [answers];
    try (apply sul_neutral; first [apply emits_ret | apply emits_raise]).
  apply sul_bind; [apply H | intros _; exact IHr].
Qed.

(** [write] itself: the lock is taken before [sendall] and given back after
    it. *)
Lemma write_under_lock d : sends_under_lock (Redirector.write d).
Proof.
  intros w. unfold Redirector.write.
  destruct (write_lock (rd w)) eqn:Hl.
  - assert (Ha : lock_acquire w = mkRes Blocked w []).
    { destruct w as [sr c a [al lk tr tp dbg] sc]. cbn in Hl. subst lk.
      reflexivity. }
    erewrite bind_blocked_eq by exact Ha. exists false. cbn. auto.
  - assert (Ha : lock_acquire w =
                   mkRes (Ret tt) (set_rd (with_lock true (rd w)) w)
                     [LockAcquire]).
    { destruct w as [sr c a [al lk tr tp dbg] sc]. cbn in Hl. subst lk.
      reflexivity. }
    erewrite bind_ret_eq by exact Ha. cbn [out fin evs app].
    set (w1 := set_rd (with_lock true (rd w)) w).
    unfold try_finally.
    destruct (client w1) as [s |] eqn:Hc.
    + pose proof (sendall_evs d w1 ltac:(congruence)) as He.
      destruct (socket_sendall d w1) as [[[] | e msg |] w2 e2];
        cbn [evs] in He; subst e2; cbn [out fin evs app lock_release bind emit on_rd modify lock_after];
        eexists; split; try reflexivity; auto; intros H; congruence.
    + assert (Hs : socket_sendall d w1 =
                mkRes (Exc AttributeError
                         "'NoneType' object has no attribute") w1 []).
      { destruct w1 as [sr [c |] a r sc]; [discriminate Hc | reflexivity]. }
      rewrite Hs. cbn. eexists. split; [reflexivity | auto].
Qed.

Ltac locks_step :=
  match goal with
  | |- sends_under_lock _ => solve [auto with crawl nocore]
  | |- sends_under_lock (Redirector.write _) => apply write_under_lock
  | |- sends_under_lock _ => solve [apply sul_neutral; emits_crawl]
  | |- sends_under_lock (bind _ _) => apply sul_bind; [| intro]
  | |- sends_under_lock (try_except _ _) =>
      let H := fresh "Hh" in
      apply sul_try_except; [| intros ? ? ? H; handler_cases H]
  | |- sends_under_lock (try_finally _ _) => apply sul_try_finally
  | |- sends_under_lock (answers _ _) => apply sul_answers; intro
  | |- sends_under_lock (match ?x with _ => _ end) => destruct x
  | |- sends_under_lock _ =>
      progress unfold rfc2217_filter, rfc2217_check_modem_lines,
        rfc2217_PortManager
  end.
Ltac locks_crawl := repeat locks_step.

Lemma reader_under_lock fuel : sends_under_lock (Redirector.reader fuel).
Proof.
  assert (H : sends_under_lock (Redirector.reader_loop fuel)).
  { induction fuel as [| fuel IH]; cbn [Redirector.reader_loop];
      locks_crawl. }
  unfold Redirector.reader. locks_crawl.
Qed.

Lemma writer_under_lock fuel : sends_under_lock (Redirector.writer fuel).
Proof.
  assert (H : sends_under_lock (Redirector.writer_loop fuel)).
  { induction fuel as [| fuel IH]; cbn [Redirector.writer_loop];
      locks_crawl. }
  unfold Redirector.writer, Redirector.stop. locks_crawl.
Qed.

Lemma poller_under_lock fuel :
  sends_under_lock (Redirector.statusline_poller fuel).
Proof.
  assert (H : sends_under_lock (Redirector.statusline_poller_loop fuel)).
  { induction fuel as [| fuel IH]; cbn [Redirector.statusline_poller_loop];
      locks_crawl. }
  unfold Redirector.statusline_poller. locks_crawl.
Qed.

Lemma init_under_lock dbg : sends_under_lock (Redirector.__init__ dbg).
Proof. unfold Redirector.__init__. locks_crawl. Qed.

(** C8: every send on the client socket is made through [Redirector.write]
    and holding the lock.  [write] takes the lock, calls [sendall] and
    gives the lock back when [sendall] is over: when it returned, the bytes
    are on the socket; when it raised, the exception goes on to the
    caller; while it is under way the lock is held; when the lock is taken
    [write] waits and sends nothing.  In the code of the reader, of the
    writer and of the poller, where the collaborator sends its answers and
    notifications through [write] in the thread that called it, and of the
    constructor, every [sendall] lies between taking the lock and giving it
    back.  With any number of threads writing through [write], in any
    interleaving of their steps: at most one thread is inside [sendall]; a
    thread that wants to write while another holds the lock does nothing;
    a byte is put on the stream only by the holder of the lock, and is the
    next byte of its write; the stream is a concatenation of pieces each
    of which comes from one call of [write]; and, no [sendall] failing, it
    is at every moment a sequence of whole writes followed by the part
    sent so far of the one write under way, the writes sent and those
    still to be sent being together the writes asked for.  The bytes of
    two writes are never mixed. *)
Theorem writes_never_interleave (todos : list (list bytes))
    (ms : list move) (d : bytes) (fuel : nat) (dbg : bool) (w : world) :
  (forall s, write_lock (rd w) = false -> client w = Some s ->
     (forall sc, script w = Done :: sc ->
        Redirector.write d w =
          mkRes (Ret tt)
            (set_script sc (set_client (Some (with_tx (tx s ++ d) s)) w))
            [LockAcquire; Call (sock_sendall d); LockRelease]) /\
     (forall e msg sc, script w = Raise e msg :: sc ->
        Redirector.write d w =
          mkRes (Exc e msg) (set_script sc w)
            [LockAcquire; Call (sock_sendall d); LockRelease]) /\
     (script w = [] ->
        Redirector.write d w =
          mkRes Blocked (set_rd (with_lock true (rd w)) w)
            [LockAcquire; Call (sock_sendall d)])) /\
  (write_lock (rd w) = true -> Redirector.write d w = mkRes Blocked w []) /\
  (sends_under_lock (Redirector.write d) /\
   sends_under_lock (Redirector.reader fuel) /\
   sends_under_lock (Redirector.writer fuel) /\
   sends_under_lock (Redirector.statusline_poller fuel) /\
   sends_under_lock (Redirector.__init__ dbg)) /\
  (forall t1 t2 a1 a2,
     nth_error (threads (run ms (init todos))) t1 = Some a1 ->
     nth_error (threads (run ms (init todos))) t2 = Some a2 ->
     is_sending a1 = true -> is_sending a2 = true ->
     t1 = t2 /\ holder (run ms (init todos)) = Some t1) /\
  (forall t t' d' todo,
     holder (run ms (init todos)) = Some t' ->
     nth_error (threads (run ms (init todos))) t
       = Some (Outside (d' :: todo)) ->
     step (Step t) (run ms (init todos)) = run ms (init todos)) /\
  (forall t d' todo,
     holder (run ms (init todos)) = None ->
     nth_error (threads (run ms (init todos))) t
       = Some (Outside (d' :: todo)) ->
     holder (step (Step t) (run ms (init todos))) = Some t /\
     nth_error (threads (step (Step t) (run ms (init todos)))) t
       = Some (Sending [] d' todo) /\
     stream (step (Step t) (run ms (init todos)))
       = stream (run ms (init todos))) /\
  (forall t sent rest todo,
     nth_error (threads (run ms (init todos))) t
       = Some (Sending sent rest todo) ->
     holder (step (Fail t) (run ms (init todos))) = None /\
     nth_error (threads (step (Fail t) (run ms (init todos)))) t
       = Some (Outside todo) /\
     match rest with
     | [] =>
         holder (step (Step t) (run ms (init todos))) = None /\
         nth_error (threads (step (Step t) (run ms (init todos)))) t
           = Some (Outside todo)
     | b :: rest' =>
         holder (step (Step t) (run ms (init todos))) = Some t /\
         nth_error (threads (step (Step t) (run ms (init todos)))) t
           = Some (Sending (sent ++ [b]) rest' todo) /\
         stream (step (Step t) (run ms (init todos)))
           = stream (run ms (init todos)) ++ [b]
     end) /\
  (forall m,
     stream (step m (run ms (init todos))) = stream (run ms (init todos)) \/
     exists t sent b rest todo,
       m = Step t /\
       holder (run ms (init todos)) = Some t /\
       nth_error (threads (run ms (init todos))) t
         = Some (Sending sent (b :: rest) todo) /\
       stream (step m (run ms (init todos)))
         = stream (run ms (init todos)) ++ [b]) /\
  (exists segs,
     stream (run ms (init todos)) = List.concat segs /\
     Forall (written_by_one_call (List.concat todos)) segs) /\
  (forallb is_step ms = true ->
   conserved (List.concat todos) (run ms (init todos))).
Proof.
  pose proof (guarded_run _ ms _ (guarded_init todos)) as Hg.
  split; [| split; [| split; [| split; [| split; [| split;
    [| split; [| split; [| split]]]]]]]].
  - intros [rx0 cl nd bl tx0] Hl Hc.
    destruct w as [sr c a [al lk tr tp dbg0] sc0].
    cbn [write_lock rd client script] in *. subst lk c.
    split; [| split].
    + intros sc ->. unfold Redirector.write. run. reflexivity.
    + intros e msg sc ->. unfold Redirector.write. run. reflexivity.
    + intros ->. unfold Redirector.write. run. reflexivity.
  - intros Hl. destruct w as [sr c a [al lk tr tp dbg0] sc]. cbn in Hl.
    subst lk. reflexivity.
  - split; [apply write_under_lock |].
    split; [apply reader_under_lock |].
    split; [apply writer_under_lock |].
    split; [apply poller_under_lock | apply init_under_lock].
  - intros t1 t2 a1 a2 H1 H2 Hs1 Hs2.
    destruct a1 as [| sent1 rest1 todo1]; [discriminate |].
    destruct a2 as [| sent2 rest2 todo2]; [discriminate |].
    destruct (sender_holds _ _ _ _ _ _ Hg H1) as (Hh1 & _).
    destruct (sender_holds _ _ _ _ _ _ Hg H2) as (Hh2 & _).
    split; [congruence | exact Hh1].
  - intros t t' d' todo Hh Hn. cbn [step]. rewrite Hn, Hh.
    destruct (run ms (init todos)); reflexivity.
  - intros t d' todo Hh Hn. cbn [step]. rewrite Hn, Hh.
    cbn [holder threads stream].
    split; [reflexivity |]. split; [| reflexivity].
    eapply set_nth_same. exact Hn.
  - intros t sent rest todo Hn.
    destruct (sender_holds _ _ _ _ _ _ Hg Hn) as (Hh & _).
    cbn [step]. rewrite Hn. cbn [holder threads stream].
    split; [reflexivity |].
    split; [eapply set_nth_same; exact Hn |].
    destruct rest as [| b rest']; cbn [holder threads stream].
    + split; [reflexivity | eapply set_nth_same; exact Hn].
    + split; [exact Hh |].
      split; [eapply set_nth_same; exact Hn | reflexivity].
  - intros m. destruct m as [t | t]; cbn [step].
    + destruct (nth_error (threads (run ms (init todos))) t)
        as [[[| d' todo] | sent [| b rest] todo] |] eqn:Hn;
        try (left; reflexivity).
      * destruct (holder (run ms (init todos))); left; reflexivity.
      * right. exists t, sent, b, rest, todo.
        destruct (sender_holds _ _ _ _ _ _ Hg Hn) as (Hh & _).
        repeat split; auto.
    + destruct (nth_error (threads (run ms (init todos))) t)
        as [[todo | sent rest todo] |]; left; reflexivity.
  - destruct Hg as [_ (segs & cur & Hs & Hsegs & Hlock)].
    destruct (holder (run ms (init todos))) as [t |].
    + destruct Hlock as [(rest & todo & _ & Hin) _].
      exists (segs ++ [cur]). split.
      * rewrite concat_app. cbn. rewrite app_nil_r. exact Hs.
      * apply Forall_app. split; [exact Hsegs |].
        constructor; [| constructor].
        exists (cur ++ rest). split; [exact Hin | exists rest; reflexivity].
    + destruct Hlock as [-> _]. exists segs. rewrite app_nil_r in Hs. auto.
  - intros Hm.
    exact (conserved_run _ ms (init todos) Hm (guarded_init todos)
             (conserved_init todos)).
Qed.

(** Two threads, the second of which asks for the lock twice while the
    first is sending. *)
Lemma writes_never_interleave_witness :
  write_lock (rd (world_of running [Done])) = false /\
  Redirector.write ["a"%byte] (world_of running [Done]) =
    mkRes (Ret tt)
      (mkWorld (mkSerial "/dev/ttyUSB0" true true true [("baudrate", 9600)] [])
         (Some (mkSocket [] false true false ["a"%byte]))
         (Some ("127.0.0.1"%string, 50000)) running [])
      [LockAcquire; Call (sock_sendall ["a"%byte]); LockRelease] /\
  forallb is_step
    [Step 0; Step 1; Step 0; Step 1; Step 0; Step 0; Step 1; Step 1;
     Step 1]%nat = true /\
  holder (run [Step 0; Step 1; Step 0]%nat
            (init [[["a"%byte; "b"%byte]]; [["x"%byte]]])) = Some 0%nat /\
  step (Step 1)
    (run [Step 0; Step 1; Step 0]%nat
       (init [[["a"%byte; "b"%byte]]; [["x"%byte]]]))
    = run [Step 0; Step 1; Step 0]%nat
        (init [[["a"%byte; "b"%byte]]; [["x"%byte]]]) /\
  conserved [["a"%byte; "b"%byte]; ["x"%byte]]
    (run [Step 0; Step 1; Step 0; Step 1; Step 0; Step 0; Step 1; Step 1;
          Step 1]%nat
       (init [[["a"%byte; "b"%byte]]; [["x"%byte]]])) /\
  stream
    (run [Step 0; Step 1; Step 0; Step 1; Step 0; Step 0; Step 1; Step 1;
          Step 1]%nat
       (init [[["a"%byte; "b"%byte]]; [["x"%byte]]]))
    = ["a"%byte; "b"%byte; "x"%byte].
Proof.
  destruct (writes_never_interleave
              [[["a"%byte; "b"%byte]]; [["x"%byte]]]
              [Step 0; Step 1; Step 0; Step 1; Step 0; Step 0; Step 1;
               Step 1; Step 1]%nat
              ["a"%byte] 0 false (world_of running [Done]))
    as (H1 & _ & _ & _ & _ & _ & _ & _ & _ & H8).
  destruct (writes_never_interleave
              [[["a"%byte; "b"%byte]]; [["x"%byte]]]
              [Step 0; Step 1; Step 0]%nat
              ["a"%byte] 0 false (world_of running [Done]))
    as (_ & _ & _ & _ & H5 & _).
  destruct (H1 (mkSocket [] false true false []) eq_refl eq_refl)
    as (H1a & _).
  split; [reflexivity |].
  split; [exact (H1a [] eq_refl) |].
  split; [reflexivity |].
  split; [reflexivity |].
  split; [exact (H5 1%nat 0%nat ["x"%byte] [] eq_refl eq_refl) |].
  split; [exact (H8 eq_refl) | reflexivity].
Defined.

End WriteGuardFacts.

(* ================================================================== *)
(** * Further properties *)

(* ------------------------------------------------------------------ *)
(** ** The two waiting loops of the main loop *)

Module RetryFacts.

Unset Implicit Arguments.


Lemma try_except_uncaught {A} (m : M A) h w e msg w1 e1 :
  m w = mkRes (Exc e msg) w1 e1 -> h e msg = None ->
  try_except m h w = mkRes (Exc e msg) w1 e1.
Proof. intros Hm Hh. unfold try_except. rewrite Hm, Hh. reflexivity. Qed.


Lemma do_call_prefix c w : exists tail, evs (do_call c w) = [Call c] ++ tail.
Proof. unfold do_call. apply bind_prefix_left. exists []. reflexivity. Qed.


(** *** Waiting for the serial port (lines 258-278) *)

Lemma wait_serial_open fuel w :
  is_open (ser w) = true -> wait_serial (S fuel) w = mkRes (Ret tt) w [].
Proof.
  destruct w as [[nm op dt rt cf wi] c a r sc]. cbn [is_open ser].
  intros ->. reflexivity.
Qed.

Lemma wait_serial_returns_open fuel w :
  out (wait_serial fuel w) = Ret tt ->
  is_open (ser (fin (wait_serial fuel w))) = true.
Proof.
  revert w. induction fuel as [| fuel IH]; intros w; cbn [wait_serial].
  - discriminate.
  - intros H. apply bind_ret_inv in H.
    destruct H as [s [Hs [Hk [Hf _]]]]. rewrite Hf.
    assert (Hs' : the_ser w = mkRes (Ret (ser w)) w []) by reflexivity.
    rewrite Hs' in *. cbn [out fin] in *. inversion Hs; subst s.
    destruct (is_open (ser w)) eqn:Hop.
    + cbn. exact Hop.
    + apply bind_ret_inv in Hk. destruct Hk as [[] [_ [Hw [Hf2 _]]]].
      rewrite Hf2. apply IH. exact Hw.
Qed.

Lemma wait_serial_keeps_client c0 fuel :
  preserves (fun w => client w = c0) (wait_serial fuel).
Proof.
  induction fuel as [|fuel IH]; cbn [wait_serial];
    preserves_crawl ltac:(intros; cbn; auto).
Qed.

(** The wait for the serial port is over only when the port is open, and
    costs nothing when it is open already: no call, no event, no change. *)
Theorem wait_serial_ends_open (fuel : nat) (w : world) :
  (out (wait_serial fuel w) = Ret tt ->
   is_open (ser (fin (wait_serial fuel w))) = true /\
   client (fin (wait_serial fuel w)) = client w) /\
  (is_open (ser w) = true ->
   wait_serial (S fuel) w = mkRes (Ret tt) w []).
Proof.
  split.
  - intros H. split; [apply wait_serial_returns_open; exact H |].
    apply (wait_serial_keeps_client (client w) fuel w eq_refl).
  - apply wait_serial_open.
Qed.

Lemma wait_serial_ends_open_witness :
  out (wait_serial 3 (started_on_usb0 (open_fails "could not open port"
                                         ++ [Done]))) = Ret tt /\
  is_open (ser (fin (wait_serial 3
                       (started_on_usb0 (open_fails "could not open port"
                                           ++ [Done]))))) = true.
Proof.
  split; [reflexivity |].
  exact (proj1 (proj1 (wait_serial_ends_open 3
                         (started_on_usb0 (open_fails "could not open port"
                                             ++ [Done]))) eq_refl)).
Defined.

Lemma wait_serial_retry fuel w nm dt rt cf wi c a r msg sc :
  w = mkWorld (mkSerial nm false dt rt cf wi) c a r
        (Raise SerialException msg :: Done :: sc) ->
  str_contains "Port is already open" msg = false ->
  wait_serial (S fuel) w =
    mkRes (out (wait_serial fuel (set_script sc w)))
          (fin (wait_serial fuel (set_script sc w)))
          ([ Call ser_open;
             if str_contains "PermissionError" msg
             then Log "root" Logging.ERROR
                    ("Port " ++ nm ++ " is already in use")%string
             else Log "root" Logging.INFO
                    ("Waiting for serial connection on " ++ nm ++ "...")%string;
             Call (time_sleep SERIAL_WAIT) ]
           ++ evs (wait_serial fuel (set_script sc w))).
Proof.
  intros -> Hm. cbn [wait_serial]. run.
  change (isinstance SerialException SerialException) with true.
  run. rewrite Hm.
  destruct (str_contains "PermissionError" msg); run;
    destruct (wait_serial fuel _) as [o w2 e2]; reflexivity.
Qed.

(** The port is retried for as long as it takes: after any number [n] of
    attempts that fail with a [SerialException] (other than "already
    open"), each followed by a pause of [SERIAL_WAIT], the attempt that
    succeeds ends the wait, with the port open and nothing else changed:
    [n + 1] calls of [open], [n] pauses. *)
Theorem wait_serial_retries_until_open (n : nat) (msg : string)
    (sc : list reply) (fuel : nat) (w : world) :
  is_open (ser w) = false ->
  str_contains "Port is already open" msg = false ->
  (n + 2 <= fuel)%nat ->
  script w = times n (open_fails msg) ++ Done :: sc ->
  out (wait_serial fuel w) = Ret tt /\
  fin (wait_serial fuel w)
    = set_script sc (set_ser (with_is_open true (ser w)) w) /\
  count (is_call ser_open) (evs (wait_serial fuel w)) = S n /\
  count (is_sleep SERIAL_WAIT) (evs (wait_serial fuel w)) = n /\
  count (is_call ser_close) (evs (wait_serial fuel w)) = 0%nat.
Proof.
  intros Hop Hm. revert fuel w Hop.
  induction n as [| n IH]; intros fuel w Hop Hfuel Hsc.
  - destruct fuel as [| [| fuel]]; [lia | lia |].
    destruct w as [[nm op dt rt cf wi] c a r scr].
    cbn [is_open ser script times app] in *. subst op scr.
    cbn [wait_serial]. run. repeat split.
  - destruct fuel as [| fuel]; [lia |].
    destruct w as [[nm op dt rt cf wi] c a r scr].
    cbn [is_open ser script times app open_fails] in *. subst op scr.
    erewrite wait_serial_retry by (try reflexivity; exact Hm).
    cbn [out fin evs].
    specialize (IH fuel
                  (set_script (times n (open_fails msg) ++ Done :: sc)
                     (mkWorld (mkSerial nm false dt rt cf wi) c a r
                        (Raise SerialException msg :: Done
                           :: times n (open_fails msg) ++ Done :: sc)))
                  eq_refl ltac:(lia) eq_refl).
    destruct IH as (Ho & Hf & Hc1 & Hc2 & Hc3).
    rewrite Ho, Hf, !count_app, Hc1, Hc2, Hc3.
    destruct (str_contains "PermissionError" msg); repeat split.
Qed.

Lemma wait_serial_retries_until_open_witness :
  is_open (ser (started_on_usb0
                  (times 2 (open_fails "could not open port") ++ [Done])))
    = false /\
  out (wait_serial 4
         (started_on_usb0
            (times 2 (open_fails "could not open port") ++ [Done])))
    = Ret tt /\
  count (is_call ser_open)
    (evs (wait_serial 4
            (started_on_usb0
               (times 2 (open_fails "could not open port") ++ [Done]))))
    = 3%nat.
Proof.
  pose proof (wait_serial_retries_until_open 2 "could not open port" [] 4
                (started_on_usb0
                   (times 2 (open_fails "could not open port") ++ [Done]))
                eq_refl eq_refl ltac:(lia) eq_refl) as H.
  destruct H as (H1 & _ & H2 & _).
  split; [reflexivity |]. split; [exact H1 | exact H2].
Defined.



(** *** Waiting for a client (lines 234-244) *)

Lemma wait_client_timeout fuel w msg sc :
  client w = None -> script w = Raise socket_timeout msg :: Done :: sc ->
  wait_client (S fuel) w =
    mkRes (out (wait_client fuel (set_script sc w)))
          (fin (wait_client fuel (set_script sc w)))
          ([ Call srv_accept;
             Log "root" Logging.INFO "Waiting for client connection...";
             Call (time_sleep SERVER_WAIT) ]
           ++ evs (wait_client fuel (set_script sc w))).
Proof.
  destruct w as [sr c a r scr]. cbn [client script]. intros -> ->.
  cbn [wait_client]. unfold is_socket_connected. run.
  change (isinstance socket_timeout socket_timeout) with true. run.
  destruct (wait_client fuel _) as [o w2 e2]. reflexivity.
Qed.

(** The listening socket is polled for as long as it takes: after any
    number [n] of [accept] calls that time out, each followed by the
    waiting notice and a pause of [SERVER_WAIT], a client that connects and
    has data to read ends the wait: [n + 1] calls of [accept], [n] pauses,
    the peer's address recorded, its first byte taken by the probe. *)
Theorem wait_client_retries_until_client (n : nat) (msg : string)
    (h : string) (p : Z) (b : byte) (rest : bytes) (sc : list reply)
    (fuel : nat) (w : world) :
  client w = None ->
  (n + 2 <= fuel)%nat ->
  script w = times n (accept_times_out msg)
               ++ Conn h p :: Data (b :: rest) :: sc ->
  out (wait_client fuel w) = Ret tt /\
  fin (wait_client fuel w)
    = set_script sc
        (set_addr (Some (h, p))
           (set_client (Some (mkSocket rest false false true [])) w)) /\
  count (is_call srv_accept) (evs (wait_client fuel w)) = S n /\
  count (is_sleep SERVER_WAIT) (evs (wait_client fuel w)) = n.
Proof.
  intros Hc. revert fuel w Hc.
  induction n as [| n IH]; intros fuel w Hc Hfuel Hsc.
  - destruct fuel as [| [| fuel]]; [lia | lia |].
    destruct w as [sr c a r scr].
    cbn [client script times app] in *. subst c scr.
    cbn [wait_client]. unfold is_socket_connected. run. repeat split.
  - destruct fuel as [| fuel]; [lia |].
    destruct w as [sr c a r scr].
    cbn [client script times app accept_times_out] in *. subst c scr.
    erewrite wait_client_timeout by reflexivity.
    cbn [out fin evs].
    specialize (IH fuel
                  (set_script (times n (accept_times_out msg)
                                 ++ Conn h p :: Data (b :: rest) :: sc)
                     (mkWorld sr None a r
                        (Raise socket_timeout msg :: Done
                           :: times n (accept_times_out msg)
                           ++ Conn h p :: Data (b :: rest) :: sc)))
                  eq_refl ltac:(lia) eq_refl).
    destruct IH as (Ho & Hf & Hc1 & Hc2).
    rewrite Ho, Hf, !count_app, Hc1, Hc2. repeat split.
Qed.

Lemma wait_client_retries_until_client_witness :
  client (started_on_usb0
            (times 3 (accept_times_out "timed out")
               ++ [Conn "localhost" 50000; Data ["a"%byte]])) = None /\
  out (wait_client 5
         (started_on_usb0
            (times 3 (accept_times_out "timed out")
               ++ [Conn "localhost" 50000; Data ["a"%byte]]))) = Ret tt /\
  count (is_sleep SERVER_WAIT)
    (evs (wait_client 5
            (started_on_usb0
               (times 3 (accept_times_out "timed out")
                  ++ [Conn "localhost" 50000; Data ["a"%byte]])))) = 3%nat.
Proof.
  pose proof (wait_client_retries_until_client 3 "timed out" "localhost"
                50000 "a"%byte [] [] 5
                (started_on_usb0
                   (times 3 (accept_times_out "timed out")
                      ++ [Conn "localhost" 50000; Data ["a"%byte]]))
                eq_refl ltac:(lia) eq_refl) as H.
  destruct H as (H1 & _ & _ & H2).
  split; [reflexivity |]. split; [exact H1 | exact H2].
Defined.

Lemma wait_client_only_waits fuel :
  emits (fun ev => wait_client_event ev = true) (wait_client fuel).
Proof.
  induction fuel as [|fuel IH]; cbn [wait_client]; unfold is_socket_connected;
    emits_crawl.
Qed.

(** All the wait for a client ever does is [accept], the one-byte [recv] of
    the probe, the pause, and informational logging: it closes no socket,
    checks no allowlist and warns of nothing.  In particular a peer that
    connects and has closed by the time of the probe is dropped silently,
    its socket not closed, and the loop goes back to [accept]. *)
Theorem wait_client_drops_closed_peer (fuel : nat) (w : world) :
  Forall (fun ev => wait_client_event ev = true) (evs (wait_client fuel w)) /\
  (forall h p sc,
     client w = None -> script w = Conn h p :: Data [] :: sc ->
     exists tail,
       evs (wait_client (S (S (S fuel))) w) =
         [ Call srv_accept;
           Log "root" Logging.INFO
             ("Connection request from " ++ h ++ ":" ++ str_of_Z p)%string;
           Call (sock_recv 1);
           Call srv_accept ] ++ tail).
Proof.
  split; [apply wait_client_only_waits |].
  intros h p sc Hc Hsc. destruct w as [sr c a r scr].
  cbn [client script] in *. subst c scr.
  cbn [wait_client].
  step_with ltac:(unfold is_socket_connected; run).
  cbv beta iota.
  step_with run.
  step_with ltac:(unfold is_socket_connected; run).
  cbv beta iota. apply bind_prefix_left, try_except_prefix, bind_prefix_left.
  unfold server_accept. apply bind_prefix_left, do_call_prefix.
Qed.

Lemma wait_client_drops_closed_peer_witness :
  client (started_on_usb0 [Conn "127.0.0.1" 50000; Data []]) = None /\
  exists tail,
    evs (wait_client 3 (started_on_usb0 [Conn "127.0.0.1" 50000; Data []])) =
      [ Call srv_accept;
        Log "root" Logging.INFO "Connection request from 127.0.0.1:50000";
        Call (sock_recv 1);
        Call srv_accept ] ++ tail.
Proof.
  split; [reflexivity |].
  exact (proj2 (wait_client_drops_closed_peer 0
                  (started_on_usb0 [Conn "127.0.0.1" 50000; Data []]))
           "127.0.0.1"%string 50000 [] eq_refl eq_refl).
Defined.

End RetryFacts.

(* ------------------------------------------------------------------ *)
(** ** The main loop and its exception handlers (lines 230-322) *)

Module MainLoopFacts.

Unset Implicit Arguments.

(** What a turn does with an exception of its body. *)
Lemma main_iteration_handles v fuel w e msg :
  out (main_body v fuel w) = Exc e msg ->
  main_iteration v fuel w =
    if isinstance e KeyboardInterrupt
    then mkRes (Ret Break) (fin (main_body v fuel w))
           (evs (main_body v fuel w)
              ++ [Log "root" Logging.INFO "Exiting..."])
    else if isinstance e socket_error
    then mkRes (Ret Continue) (fin (main_body v fuel w))
           (evs (main_body v fuel w)
              ++ [Log "root" Logging.ERROR ("Socket error: " ++ msg)%string])
    else mkRes (Exc e msg) (fin (main_body v fuel w))
           (evs (main_body v fuel w)).
Proof.
  intros H. unfold main_iteration, try_except.
  destruct (main_body v fuel w) as [o w1 e1]. cbn [out fin evs] in *.
  subst o.
  destruct (isinstance e KeyboardInterrupt); [reflexivity |].
  destruct (isinstance e socket_error); reflexivity.
Qed.

(** An exception raised inside the [try] block of a turn (lines 231-313)
    meets the outer handlers.  A [KeyboardInterrupt] is logged as
    "Exiting..." and ends the loop.  Any other socket error is logged as
    "Socket error: ..." and the loop goes on to its next turn, in the state
    the turn was left in.  An exception that is neither is not caught: it
    ends the loop, as that exception, with nothing logged. *)
Theorem exception_in_a_turn (v : Z) (fuel turns : nat) (w : world)
    (e : pyclass) (msg : string) :
  out (main_body v fuel w) = Exc e msg ->
  (isinstance e KeyboardInterrupt = true ->
   main_iteration v fuel w =
     mkRes (Ret Break) (fin (main_body v fuel w))
       (evs (main_body v fuel w)
          ++ [Log "root" Logging.INFO "Exiting..."]) /\
   main_loop v fuel (S turns) w =
     mkRes (Ret tt) (fin (main_body v fuel w))
       (evs (main_body v fuel w)
          ++ [Log "root" Logging.INFO "Exiting..."])) /\
  (isinstance e KeyboardInterrupt = false ->
   isinstance e socket_error = true ->
   main_iteration v fuel w =
     mkRes (Ret Continue) (fin (main_body v fuel w))
       (evs (main_body v fuel w)
          ++ [Log "root" Logging.ERROR ("Socket error: " ++ msg)%string]) /\
   main_loop v fuel (S turns) w =
     mkRes (out (main_loop v fuel turns (fin (main_body v fuel w))))
       (fin (main_loop v fuel turns (fin (main_body v fuel w))))
       ((evs (main_body v fuel w)
           ++ [Log "root" Logging.ERROR ("Socket error: " ++ msg)%string])
          ++ evs (main_loop v fuel turns (fin (main_body v fuel w))))) /\
  (isinstance e KeyboardInterrupt = false ->
   isinstance e socket_error = false ->
   main_iteration v fuel w =
     mkRes (Exc e msg) (fin (main_body v fuel w)) (evs (main_body v fuel w)) /\
   main_loop v fuel (S turns) w =
     mkRes (Exc e msg) (fin (main_body v fuel w)) (evs (main_body v fuel w))).
Proof.
  intros Hb. pose proof (main_iteration_handles v fuel w e msg Hb) as Hi.
  split; [| split].
  - intros Hk. rewrite Hk in Hi. split; [exact Hi |].
    cbn [main_loop]. erewrite bind_ret_eq by exact Hi.
    cbn [ret out fin evs]. rewrite app_nil_r. reflexivity.
  - intros Hk Hs. rewrite Hk, Hs in Hi. split; [exact Hi |].
    cbn [main_loop]. erewrite bind_ret_eq by exact Hi. reflexivity.
  - intros Hk Hs. rewrite Hk, Hs in Hi. split; [exact Hi |].
    cbn [main_loop]. erewrite bind_exc_eq by exact Hi. reflexivity.
Qed.

Lemma exception_in_a_turn_witness :
  out (main_body 0 2 (started_on_usb0
                        [Raise OSError "[Errno 24] Too many open files"]))
    = Exc OSError "[Errno 24] Too many open files" /\
  out (main_iteration 0 2
         (started_on_usb0 [Raise OSError "[Errno 24] Too many open files"]))
    = Ret Continue /\
  out (main_loop 0 2 1 (started_on_usb0 [Raise ValueError "bad value"]))
    = Exc ValueError "bad value" /\
  out (main_loop 0 2 1 (started_on_usb0 [Raise KeyboardInterrupt EmptyString]))
    = Ret tt.
Proof.
  split; [reflexivity |].
  destruct (exception_in_a_turn 0 2 0
              (started_on_usb0
                 [Raise OSError "[Errno 24] Too many open files"])
              OSError "[Errno 24] Too many open files"%string eq_refl)
    as (_ & H & _).
  destruct (H eq_refl eq_refl) as [Hi _].
  destruct (exception_in_a_turn 0 2 0
              (started_on_usb0 [Raise ValueError "bad value"])
              ValueError "bad value"%string eq_refl)
    as (_ & _ & H3).
  destruct (H3 eq_refl eq_refl) as [_ Hl3].
  destruct (exception_in_a_turn 0 2 0
              (started_on_usb0 [Raise KeyboardInterrupt EmptyString])
              KeyboardInterrupt EmptyString eq_refl)
    as (H1 & _).
  destruct (H1 eq_refl) as [_ Hl1].
  rewrite Hi, Hl3, Hl1. repeat split.
Defined.

Lemma ret_inv {A} (a b : A) w : out (ret a w) = Ret b -> a = b.
Proof. cbn. intros H. inversion H. reflexivity. Qed.

(** The body of a turn, when it returns, asks for the next turn. *)
Lemma main_body_returns_continue v fuel w c :
  out (main_body v fuel w) = Ret c -> c = Continue.
Proof.
  unfold main_body. intros H.
  do 3 (apply bind_ret_inv in H; destruct H as [? [_ [H _]]]).
  destruct (negb _).
  - unfold deny in H.
    do 2 (apply bind_ret_inv in H; destruct H as [? [_ [H _]]]).
    symmetry. exact (ret_inv _ _ _ H).
  - unfold serve in H.
    do 4 (apply bind_ret_inv in H; destruct H as [? [_ [H _]]]).
    symmetry. exact (ret_inv _ _ _ H).
Qed.

Lemma main_iteration_break v fuel w :
  out (main_iteration v fuel w) = Ret Break ->
  (exists e msg,
     out (main_body v fuel w) = Exc e msg /\
     isinstance e KeyboardInterrupt = true) /\
  exists pre,
    evs (main_iteration v fuel w)
      = pre ++ [Log "root" Logging.INFO "Exiting..."].
Proof.
  destruct (out (main_body v fuel w)) as [c | e msg |] eqn:Hb.
  - pose proof (main_body_returns_continue v fuel w c Hb) as ->.
    unfold main_iteration, try_except.
    destruct (main_body v fuel w) as [o w1 e1]. cbn [out] in Hb. subst o.
    cbn. discriminate.
  - rewrite (main_iteration_handles v fuel w e msg Hb).
    destruct (isinstance e KeyboardInterrupt) eqn:Hk.
    + intros _. split; [exists e, msg; auto |]. eexists. reflexivity.
    + destruct (isinstance e socket_error); cbn; discriminate.
  - unfold main_iteration, try_except.
    destruct (main_body v fuel w) as [o w1 e1]. cbn [out] in Hb. subst o.
    cbn. discriminate.
Qed.

(** The main loop returns through the handler of [KeyboardInterrupt] and
    in no other way: whenever it returns, the last thing it did was to log
    "Exiting..."; a turn asks to leave the loop only when its [try] block
    raised a [KeyboardInterrupt]; and a turn that ends in any other way
    without an exception is followed by the next turn.  Returning is not
    the only way the loop ends: an exception of the [try] block that is
    neither a socket error nor a [KeyboardInterrupt] ends it as that
    exception. *)
Theorem main_loop_returns_by_interrupt (v : Z) (fuel turns : nat)
    (w : world) :
  (out (main_loop v fuel turns w) = Ret tt ->
   exists pre,
     evs (main_loop v fuel turns w)
       = pre ++ [Log "root" Logging.INFO "Exiting..."]) /\
  (out (main_iteration v fuel w) = Ret Break ->
   exists e msg,
     out (main_body v fuel w) = Exc e msg /\
     isinstance e KeyboardInterrupt = true) /\
  (out (main_iteration v fuel w) = Ret Continue ->
   main_loop v fuel (S turns) w =
     mkRes (out (main_loop v fuel turns (fin (main_iteration v fuel w))))
       (fin (main_loop v fuel turns (fin (main_iteration v fuel w))))
       (evs (main_iteration v fuel w)
          ++ evs (main_loop v fuel turns (fin (main_iteration v fuel w))))) /\
  (forall e msg,
     out (main_body v fuel w) = Exc e msg ->
     isinstance e KeyboardInterrupt = false ->
     isinstance e socket_error = false ->
     main_loop v fuel (S turns) w =
       mkRes (Exc e msg) (fin (main_body v fuel w))
         (evs (main_body v fuel w))).
Proof.
  split; [| split; [| split]].
  - revert w. induction turns as [| turns IH]; intros w; cbn [main_loop].
    + discriminate.
    + intros H. apply bind_ret_inv in H.
      destruct H as [c [Hi [Hk [_ He]]]]. rewrite He.
      destruct c.
      * destruct (IH _ Hk) as [pre Hpre]. rewrite Hpre.
        exists (evs (main_iteration v fuel w) ++ pre). apply app_assoc.
      * destruct (main_iteration_break v fuel w Hi) as [_ [pre Hpre]].
        rewrite Hpre. exists pre. cbn. apply app_nil_r.
  - intros H. exact (proj1 (main_iteration_break v fuel w H)).
  - intros H. cbn [main_loop].
    destruct (main_iteration v fuel w) as [o w1 e1] eqn:Hi.
    cbn [out fin evs] in *. subst o.
    erewrite bind_ret_eq by exact Hi. reflexivity.
  - intros e msg Hb Hk Hs.
    pose proof (main_iteration_handles v fuel w e msg Hb) as Hi.
    rewrite Hk, Hs in Hi. cbn [main_loop].
    erewrite bind_exc_eq by exact Hi. reflexivity.
Qed.

Lemma main_loop_returns_by_interrupt_witness :
  out (main_loop 0 2 3
         (started_on_usb0 (accept_times_out "timed out"
                             ++ [Raise KeyboardInterrupt EmptyString])))
    = Ret tt /\
  (exists pre,
     evs (main_loop 0 2 3
            (started_on_usb0 (accept_times_out "timed out"
                                ++ [Raise KeyboardInterrupt EmptyString])))
       = pre ++ [Log "root" Logging.INFO "Exiting..."]) /\
  out (main_loop 0 2 1 (started_on_usb0 [Raise ValueError "bad value"]))
    = Exc ValueError "bad value".
Proof.
  split; [reflexivity |].
  split.
  - exact (proj1 (main_loop_returns_by_interrupt 0 2 3
             (started_on_usb0 (accept_times_out "timed out"
                                 ++ [Raise KeyboardInterrupt EmptyString])))
             eq_refl).
  - destruct (main_loop_returns_by_interrupt 0 2 0
                (started_on_usb0 [Raise ValueError "bad value"]))
      as (_ & _ & _ & H).
    rewrite (H ValueError "bad value"%string eq_refl eq_refl eq_refl).
    reflexivity.
Defined.

(** *** Whole turns *)

(** The state in which a permitted client is served: what the wait for a
    client leaves behind. *)
Lemma wait_client_accepts fuel sr c a r h p b sc :
  wait_client (S (S fuel))
    (set_client None (mkWorld sr c a r (Conn h p :: Data [b] :: sc))) =
    mkRes (Ret tt)
      (mkWorld sr (Some (mkSocket [] false false true [])) (Some (h, p)) r sc)
      [ Call srv_accept;
        Log "root" Logging.INFO
          ("Connection request from " ++ h ++ ":" ++ str_of_Z p)%string;
        Call (sock_recv 1) ].
Proof. cbn [wait_client]. unfold is_socket_connected. run. reflexivity. Qed.

(** A permitted client is served: the turn continues with [serve] in the
    state the wait left behind. *)
Lemma main_body_serves v fuel w w1 e1 h p :
  wait_client fuel (set_client None w) = mkRes (Ret tt) w1 e1 ->
  addr w1 = Some (h, p) ->
  str_in_list h IP_WHITELIST = true ->
  main_body v fuel w =
    mkRes (out (serve v fuel w1)) (fin (serve v fuel w1))
      (e1 ++ evs (serve v fuel w1)).
Proof.
  intros Hw Ha Hh.
  rewrite (@SupervisorFacts.main_body_after_accept v fuel w w1 e1 h p Hw Ha).
  rewrite Hh. reflexivity.
Qed.

(** The session of a client whose first [recv] in the writer is
    interrupted. *)
Lemma serve_interrupted (v : Z) (fuel : nat)
    (nm : string) (dt rt : bool) (cf : settings) (wi : bytes)
    (r : redirector) (h : string) (p : Z) (msg : string) (sc : list reply) :
  serve v (S (S fuel))
    (mkWorld (mkSerial nm false dt rt cf wi)
       (Some (mkSocket [] false false true [])) (Some (h, p)) r
       (Done :: Done :: Done :: Done :: Done :: Done
          :: Raise KeyboardInterrupt msg
          :: Done :: Done :: Done :: Done :: Done :: sc)) =
    mkRes (Exc KeyboardInterrupt msg)
      (mkWorld (mkSerial nm false false false cf wi)
         (Some (mkSocket [] true true false []))
         (Some (h, p))
         (mkRedirector (Some false) false (Some Terminated) (Some Terminated)
            (v >? 0))
         sc)
      [ Call sock_setsockopt_nodelay; Call (sock_setblocking false);
        Call ser_open;
        Log "root" Logging.INFO ("Connected to " ++ nm)%string;
        Call ser_get_settings;
        Call (ser_set_dtr true); Call (ser_set_rts true);
        NewRedirector; Call (rfc_PortManager (v >? 0));
        SetAlive true;
        ThreadStart thread_read_id; ThreadStart thread_poll_id;
        Call (sock_recv 1024);
        Log "root" Logging.INFO "Disconnected";
        Log "redirector" Logging.DEBUG "Stopping";
        SetAlive false;
        ThreadJoin thread_read_id; ThreadJoin thread_poll_id;
        Call sock_close;
        Call (ser_set_dtr false); Call (ser_set_rts false);
        Call (ser_apply_settings cf);
        Call ser_close ].
Proof.
  unfold serve, session, connect, teardown, Redirector.shortcircuit,
    Redirector.writer, Redirector.stop, Redirector.__init__.
  cbn [wait_serial Redirector.writer_loop]. run. reflexivity.
Qed.

(** The session of a client that sends two bytes and closes. *)
Lemma serve_round_trip (v : Z) (fuel : nat)
    (nm : string) (dt rt : bool) (cf cf' : settings) (wi : bytes)
    (r : redirector) (h : string) (p : Z) (c1 c2 : byte) (payload : bytes)
    (sc : list reply) :
  serve v (S (S fuel))
    (mkWorld (mkSerial nm false dt rt cf wi)
       (Some (mkSocket [] false false true [])) (Some (h, p)) r
       (Done :: Done :: Done :: Done :: Done :: Done
          :: Data [c1; c2] :: Reconf cf' payload :: Done
          :: Data []
          :: Done :: Done :: Done :: Done :: Done :: sc)) =
    mkRes (Ret Continue)
      (mkWorld (mkSerial nm false false false cf (wi ++ payload))
         (Some (mkSocket [] true true false []))
         (Some (h, p))
         (mkRedirector (Some false) false (Some Terminated) (Some Terminated)
            (v >? 0))
         sc)
      [ Call sock_setsockopt_nodelay; Call (sock_setblocking false);
        Call ser_open;
        Log "root" Logging.INFO ("Connected to " ++ nm)%string;
        Call ser_get_settings;
        Call (ser_set_dtr true); Call (ser_set_rts true);
        NewRedirector; Call (rfc_PortManager (v >? 0));
        SetAlive true;
        ThreadStart thread_read_id; ThreadStart thread_poll_id;
        Call (sock_recv 1024);
        Call (rfc_filter [c1; c2]);
        Call (ser_write payload);
        Call (sock_recv 1024);
        Log "redirector" Logging.DEBUG "Writer thread terminated";
        Log "redirector" Logging.DEBUG "Stopping";
        SetAlive false;
        ThreadJoin thread_read_id; ThreadJoin thread_poll_id;
        Log "root" Logging.INFO "Disconnected";
        Log "redirector" Logging.DEBUG "Stopping";
        Call sock_close;
        Call (ser_set_dtr false); Call (ser_set_rts false);
        Call (ser_apply_settings cf);
        Call ser_close ].
Proof.
  unfold serve, session, connect, teardown, Redirector.shortcircuit,
    Redirector.writer, Redirector.stop, Redirector.__init__.
  cbn [wait_serial Redirector.writer_loop]. run. reflexivity.
Qed.

(** An interrupt in mid-session does not skip the teardown.  A permitted
    client is being served when the operator's [KeyboardInterrupt] arrives
    in the writer's [recv]: the [finally] block stops the Redirector (the
    flag is cleared and both threads are joined), closes the socket,
    deasserts DTR and RTS, reapplies the snapshot and closes the port;
    only then does the outer handler log "Exiting..." and the loop end. *)
Theorem interrupt_tears_down_then_exits (v : Z) (fuel turns : nat)
    (nm : string) (dt rt : bool) (cf : settings) (wi : bytes)
    (c : option socket) (a : option (string * Z)) (r : redirector)
    (h : string) (p : Z) (b : byte) (msg : string) (sc : list reply) :
  str_in_list h IP_WHITELIST = true ->
  main_loop v (S (S fuel)) (S turns)
    (mkWorld (mkSerial nm false dt rt cf wi) c a r
       (Conn h p :: Data [b] :: Done :: Done :: Done :: Done :: Done :: Done
          :: Raise KeyboardInterrupt msg
          :: Done :: Done :: Done :: Done :: Done :: sc)) =
    mkRes (Ret tt)
      (mkWorld (mkSerial nm false false false cf wi)
         (Some (mkSocket [] true true false []))
         (Some (h, p))
         (mkRedirector (Some false) false (Some Terminated) (Some Terminated)
            (v >? 0))
         sc)
      ([ Call srv_accept;
        Log "root" Logging.INFO
          ("Connection request from " ++ h ++ ":" ++ str_of_Z p)%string;
        Call (sock_recv 1) ] ++
       [ Call sock_setsockopt_nodelay; Call (sock_setblocking false);
        Call ser_open;
        Log "root" Logging.INFO ("Connected to " ++ nm)%string;
        Call ser_get_settings;
        Call (ser_set_dtr true); Call (ser_set_rts true);
        NewRedirector; Call (rfc_PortManager (v >? 0));
        SetAlive true;
        ThreadStart thread_read_id; ThreadStart thread_poll_id;
        Call (sock_recv 1024);
        Log "root" Logging.INFO "Disconnected";
        Log "redirector" Logging.DEBUG "Stopping";
        SetAlive false;
        ThreadJoin thread_read_id; ThreadJoin thread_poll_id;
        Call sock_close;
        Call (ser_set_dtr false); Call (ser_set_rts false);
        Call (ser_apply_settings cf);
        Call ser_close ] ++
       [ Log "root" Logging.INFO "Exiting..." ]).
Proof.
  intros Hh.
  cbn [main_loop]. unfold main_iteration.
  erewrite bind_ret_eq.
  2:{ unfold try_except.
      rewrite (main_body_serves v _ _ _ _ h p
                 (wait_client_accepts fuel _ c a r h p b _) eq_refl Hh).
      rewrite serve_interrupted. cbn [out fin evs].
      change (isinstance KeyboardInterrupt KeyboardInterrupt) with true.
      cbv iota. run. reflexivity. }
  cbn [out fin evs ret]. reflexivity.
Qed.

Lemma interrupt_tears_down_then_exits_witness :
  str_in_list "localhost" IP_WHITELIST = true /\
  out (main_loop 0 2 1
         (mkWorld
            (mkSerial "/dev/ttyUSB0" false false false [("baudrate", 9600)] [])
            None None (mkRedirector None false None None false)
            [ Conn "localhost" 50000; Data ["a"%byte]; Done; Done; Done;
              Done; Done; Done; Raise KeyboardInterrupt EmptyString;
              Done; Done; Done; Done; Done ])) = Ret tt.
Proof.
  split; [reflexivity |].
  rewrite (interrupt_tears_down_then_exits 0 0 0 "/dev/ttyUSB0"
             false false [("baudrate", 9600)] [] None None
             (mkRedirector None false None None false)
             "localhost" 50000 "a"%byte EmptyString [] eq_refl).
  reflexivity.
Defined.

(** A whole session, from [accept] to the next turn.  A permitted client
    sends a first byte (which the probe takes) and then two more; the
    collaborator's filter, acting on a control sequence among them,
    changes the port settings and passes a payload on.  That payload, and
    nothing else, is appended to what the serial port has been sent; when
    the client closes, the writer stops the Redirector, the teardown puts
    back the settings of before the session, deasserts DTR and RTS and
    closes socket and port, and the turn ends asking for the next one. *)
Theorem session_round_trip (v : Z) (fuel : nat)
    (nm : string) (dt rt : bool) (cf cf' : settings) (wi : bytes)
    (c : option socket) (a : option (string * Z)) (r : redirector)
    (h : string) (p : Z) (b c1 c2 : byte) (payload : bytes)
    (sc : list reply) :
  str_in_list h IP_WHITELIST = true ->
  main_iteration v (S (S fuel))
    (mkWorld (mkSerial nm false dt rt cf wi) c a r
       (Conn h p :: Data [b] :: Done :: Done :: Done :: Done :: Done :: Done
          :: Data [c1; c2] :: Reconf cf' payload :: Done
          :: Data []
          :: Done :: Done :: Done :: Done :: Done :: sc)) =
    mkRes (Ret Continue)
      (mkWorld (mkSerial nm false false false cf (wi ++ payload))
         (Some (mkSocket [] true true false []))
         (Some (h, p))
         (mkRedirector (Some false) false (Some Terminated) (Some Terminated)
            (v >? 0))
         sc)
      ([ Call srv_accept;
        Log "root" Logging.INFO
          ("Connection request from " ++ h ++ ":" ++ str_of_Z p)%string;
        Call (sock_recv 1) ] ++
       [ Call sock_setsockopt_nodelay; Call (sock_setblocking false);
        Call ser_open;
        Log "root" Logging.INFO ("Connected to " ++ nm)%string;
        Call ser_get_settings;
        Call (ser_set_dtr true); Call (ser_set_rts true);
        NewRedirector; Call (rfc_PortManager (v >? 0));
        SetAlive true;
        ThreadStart thread_read_id; ThreadStart thread_poll_id;
        Call (sock_recv 1024);
        Call (rfc_filter [c1; c2]);
        Call (ser_write payload);
        Call (sock_recv 1024);
        Log "redirector" Logging.DEBUG "Writer thread terminated";
        Log "redirector" Logging.DEBUG "Stopping";
        SetAlive false;
        ThreadJoin thread_read_id; ThreadJoin thread_poll_id;
        Log "root" Logging.INFO "Disconnected";
        Log "redirector" Logging.DEBUG "Stopping";
        Call sock_close;
        Call (ser_set_dtr false); Call (ser_set_rts false);
        Call (ser_apply_settings cf);
        Call ser_close ]).
Proof.
  intros Hh.
  unfold main_iteration, try_except.
  rewrite (main_body_serves v _ _ _ _ h p
             (wait_client_accepts fuel _ c a r h p b _) eq_refl Hh).
  rewrite serve_round_trip. reflexivity.
Qed.

Lemma session_round_trip_witness :
  str_in_list "127.0.0.1" IP_WHITELIST = true /\
  fin (main_iteration 0 2
         (mkWorld
            (mkSerial "/dev/ttyUSB0" false false false [("baudrate", 9600)] [])
            None None (mkRedirector None false None None false)
            [ Conn "127.0.0.1" 50000; Data ["a"%byte]; Done; Done; Done;
              Done; Done; Done;
              Data ["b"%byte; "c"%byte];
              Reconf [("baudrate", 115200)] ["c"%byte]; Done;
              Data []; Done; Done; Done; Done; Done ])) =
    mkWorld
      (mkSerial "/dev/ttyUSB0" false false false [("baudrate", 9600)]
         ["c"%byte])
      (Some (mkSocket [] true true false []))
      (Some ("127.0.0.1", 50000))
      (mkRedirector (Some false) false (Some Terminated) (Some Terminated)
         false)
      [].
Proof.
  split; [reflexivity |].
  rewrite (session_round_trip 0 0 "/dev/ttyUSB0" false false
             [("baudrate", 9600)] [("baudrate", 115200)] [] None None
             (mkRedirector None false None None false)
             "127.0.0.1" 50000 "a"%byte "b"%byte "c"%byte ["c"%byte] []
             eq_refl).
  reflexivity.
Defined.

End MainLoopFacts.

(* ------------------------------------------------------------------ *)
(** ** The threads of a Redirector (lines 51-104) *)

Module ThreadFacts.
Import Redirector.

Unset Implicit Arguments.

(** *** The reader *)

(** One turn of the reader's loop in which the device delivers data. *)
Lemma reader_loop_forwards fuel sr s a tr tp dbg n b rest e sc :
  reader_loop (S fuel)
    (mkWorld sr (Some s) a (mkRedirector (Some true) false tr tp dbg)
       (Num n :: Data (b :: rest) :: Data e :: Done :: sc)) =
    mkRes
      (out (reader_loop fuel
              (mkWorld sr (Some (with_tx (tx s ++ e) s)) a
                 (mkRedirector (Some true) false tr tp dbg) sc)))
      (fin (reader_loop fuel
              (mkWorld sr (Some (with_tx (tx s ++ e) s)) a
                 (mkRedirector (Some true) false tr tp dbg) sc)))
      (reader_turn_events (n, b :: rest, e) ++
       evs (reader_loop fuel
              (mkWorld sr (Some (with_tx (tx s ++ e) s)) a
                 (mkRedirector (Some true) false tr tp dbg) sc))).
Proof.
  destruct s as [rx0 cl nd bl tx0].
  cbn [reader_loop]. unfold write, reader_turn_events. cbn [fst snd].
  destruct n as [| k]; run.
  - change (firstn (if Nat.eqb 0 0 then 1%nat else 0%nat) (b :: rest))
      with [b].
    cbv beta iota. run.
    destruct (reader_loop fuel _) as [o w2 e2]. reflexivity.
  - change (firstn (if Nat.eqb (S k) 0 then 1%nat else S k) (b :: rest))
      with (b :: firstn k rest).
    cbv beta iota. run.
    destruct (reader_loop fuel _) as [o w2 e2]. reflexivity.
Qed.

(** A turn in which the read times out: nothing is sent. *)
Lemma reader_loop_idle fuel sr c a lk tr tp dbg n sc :
  reader_loop (S fuel)
    (mkWorld sr c a (mkRedirector (Some true) lk tr tp dbg)
       (Num n :: Data [] :: sc)) =
    mkRes
      (out (reader_loop fuel
              (mkWorld sr c a (mkRedirector (Some true) lk tr tp dbg) sc)))
      (fin (reader_loop fuel
              (mkWorld sr c a (mkRedirector (Some true) lk tr tp dbg) sc)))
      ([ Call ser_in_waiting;
         Call (ser_read (if Nat.eqb n 0 then 1%nat else n)) ] ++
       evs (reader_loop fuel
              (mkWorld sr c a (mkRedirector (Some true) lk tr tp dbg) sc))).
Proof.
  cbn [reader_loop]. run.
  replace (firstn (if Nat.eqb n 0 then 1%nat else n) (@nil byte))
    with (@nil byte) by (destruct n; reflexivity).
  cbv beta iota. run.
  destruct (reader_loop fuel _) as [o w2 e2]. reflexivity.
Qed.

Lemma with_tx_app s x y :
  with_tx (tx (with_tx (tx s ++ x) s) ++ y) (with_tx (tx s ++ x) s)
    = with_tx (tx s ++ x ++ y) s.
Proof. destruct s. unfold with_tx. cbn. rewrite <- app_assoc. reflexivity. Qed.

Lemma reader_loop_copies chunks :
  forall fuel sr s a tr tp dbg sc,
  (List.length chunks < fuel)%nat ->
  reader_loop fuel
    (mkWorld sr (Some s) a (mkRedirector (Some true) false tr tp dbg)
       (flat_map reader_turn chunks ++ Cleared :: sc)) =
    mkRes (Ret tt)
      (mkWorld sr
         (Some (with_tx (tx s ++ flat_map reader_turn_sent chunks) s)) a
         (mkRedirector (Some false) false tr tp dbg) (drop_cleared sc))
      (flat_map reader_turn_events chunks).
Proof.
  induction chunks as [| [[n d] e] chunks IH];
    intros fuel sr s a tr tp dbg sc Hf.
  - destruct fuel as [| fuel]; [inversion Hf |].
    destruct s as [rx0 cl nd bl tx0].
    cbn [flat_map app reader_loop]. rewrite app_nil_r.
    run. reflexivity.
  - destruct fuel as [| fuel]; [inversion Hf |].
    assert (Hf' : (List.length chunks < fuel)%nat)
      by (cbn [List.length] in Hf; lia).
    cbn [flat_map].
    destruct d as [| b rest];
      unfold reader_turn at 1, reader_turn_sent at 1;
      cbn [fst snd app].
    + rewrite reader_loop_idle, IH by exact Hf'.
      cbn [out fin evs]. reflexivity.
    + rewrite reader_loop_forwards, IH by exact Hf'.
      cbn [out fin evs]. rewrite with_tx_app. reflexivity.
Qed.

(** The reader copies everything, in order, and nothing else.  While the
    flag is true it reads from the serial port, as many bytes as are
    waiting or one when none is; a read that times out sends nothing; a
    chunk that was read is escaped by the collaborator and sent under the
    lock.  Once another activity has cleared the flag the reader leaves its
    loop, clears the flag itself and logs its end.  What the socket has
    been sent is then what it had been sent before followed by the escaped
    chunks in the order they were read; the serial port, the threads and
    the lock are as they were. *)
Theorem reader_copies_everything (chunks : list (nat * bytes * bytes))
    (fuel : nat) (sr : serial_port) (s : socket) (a : option (string * Z))
    (tr tp : option thread_state) (dbg : bool) (sc : list reply) :
  (List.length chunks < fuel)%nat ->
  reader fuel
    (mkWorld sr (Some s) a (mkRedirector (Some true) false tr tp dbg)
       (flat_map reader_turn chunks ++ Cleared :: sc)) =
    mkRes (Ret tt)
      (mkWorld sr
         (Some (with_tx (tx s ++ flat_map reader_turn_sent chunks) s)) a
         (mkRedirector (Some false) false tr tp dbg) (drop_cleared sc))
      ([ Log "redirector" Logging.DEBUG "Reader thread started" ] ++
       flat_map reader_turn_events chunks ++
       [ SetAlive false;
         Log "redirector" Logging.DEBUG "Reader thread terminated" ]).
Proof.
  intros Hf. unfold reader.
  erewrite bind_ret_eq by reflexivity. cbn [out fin evs].
  erewrite bind_ret_eq by (apply reader_loop_copies; assumption).
  cbn [out fin evs]. run. reflexivity.
Qed.

Lemma reader_copies_everything_witness :
  out (reader 4
         (mkWorld
            (mkSerial "/dev/ttyUSB0" true true true [("baudrate", 9600)] [])
            (Some (mkSocket [] false true false []))
            (Some ("127.0.0.1"%string, 50000))
            (mkRedirector (Some true) false (Some Running) (Some Running)
               false)
            (flat_map reader_turn
               [ (0%nat, ["a"%byte], ["a"%byte]);
                 (0%nat, [], []);
                 (2%nat, ["b"%byte; "c"%byte; "d"%byte],
                  ["b"%byte; "c"%byte]) ]
               ++ Cleared :: []))) = Ret tt /\
  option_map tx
    (client (fin (reader 4
         (mkWorld
            (mkSerial "/dev/ttyUSB0" true true true [("baudrate", 9600)] [])
            (Some (mkSocket [] false true false []))
            (Some ("127.0.0.1"%string, 50000))
            (mkRedirector (Some true) false (Some Running) (Some Running)
               false)
            (flat_map reader_turn
               [ (0%nat, ["a"%byte], ["a"%byte]);
                 (0%nat, [], []);
                 (2%nat, ["b"%byte; "c"%byte; "d"%byte],
                  ["b"%byte; "c"%byte]) ]
               ++ Cleared :: []))))) = Some ["a"%byte; "b"%byte; "c"%byte].
Proof.
  rewrite (reader_copies_everything
             [ (0%nat, ["a"%byte], ["a"%byte]);
               (0%nat, [], []);
               (2%nat, ["b"%byte; "c"%byte; "d"%byte],
                ["b"%byte; "c"%byte]) ]
             4 (mkSerial "/dev/ttyUSB0" true true true
                  [("baudrate", 9600)] [])
             (mkSocket [] false true false [])
             (Some ("127.0.0.1"%string, 50000))
             (Some Running) (Some Running) false []
             ltac:(cbn; lia)).
  split; reflexivity.
Defined.

(** *** The status poller *)

Lemma poller_poll_ok fuel sr c a lk tr tp dbg sc :
  statusline_poller_loop (S fuel)
    (mkWorld sr c a (mkRedirector (Some true) lk tr tp dbg)
       (Done :: Done :: sc)) =
    mkRes
      (out (statusline_poller_loop fuel
              (mkWorld sr c a (mkRedirector (Some true) lk tr tp dbg) sc)))
      (fin (statusline_poller_loop fuel
              (mkWorld sr c a (mkRedirector (Some true) lk tr tp dbg) sc)))
      ([ Call (time_sleep 1); Call rfc_check_modem_lines ] ++
       evs (statusline_poller_loop fuel
              (mkWorld sr c a (mkRedirector (Some true) lk tr tp dbg) sc))).
Proof.
  cbn [statusline_poller_loop]. run.
  destruct (statusline_poller_loop fuel _) as [o w2 e2]. reflexivity.
Qed.

(** A poll in which the collaborator notifies the client. *)
Lemma poller_poll_notifies fuel sr s a tr tp dbg n sc :
  statusline_poller_loop (S fuel)
    (mkWorld sr (Some s) a (mkRedirector (Some true) false tr tp dbg)
       (Done :: Answer n Done :: Done :: sc)) =
    mkRes
      (out (statusline_poller_loop fuel
              (mkWorld sr (Some (with_tx (tx s ++ n) s)) a
                 (mkRedirector (Some true) false tr tp dbg) sc)))
      (fin (statusline_poller_loop fuel
              (mkWorld sr (Some (with_tx (tx s ++ n) s)) a
                 (mkRedirector (Some true) false tr tp dbg) sc)))
      ([ Call (time_sleep 1); Call rfc_check_modem_lines;
         LockAcquire; Call (sock_sendall n); LockRelease ] ++
       evs (statusline_poller_loop fuel
              (mkWorld sr (Some (with_tx (tx s ++ n) s)) a
                 (mkRedirector (Some true) false tr tp dbg) sc))).
Proof.
  destruct s as [rx0 cl nd bl tx0].
  cbn [statusline_poller_loop]. unfold write. run.
  destruct (statusline_poller_loop fuel _) as [o w2 e2]. reflexivity.
Qed.

Lemma poller_poll_serial_error fuel sr c a lk tr tp dbg e msg sc :
  isinstance e SerialException = true ->
  statusline_poller_loop (S fuel)
    (mkWorld sr c a (mkRedirector (Some true) lk tr tp dbg)
       (Done :: Raise e msg :: sc)) =
    mkRes
      (out (statusline_poller_loop fuel
              (mkWorld sr c a (mkRedirector (Some true) lk tr tp dbg) sc)))
      (fin (statusline_poller_loop fuel
              (mkWorld sr c a (mkRedirector (Some true) lk tr tp dbg) sc)))
      ([ Call (time_sleep 1); Call rfc_check_modem_lines;
         Log "redirector" Logging.ERROR
           ("Error polling modem lines: " ++ msg)%string ] ++
       evs (statusline_poller_loop fuel
              (mkWorld sr c a (mkRedirector (Some true) lk tr tp dbg) sc))).
Proof.
  intros He. cbn [statusline_poller_loop]. run. rewrite He. run.
  destruct (statusline_poller_loop fuel _) as [o w2 e2]. reflexivity.
Qed.

Lemma poller_poll_other_error fuel sr c a lk tr tp dbg e msg sc :
  isinstance e SerialException = false ->
  statusline_poller_loop (S fuel)
    (mkWorld sr c a (mkRedirector (Some true) lk tr tp dbg)
       (Done :: Raise e msg :: sc)) =
    mkRes (Exc e msg)
      (mkWorld sr c a (mkRedirector (Some true) lk tr tp dbg) sc)
      [ Call (time_sleep 1); Call rfc_check_modem_lines ].
Proof.
  intros He. cbn [statusline_poller_loop]. run. rewrite He. reflexivity.
Qed.

Lemma poller_loop_polls polls :
  forall fuel sr s a tr tp dbg sc,
  (List.length polls < fuel)%nat ->
  statusline_poller_loop fuel
    (mkWorld sr (Some s) a (mkRedirector (Some true) false tr tp dbg)
       (flat_map poll_turn polls ++ Cleared :: sc)) =
    mkRes (Ret tt)
      (mkWorld sr
         (Some (with_tx (tx s ++ flat_map poll_turn_sent polls) s)) a
         (mkRedirector (Some false) false tr tp dbg) (drop_cleared sc))
      (flat_map poll_turn_events polls).
Proof.
  induction polls as [| o polls IH]; intros fuel sr s a tr tp dbg sc Hf.
  - destruct fuel as [| fuel]; [inversion Hf |].
    destruct s as [rx0 cl nd bl tx0].
    cbn [flat_map app statusline_poller_loop]. rewrite app_nil_r.
    run. reflexivity.
  - destruct fuel as [| fuel]; [inversion Hf |].
    assert (Hf' : (List.length polls < fuel)%nat)
      by (cbn [List.length] in Hf; lia).
    cbn [flat_map].
    destruct o as [| n | msg];
      cbn [poll_turn poll_turn_events poll_turn_sent app].
    + rewrite poller_poll_ok, IH by exact Hf'. reflexivity.
    + rewrite poller_poll_notifies, IH by exact Hf'.
      cbn [out fin evs]. rewrite with_tx_app. reflexivity.
    + rewrite poller_poll_serial_error, IH by (try exact Hf'; reflexivity).
      reflexivity.
Qed.

(** The status poller polls until someone else clears the flag.  Each poll
    is a pause of one second followed by the collaborator's check of the
    modem lines.  When the lines have changed the collaborator, in the
    poller's thread, notifies the client through [Redirector.write]: the
    notification is sent under the lock.  A check that fails with a
    [SerialException] is logged as an error and the polling goes on.  When
    the poller returns, after another activity has cleared the flag, the
    socket has been sent the notifications, in order, and nothing else;
    the serial port object, the threads and the lock are as they were. *)
Theorem statusline_poller_polls_until_cleared (polls : list poll)
    (fuel : nat) (sr : serial_port) (s : socket)
    (a : option (string * Z)) (tr tp : option thread_state)
    (dbg : bool) (sc : list reply) :
  (List.length polls < fuel)%nat ->
  statusline_poller fuel
    (mkWorld sr (Some s) a (mkRedirector (Some true) false tr tp dbg)
       (flat_map poll_turn polls ++ Cleared :: sc)) =
    mkRes (Ret tt)
      (mkWorld sr
         (Some (with_tx (tx s ++ flat_map poll_turn_sent polls) s)) a
         (mkRedirector (Some false) false tr tp dbg) (drop_cleared sc))
      ([ Log "redirector" Logging.DEBUG "Status line poll thread started" ] ++
       flat_map poll_turn_events polls ++
       [ Log "redirector" Logging.DEBUG
           "Status line poll thread terminated" ]).
Proof.
  intros Hf. unfold statusline_poller.
  erewrite bind_ret_eq by reflexivity. cbn [out fin evs].
  erewrite bind_ret_eq by (apply poller_loop_polls; assumption).
  cbn [out fin evs]. run. reflexivity.
Qed.

Lemma statusline_poller_polls_until_cleared_witness :
  statusline_poller 4
    (mkWorld
       (mkSerial "/dev/ttyUSB0" true true true [("baudrate", 9600)] [])
       (Some (mkSocket [] false true false []))
       (Some ("127.0.0.1"%string, 50000))
       (mkRedirector (Some true) false (Some Running) (Some Running) false)
       (flat_map poll_turn
          [Quiet; Notified ["m"%byte]; Failed "device disconnected"%string]
          ++ Cleared :: [])) =
    mkRes (Ret tt)
      (mkWorld
         (mkSerial "/dev/ttyUSB0" true true true [("baudrate", 9600)] [])
         (Some (mkSocket [] false true false ["m"%byte]))
         (Some ("127.0.0.1"%string, 50000))
         (mkRedirector (Some false) false (Some Running) (Some Running)
            false)
         [])
      [ Log "redirector" Logging.DEBUG "Status line poll thread started";
        Call (time_sleep 1); Call rfc_check_modem_lines;
        Call (time_sleep 1); Call rfc_check_modem_lines;
        LockAcquire; Call (sock_sendall ["m"%byte]); LockRelease;
        Call (time_sleep 1); Call rfc_check_modem_lines;
        Log "redirector" Logging.ERROR
          "Error polling modem lines: device disconnected";
        Log "redirector" Logging.DEBUG "Status line poll thread terminated" ].
Proof.
  rewrite (statusline_poller_polls_until_cleared
             [Quiet; Notified ["m"%byte];
              Failed "device disconnected"%string] 4
             (mkSerial "/dev/ttyUSB0" true true true
                [("baudrate", 9600)] [])
             (mkSocket [] false true false [])
             (Some ("127.0.0.1"%string, 50000))
             (Some Running) (Some Running) false []
             ltac:(cbn; lia)).
  reflexivity.
Defined.

(** The poller catches [SerialException] and nothing else.  The check of
    the modem lines reports a change to the client through the socket; when
    that fails with a socket error, which is no [SerialException], or when
    anything else outside that class is raised, the exception leaves
    [statusline_poller]: the thread ends without its closing log line and
    with the flag still true, so that neither the reader nor the writer is
    told. *)
Theorem statusline_poller_catches_serial_errors_only (fuel : nat)
    (sr : serial_port) (c : option socket) (a : option (string * Z))
    (lk : bool) (tr tp : option thread_state) (dbg : bool)
    (e : pyclass) (msg : string) (sc : list reply) :
  isinstance e SerialException = false ->
  isinstance socket_error SerialException = false /\
  isinstance BlockingIOError SerialException = false /\
  statusline_poller (S fuel)
    (mkWorld sr c a (mkRedirector (Some true) lk tr tp dbg)
       (Done :: Raise e msg :: sc)) =
    mkRes (Exc e msg)
      (mkWorld sr c a (mkRedirector (Some true) lk tr tp dbg) sc)
      [ Log "redirector" Logging.DEBUG "Status line poll thread started";
        Call (time_sleep 1); Call rfc_check_modem_lines ].
Proof.
  intros He. split; [reflexivity |]. split; [reflexivity |].
  unfold statusline_poller.
  erewrite bind_ret_eq by reflexivity. cbn [out fin evs].
  erewrite bind_exc_eq by (apply poller_poll_other_error; exact He).
  reflexivity.
Qed.

Lemma statusline_poller_catches_serial_errors_only_witness :
  isinstance OSError SerialException = false /\
  out (statusline_poller 1
         (mkWorld
            (mkSerial "/dev/ttyUSB0" true true true [("baudrate", 9600)] [])
            (Some (mkSocket [] false true false []))
            (Some ("127.0.0.1"%string, 50000))
            (mkRedirector (Some true) false (Some Running) (Some Running)
               false)
            [ Done; Raise OSError "[Errno 32] Broken pipe" ]))
    = Exc OSError "[Errno 32] Broken pipe".
Proof.
  split; [reflexivity |].
  destruct (statusline_poller_catches_serial_errors_only 0
              (mkSerial "/dev/ttyUSB0" true true true
                 [("baudrate", 9600)] [])
              (Some (mkSocket [] false true false []))
              (Some ("127.0.0.1"%string, 50000))
              false (Some Running) (Some Running) false
              OSError "[Errno 32] Broken pipe"%string [] eq_refl)
    as (_ & _ & H).
  rewrite H. reflexivity.
Defined.

(** *** Each activity on its own side *)

Lemma reader_only_reads_serial fuel :
  emits (fun ev => reader_event ev = true) (reader fuel).
Proof.
  assert (H : emits (fun ev => reader_event ev = true) (reader_loop fuel)).
  { induction fuel as [| fuel IH]; cbn [reader_loop]; unfold write;
      emits_crawl. }
  unfold reader. emits_crawl.
Qed.

Lemma writer_only_reads_socket fuel :
  emits (fun ev => writer_event ev = true) (writer fuel).
Proof.
  assert (H : emits (fun ev => writer_event ev = true) (writer_loop fuel)).
  { induction fuel as [| fuel IH]; cbn [writer_loop]; emits_crawl. }
  unfold writer, stop. emits_crawl.
Qed.

Lemma poller_only_polls fuel :
  emits (fun ev => poller_event ev = true) (statusline_poller fuel).
Proof.
  assert (H : emits (fun ev => poller_event ev = true)
                (statusline_poller_loop fuel)).
  { induction fuel as [| fuel IH]; cbn [statusline_poller_loop];
      emits_crawl. }
  unfold statusline_poller. emits_crawl.
Qed.

(** The three activities of a Redirector keep to their own side, however
    they end.  The reader reads the serial port and sends on the socket
    through [write]: it never receives from the socket and never writes to
    the serial port.  The writer receives from the socket, 1024 bytes at
    most at a time, and writes to the serial port: it never reads the
    serial port and never pauses; what is sent on the socket from its
    thread is what the collaborator answers through [write] from inside
    [filter]; it is the only one that joins threads.  The poller pauses
    for one second and has the collaborator check the modem lines, which
    may send a notification through [write]: it never receives from the
    socket, makes no call on the serial port of its own and never assigns
    the flag.  None of the three opens or closes anything, and none sets
    the flag to true. *)
Theorem activities_stay_on_their_side (fuel : nat) (w : world) :
  Forall (fun ev => reader_event ev = true) (evs (reader fuel w)) /\
  Forall (fun ev => writer_event ev = true) (evs (writer fuel w)) /\
  Forall (fun ev => poller_event ev = true) (evs (statusline_poller fuel w)).
Proof.
  split; [apply reader_only_reads_serial |].
  split; [apply writer_only_reads_socket | apply poller_only_polls].
Qed.

(** *** A Redirector before [shortcircuit] *)

(** [__init__] does not create the attribute [alive]: [shortcircuit] does.
    On a Redirector that has just been constructed, [stop], [writer],
    [reader] and [statusline_poller] therefore all fail with an
    [AttributeError] at their first look at the flag. *)
Theorem fresh_redirector_needs_shortcircuit (dbg : bool) (fuel : nat)
    (w : world) (sc : list reply) :
  script w = Done :: sc -> starts_cleared sc = false ->
  out (__init__ dbg w) = Ret tt /\
  alive (rd (fin (__init__ dbg w))) = None /\
  (exists msg, out (stop (fin (__init__ dbg w))) = Exc AttributeError msg) /\
  (exists msg,
     out (writer (S fuel) (fin (__init__ dbg w))) = Exc AttributeError msg) /\
  (exists msg,
     out (reader (S fuel) (fin (__init__ dbg w))) = Exc AttributeError msg) /\
  (exists msg,
     out (statusline_poller (S fuel) (fin (__init__ dbg w)))
       = Exc AttributeError msg).
Proof.
  destruct w as [sr c a r scr]. cbn [script]. intros -> Hsc.
  assert (Hi : __init__ dbg (mkWorld sr c a r (Done :: sc)) =
            mkRes (Ret tt)
              (mkWorld sr c a (mkRedirector None false None None dbg) sc)
              [NewRedirector; Call (rfc_PortManager dbg)]).
  { unfold __init__. run. reflexivity. }
  rewrite Hi. cbn [out fin rd alive].
  assert (Ha : read_alive
                 (mkWorld sr c a (mkRedirector None false None None dbg) sc)
               = mkRes (Exc AttributeError
                   "'Redirector' object has no attribute 'alive'")
                   (mkWorld sr c a (mkRedirector None false None None dbg) sc)
                   []).
  { destruct sc as [| r0 sc']; [| destruct r0; try discriminate Hsc];
      reflexivity. }
  split; [reflexivity |]. split; [reflexivity |].
  split; [| split; [| split]]; eexists.
  - unfold stop. erewrite bind_ret_eq by reflexivity. cbn [out fin evs].
    erewrite bind_exc_eq by exact Ha. reflexivity.
  - unfold writer. cbn [writer_loop].
    erewrite bind_exc_eq;
      [| erewrite bind_exc_eq by exact Ha; reflexivity].
    reflexivity.
  - unfold reader. erewrite bind_ret_eq by reflexivity. cbn [out fin evs].
    cbn [reader_loop].
    erewrite bind_exc_eq;
      [| erewrite bind_exc_eq by exact Ha; reflexivity].
    reflexivity.
  - unfold statusline_poller. erewrite bind_ret_eq by reflexivity.
    cbn [out fin evs]. cbn [statusline_poller_loop].
    erewrite bind_exc_eq;
      [| erewrite bind_exc_eq by exact Ha; reflexivity].
    reflexivity.
Qed.

Lemma fresh_redirector_needs_shortcircuit_witness :
  alive (rd (fin (__init__ false (world_of running [Done])))) = None /\
  exists msg,
    out (stop (fin (__init__ false (world_of running [Done]))))
      = Exc AttributeError msg.
Proof.
  destruct (fresh_redirector_needs_shortcircuit false 0
              (world_of running [Done]) [] eq_refl eq_refl)
    as (_ & H1 & H2 & _).
  split; [exact H1 | exact H2].
Defined.

End ThreadFacts.

(* ------------------------------------------------------------------ *)
(** ** The session as the main loop sets it up (lines 252-313) *)

Module SessionFacts.
Import Redirector.

Unset Implicit Arguments.

(** The session of a permitted client that another activity ends.  The
    reader (on an error of the serial port or the socket) clears the flag
    before the writer next looks at it: the writer leaves its loop without
    a [recv], its [stop()] finds the flag false and joins nothing, and so
    does the [stop()] of the teardown.  The socket and the port are closed
    and the turn ends; nobody has waited for the reader thread or the
    poller thread. *)
Theorem session_ended_elsewhere_joins_nothing (v : Z) (fuel : nat)
    (nm : string) (dt rt : bool) (cf : settings) (wi : bytes)
    (rx0 tx0 : bytes) (nd bl : bool)
    (a : option (string * Z)) (r : redirector) (sc : list reply) :
  serve v (S (S fuel))
    (mkWorld (mkSerial nm false dt rt cf wi)
       (Some (mkSocket rx0 false nd bl tx0)) a r
       (Done :: Done :: Done :: Done :: Done :: Done
          :: Cleared
          :: Done :: Done :: Done :: Done :: Done :: sc)) =
    mkRes (Ret Continue)
      (mkWorld (mkSerial nm false false false cf wi)
         (Some (mkSocket rx0 true true false tx0)) a
         (mkRedirector (Some false) false (Some Running) (Some Running)
            (v >? 0))
         sc)
      [ Call sock_setsockopt_nodelay; Call (sock_setblocking false);
        Call ser_open;
        Log "root" Logging.INFO ("Connected to " ++ nm)%string;
        Call ser_get_settings;
        Call (ser_set_dtr true); Call (ser_set_rts true);
        NewRedirector; Call (rfc_PortManager (v >? 0));
        SetAlive true;
        ThreadStart thread_read_id; ThreadStart thread_poll_id;
        Log "redirector" Logging.DEBUG "Writer thread terminated";
        Log "redirector" Logging.DEBUG "Stopping";
        Log "root" Logging.INFO "Disconnected";
        Log "redirector" Logging.DEBUG "Stopping";
        Call sock_close;
        Call (ser_set_dtr false); Call (ser_set_rts false);
        Call (ser_apply_settings cf);
        Call ser_close ].
Proof.
  unfold serve, session, connect, teardown, shortcircuit, writer, stop,
    __init__.
  cbn [wait_serial writer_loop]. run. reflexivity.
Qed.

(** *** What the Redirector is handed *)

Lemma bind_in_later {A B} (m : M A) (k : A -> M B) w ev :
  In ev (evs (bind m k w)) -> ~ In ev (evs (m w)) ->
  exists a, out (m w) = Ret a /\ In ev (evs (k a (fin (m w)))) /\
            fin (bind m k w) = fin (k a (fin (m w))) /\
            evs (bind m k w) = evs (m w) ++ evs (k a (fin (m w))).
Proof.
  unfold bind. destruct (m w) as [[x | e msg |] w1 e1]; cbn [out fin evs];
    intros Hin Hn; try contradiction.
  destruct (k x w1) as [o w2 e2] eqn:Hk. cbn [evs fin] in *.
  exists x. rewrite Hk. cbn [evs fin].
  apply in_app_or in Hin. destruct Hin as [Hin | Hin]; [contradiction |].
  auto.
Qed.

Lemma not_new_redirector (l : list event) :
  Forall no_new_redirector l -> ~ In NewRedirector l.
Proof.
  intros H Hin. rewrite Forall_forall in H. specialize (H _ Hin).
  discriminate H.
Qed.

Lemma call_unit_keeps (P : world -> Prop) c :
  (forall w sc, P w -> P (set_script sc w)) ->
  (forall w r, P w -> P (set_rd r w)) ->
  preserves P (call_unit c).
Proof.
  intros H1 H2. unfold call_unit, do_call.
  preserves_crawl ltac:(intros; cbn; auto).
Qed.

Lemma socket_op_ret c f w :
  out ((the_socket ;; call_unit c ;; on_socket f) w) = Ret tt ->
  exists s,
    client w = Some s /\
    client (fin ((the_socket ;; call_unit c ;; on_socket f) w))
      = Some (f s) /\
    ser (fin ((the_socket ;; call_unit c ;; on_socket f) w)) = ser w.
Proof.
  intros H. apply bind_ret_inv in H.
  destruct H as [s [H1 [H2 [Hf _]]]]. rewrite Hf. clear Hf.
  destruct w as [sr [s0 |] a r sc]; [| discriminate H1].
  cbn in H1. injection H1 as <-.
  change (fin (the_socket (mkWorld sr (Some s0) a r sc)))
    with (mkWorld sr (Some s0) a r sc) in *.
  apply bind_ret_inv in H2. destruct H2 as [[] [H3 [_ [Hf _]]]].
  rewrite Hf. clear Hf.
  assert (Hk : client (fin (call_unit c (mkWorld sr (Some s0) a r sc)))
               = Some s0 /\
               ser (fin (call_unit c (mkWorld sr (Some s0) a r sc))) = sr).
  { apply (call_unit_keeps (fun w => client w = Some s0 /\ ser w = sr) c);
      [intros; cbn; auto | intros; cbn; auto | split; reflexivity]. }
  destruct Hk as [Hc Hs].
  exists s0. split; [reflexivity |].
  cbn [on_socket modify fin]. unfold set_client. cbn [client ser].
  rewrite Hc, Hs. split; reflexivity.
Qed.

Lemma prelude_no_redirector fuel :
  emits no_new_redirector socket_setsockopt_nodelay /\
  emits no_new_redirector (socket_setblocking false) /\
  emits no_new_redirector (wait_serial fuel).
Proof.
  split; [emits_crawl |]. split; [emits_crawl |].
  induction fuel as [| fuel IH]; cbn [wait_serial]; emits_crawl.
Qed.

(** By the time a Redirector is constructed, the socket it is handed has
    Nagle's algorithm switched off and is in non-blocking mode, and the
    serial port is open: a turn in which a Redirector is constructed has
    been through both socket calls and the whole wait for the port, each
    of which returned, and none of them constructs a Redirector. *)
Theorem redirector_gets_prepared_socket (v : Z) (fuel : nat) (w : world) :
  In NewRedirector (evs (serve v fuel w)) ->
  exists w1 pre,
    session_socket w1 /\
    is_open (ser w1) = true /\
    Forall no_new_redirector pre /\
    evs (serve v fuel w) = pre ++ evs (session v fuel w1) /\
    fin (serve v fuel w) = fin (session v fuel w1).
Proof.
  intros Hin.
  destruct (prelude_no_redirector fuel) as (Hn1 & Hn2 & Hn3).
  unfold serve in *.
  destruct (bind_in_later _ _ _ _ Hin (not_new_redirector _ (Hn1 w)))
    as ([] & Ho1 & Hin1 & Hf1 & He1).
  destruct (socket_op_ret _ _ _ Ho1) as (s & Hc0 & Hc1 & _).
  set (w1 := fin (socket_setsockopt_nodelay w)) in *.
  destruct (bind_in_later _ _ _ _ Hin1 (not_new_redirector _ (Hn2 w1)))
    as ([] & Ho2 & Hin2 & Hf2 & He2).
  destruct (socket_op_ret _ _ _ Ho2) as (s1 & Hc1' & Hc2 & _).
  set (w2 := fin (socket_setblocking false w1)) in *.
  destruct (bind_in_later _ _ _ _ Hin2 (not_new_redirector _ (Hn3 w2)))
    as ([] & Ho3 & Hin3 & Hf3 & He3).
  set (w3 := fin (wait_serial fuel w2)) in *.
  exists w3, (evs (socket_setsockopt_nodelay w)
              ++ evs (socket_setblocking false w1)
              ++ evs (wait_serial fuel w2)).
  split.
  { exists (with_blocking false s1).
    split.
    - rewrite <- Hc2.
      apply (RetryFacts.wait_serial_keeps_client (client w2) fuel w2 eq_refl).
    - assert (Hs : Some s1 = Some (with_nodelay true s))
        by (rewrite <- Hc1'; exact Hc1).
      injection Hs as ->.
      destruct s; split; reflexivity. }
  split; [apply RetryFacts.wait_serial_returns_open; exact Ho3 |].
  split.
  { apply Forall_app. split; [apply Hn1 |].
    apply Forall_app. split; [apply Hn2 | apply Hn3]. }
  assert (Hret : forall x : world,
            evs ((session v fuel ;; ret Continue) x) = evs (session v fuel x)
            /\ fin ((session v fuel ;; ret Continue) x)
               = fin (session v fuel x)).
  { intros x. unfold bind.
    destruct (session v fuel x) as [[[] | e msg |] x1 e1]; cbn;
      rewrite ?app_nil_r; split; reflexivity. }
  split.
  - rewrite He1, He2, He3. fold w1 w2 w3. rewrite (proj1 (Hret w3)).
    rewrite <- !app_assoc. reflexivity.
  - rewrite Hf1, Hf2, Hf3. fold w1 w2 w3. apply Hret.
Qed.

Lemma redirector_gets_prepared_socket_witness :
  In NewRedirector
    (evs (serve 0 2
            (mkWorld
               (mkSerial "/dev/ttyUSB0" false false false
                  [("baudrate", 9600)] [])
               (Some (mkSocket [] false false true []))
               (Some ("127.0.0.1"%string, 50000))
               (mkRedirector None false None None false)
               [Done; Done; Done; Done; Done; Done]))) /\
  exists w1 pre,
    session_socket w1 /\ is_open (ser w1) = true /\
    Forall no_new_redirector pre /\
    evs (serve 0 2
           (mkWorld
              (mkSerial "/dev/ttyUSB0" false false false
                 [("baudrate", 9600)] [])
              (Some (mkSocket [] false false true []))
              (Some ("127.0.0.1"%string, 50000))
              (mkRedirector None false None None false)
              [Done; Done; Done; Done; Done; Done]))
      = pre ++ evs (session 0 2 w1).
Proof.
  assert (H : In NewRedirector
    (evs (serve 0 2
            (mkWorld
               (mkSerial "/dev/ttyUSB0" false false false
                  [("baudrate", 9600)] [])
               (Some (mkSocket [] false false true []))
               (Some ("127.0.0.1"%string, 50000))
               (mkRedirector None false None None false)
               [Done; Done; Done; Done; Done; Done])))).
  { vm_compute. do 7 right. left. reflexivity. }
  split; [exact H |].
  destruct (redirector_gets_prepared_socket 0 2 _ H)
    as (w1 & pre & H1 & H2 & H3 & H4 & _).
  exists w1, pre. auto.
Defined.

End SessionFacts.

(* ------------------------------------------------------------------ *)
(** ** The write lock: nothing lost, nothing repeated (lines 106-111) *)

Module WriteOrderFacts.
Import WriteGuard.

Unset Implicit Arguments.

(** With any number of threads writing through [Redirector.write], in any
    interleaving of their steps, and no [sendall] failing: once every
    thread has written all it had to, the byte stream on the socket is the
    concatenation of all the byte strings that were to be written, each of
    them whole and exactly once, in some order.  Nothing is lost waiting
    for the lock and nothing is sent twice. *)
Theorem writes_are_neither_lost_nor_repeated (todos : list (list bytes))
    (ms : list move) :
  forallb is_step ms = true ->
  all_done (run ms (init todos)) = true ->
  exists segs,
    Permutation segs (List.concat todos) /\
    stream (run ms (init todos)) = List.concat segs.
Proof.
  intros Hm Hd.
  destruct (WriteGuardFacts.conserved_run _ ms (init todos) Hm
              (WriteGuardFacts.guarded_init todos)
              (WriteGuardFacts.conserved_init todos))
    as (segs & Hp & Hs).
  destruct (WriteGuardFacts.all_done_nothing_left _ Hd) as [Hnil Hall].
  exists segs. rewrite Hnil, app_nil_r in Hp. split; [exact Hp |].
  rewrite Hs. unfold sent_so_far.
  destruct (holder (run ms (init todos))) as [t |]; [| apply app_nil_r].
  destruct (nth_error (threads (run ms (init todos))) t) as [a |] eqn:Hn;
    [| apply app_nil_r].
  rewrite (Hall _ _ Hn). apply app_nil_r.
Qed.

Lemma writes_are_neither_lost_nor_repeated_witness :
  all_done
    (run [Step 0; Step 1; Step 0; Step 1; Step 0; Step 0; Step 1; Step 1;
          Step 1]%nat
       (init [[["a"%byte; "b"%byte]]; [["x"%byte]]])) = true /\
  exists segs,
    Permutation segs [["a"%byte; "b"%byte]; ["x"%byte]] /\
    stream
      (run [Step 0; Step 1; Step 0; Step 1; Step 0; Step 0; Step 1; Step 1;
            Step 1]%nat
         (init [[["a"%byte; "b"%byte]]; [["x"%byte]]])) = List.concat segs.
Proof.
  split; [reflexivity |].
  exact (writes_are_neither_lost_nor_repeated
           [[["a"%byte; "b"%byte]]; [["x"%byte]]]
           [Step 0; Step 1; Step 0; Step 1; Step 0; Step 0; Step 1; Step 1;
            Step 1]%nat
           eq_refl eq_refl).
Defined.

End WriteOrderFacts.
